(** * Gantt timeline derivation of [gantt_chart_generator.py]

    A shallow embedding of [GanttChartGenerator] and the properties of its
    date resolution, status colouring, label wrapping and project-week
    layout.

    Conventions of the embedding.
    - Python values decoded from the JSON payload are terms of [pyval];
      a JSON object is an association list searched from the left.
    - Characters are code points below 256 ([Ascii.ascii]); [len] counts
      characters.
    - A [datetime] is a wall-clock reading in microseconds since
      0001-01-01T00:00:00 together with an optional UTC offset; the type
      is bounded as Python's is (years 1 to 9999).
    - Python exceptions are values of [exn], and code that can raise lives
      in the [res] monad.
    - [datetime.fromisoformat] belongs to the Python library, not to the
      repository: the functions that call it take it as a parameter
      [fromisoformat], where [None] stands for the [ValueError] it raises on
      a string it cannot parse.
    - A finite float is represented by the rational it denotes ([VFloat]),
      so that 0.0 and -0.0 are one value; float arithmetic is that of
      IEEE 754 binary64: the exact result rounded to the nearest
      representable value, ties to even ([round_double]).
    - The data frame is a list of row records; [sort_values] is the stable
      sort pandas performs on several keys. *)

From Stdlib Require Import ZArith QArith List String Ascii Bool Lia.
From Stdlib Require Import Permutation Sorted Lqa.
From Stdlib Require Import Qround Qabs Qpower Qreduction.
Import ListNotations.

Local Open Scope string_scope.
Local Open Scope Z_scope.

(** ** Exceptions and the result monad *)

Inductive exn : Type :=
| TypeError
| AttributeError
| ValueError
| OverflowError.

Inductive res (A : Type) : Type :=
| Ok (a : A)
| Raise (e : exn).

Arguments Ok {A} a.
Arguments Raise {A} e.

Definition bind {A B : Type} (m : res A) (k : A -> res B) : res B :=
  match m with
  | Ok a => k a
  | Raise e => Raise e
  end.

Notation "x <- m ;; k" := (bind m (fun x => k))
  (at level 61, m at next level, right associativity).

Definition exn_eqb (a b : exn) : bool :=
  match a, b with
  | TypeError, TypeError
  | AttributeError, AttributeError
  | ValueError, ValueError
  | OverflowError, OverflowError => true
  | _, _ => false
  end.

(** [try m except (e1, e2, ...): return d]; any other exception keeps
    propagating. *)
Definition try_except {A : Type} (m : res A) (caught : list exn) (d : A) : res A :=
  match m with
  | Ok a => Ok a
  | Raise e => if existsb (exn_eqb e) caught then Ok d else Raise e
  end.

Fixpoint mapM {A B : Type} (f : A -> res B) (l : list A) : res (list B) :=
  match l with
  | [] => Ok []
  | a :: l' => b <- f a ;; bs <- mapM f l' ;; Ok (b :: bs)
  end.

(** ** Python values *)

#[warnings="-register-all"]
Inductive pyval : Type :=
| VNone
| VBool (b : bool)
| VInt (z : Z)
| VFloat (q : Q)
| VStr (s : string)
| VList (l : list pyval)
| VDict (d : list (string * pyval)).

Definition len (s : string) : Z := Z.of_nat (String.length s).

(** Truth value of an object, as [if x], [not x] and [x or y] test it. *)
Definition truthy (v : pyval) : bool :=
  match v with
  | VNone => false
  | VBool b => b
  | VInt z => negb (z =? 0)
  | VFloat q => negb (Qeq_bool q 0)
  | VStr s => negb (len s =? 0)
  | VList l => negb (Z.of_nat (List.length l) =? 0)
  | VDict d => negb (Z.of_nat (List.length d) =? 0)
  end.

Definition py_or (a b : pyval) : pyval := if truthy a then a else b.

Fixpoint lookup (k : string) (d : list (string * pyval)) : option pyval :=
  match d with
  | [] => None
  | (k', v) :: d' => if String.eqb k k' then Some v else lookup k d'
  end.

(** [obj.get(key, default)]: only a dict has the method. *)
Definition py_get (obj : pyval) (k : string) (default : pyval) : res pyval :=
  match obj with
  | VDict d => Ok (match lookup k d with Some v => v | None => default end)
  | _ => Raise AttributeError
  end.

(** ** Strings *)

(** [s.replace('Z', '+00:00')]: every occurrence is replaced. *)
Fixpoint replace_Z (s : string) : string :=
  match s with
  | EmptyString => EmptyString
  | String c s' =>
      if Ascii.eqb c "Z"%char then "+00:00" ++ replace_Z s'
      else String c (replace_Z s')
  end.

Definition py_replace_Z (v : pyval) : res string :=
  match v with
  | VStr s => Ok (replace_Z s)
  | _ => Raise AttributeError
  end.

(** ** Datetimes *)

Definition DAY_US : Z := 86400000000.

(** [date.max.toordinal()], the number of days from 0001-01-01 to
    9999-12-31 inclusive. *)
Definition MAXORDINAL : Z := 3652059.

Record datetime : Type := mkdt {
  wall : Z;                (* microseconds since 0001-01-01T00:00:00 *)
  utcoffset : option Z     (* [None]: naive; [Some o]: aware, o in microseconds *)
}.

Definition aware (d : datetime) : bool :=
  match utcoffset d with Some _ => true | None => false end.

(** The quantity two comparable datetimes are ordered and subtracted by:
    the wall clock of a naive one, the UTC instant of an aware one. *)
Definition instant (d : datetime) : Z :=
  match utcoffset d with
  | Some o => wall d - o
  | None => wall d
  end.

Definition comparable (a b : datetime) : bool := Bool.eqb (aware a) (aware b).

(** [a < b], [a <= b], [a > b]: [TypeError] between a naive and an aware
    operand. *)
Definition dt_lt (a b : datetime) : res bool :=
  if comparable a b then Ok (instant a <? instant b) else Raise TypeError.

Definition dt_le (a b : datetime) : res bool :=
  if comparable a b then Ok (instant a <=? instant b) else Raise TypeError.

Definition dt_gt (a b : datetime) : res bool := dt_lt b a.

(** [a - b], a timedelta, here in microseconds. *)
Definition dt_sub (a b : datetime) : res Z :=
  if comparable a b then Ok (instant a - instant b) else Raise TypeError.

(** [timedelta.days]: whole days, rounded towards minus infinity. *)
Definition days (td : Z) : Z := td / DAY_US.

(** [d + timedelta(days=n)]: [OverflowError] outside years 1..9999. *)
Definition dt_add_days (d : datetime) (n : Z) : res datetime :=
  let w := wall d + n * DAY_US in
  if (0 <=? w) && (w <? MAXORDINAL * DAY_US)
  then Ok (mkdt w (utcoffset d))
  else Raise OverflowError.

(** [datetime.utcnow()] is naive. *)
Definition utcnow (clock : Z) : datetime := mkdt clock None.

(** ** Colours *)

Inductive color : Type :=
| Done       (* '#27ae60' *)
| Future     (* '#9b59b6' *)
| OnTrack    (* '#3498db' *)
| Overdue    (* '#e74c3c' *)
| Unknown.   (* '#95a5a6' *)

(** [status in {'Closed', 'closed', 'CLOSED'}]: hashing a list or a dict
    raises [TypeError]; a value that is not a string is never a member. *)
Definition closed_statuses : list string := ["Closed"; "closed"; "CLOSED"].

Definition in_closed (status : pyval) : res bool :=
  match status with
  | VStr s => Ok (existsb (String.eqb s) closed_statuses)
  | VList _ | VDict _ => Raise TypeError
  | _ => Ok false
  end.

(** [_get_status_color(status, start, finish, now)] with the default
    [closed_statuses].  [x and y and c] evaluates [c] only when [x] and
    [y] are not [None]; [a <= b <= c] evaluates [b <= c] only when
    [a <= b] holds. *)
Definition _get_status_color (status : pyval)
    (start finish now : option datetime) : res color :=
  closed <- in_closed status ;;
  if closed then Ok Done else
  c1 <- match start, now with
        | Some s, Some n => dt_gt s n
        | _, _ => Ok false
        end ;;
  if c1 then Ok Future else
  c2 <- match start, finish, now with
        | Some s, Some f, Some n =>
            b <- dt_le s n ;;
            if b then dt_le n f else Ok false
        | _, _, _ => Ok false
        end ;;
  if c2 then Ok OnTrack else
  c3 <- match finish, now with
        | Some f, Some n => dt_lt f n
        | _, _ => Ok false
        end ;;
  if c3 then Ok Overdue else
  Ok Unknown.

(** ** Label wrapping *)

(** Characters on which [str.split()] breaks (code points below 256). *)
Definition is_space (c : ascii) : bool :=
  let n := Z.of_N (N_of_ascii c) in
  ((9 <=? n) && (n <=? 13)) || ((28 <=? n) && (n <=? 32))
  || (n =? 133) || (n =? 160).

Definition nonempty (s : string) : bool := negb (len s =? 0).

Fixpoint split_from (s : string) (word : string) : list string :=
  match s with
  | EmptyString => if nonempty word then [word] else []
  | String c s' =>
      if is_space c
      then (if nonempty word then word :: split_from s' "" else split_from s' "")
      else split_from s' (word ++ String c "")
  end.

(** [name.split()] *)
Definition py_split (name : string) : list string := split_from name "".

Definition llen {A : Type} (l : list A) : Z := Z.of_nat (List.length l).

(** [l[:k]], also for a negative [k]. *)
Definition slice_to {A : Type} (l : list A) (k : Z) : list A :=
  if k <? 0 then firstn (Z.to_nat (Z.max 0 (llen l + k))) l
  else firstn (Z.to_nat k) l.

Fixpoint join (sep : string) (l : list string) : string :=
  match l with
  | [] => ""
  | [x] => x
  | x :: l' => x ++ sep ++ join sep l'
  end.

Definition sum_len (l : list string) : Z :=
  fold_right Z.add 0 (map len l).

(** The [for word in words] loop of [wrap_name]; it returns [lines] and
    [current_line] as they are when the loop is left, by exhaustion or by
    [break]. *)
Fixpoint pack (max_chars max_lines : Z) (words : list string)
    (lines : list string) (current_line : string) : list string * string :=
  match words with
  | [] => (lines, current_line)
  | word :: rest =>
      if len current_line + len word + 1 <=? max_chars then
        let current_line :=
          if nonempty current_line then current_line ++ " " else current_line in
        pack max_chars max_lines rest lines (current_line ++ word)
      else
        let lines := (lines ++ [current_line])%list in
        let current_line := word in
        if llen lines =? max_lines - 1 then (lines, current_line)
        else pack max_chars max_lines rest lines current_line
  end.

Definition wrap_name (name : string) (max_chars max_lines : Z) : string :=
  if len name <=? max_chars then name else
  let words := py_split name in
  let '(lines, current_line) := pack max_chars max_lines words [] "" in
  let lines := if nonempty current_line then (lines ++ [current_line])%list else lines in
  let lines := if llen lines >? max_lines then slice_to lines max_lines else lines in
  let result := join "<br>" lines in
  if (llen lines =? max_lines)
     && (len current_line + sum_len (slice_to lines (-1)) <? len name)
  then result ++ "..."
  else result.

(** [wrap_name(subject)] on whatever the payload holds under ['subject']:
    [len] is undefined on [None] and on numbers, [split] on lists and
    dicts. *)
Definition wrap_subject (name : pyval) : res pyval :=
  match name with
  | VStr s => Ok (VStr (wrap_name s 100 2))
  | VList l => if llen l <=? 100 then Ok name else Raise AttributeError
  | VDict d => if llen d <=? 100 then Ok name else Raise AttributeError
  | _ => Raise TypeError
  end.

(** ** Rows of the data frame *)

Record row : Type := mkrow {
  wp_id : pyval;
  Task : pyval * pyval;          (* f"#{wp_id}: {wrapped_subject}", unrendered *)
  Start : option datetime;
  Finish : option datetime;
  Status : pyval;
  Progress : Q;
  Assignee : pyval;
  Type_ : pyval;
  Color : color;
  Duration : Z;
  MissingStart : bool
}.

(** *** Float arithmetic

    A Python float is an IEEE 754 binary64 number: 53 significant bits,
    least exponent -1074.  An operation yields the exact result rounded to
    the nearest such number, a tie going to the one whose last bit is 0. *)

Definition pow2 (e : Z) : Q := (2 ^ e)%Q.

(** The nearest integer, a tie going to the even one. *)
Definition rne (x : Q) : Z :=
  let f := Qfloor x in
  match (x - inject_Z f ?= 1 # 2)%Q with
  | Lt => f
  | Gt => f + 1
  | Eq => if Z.even f then f else f + 1
  end.

(** The binary exponent of a number that is not 0: 2^l <= |x| < 2^(l+1). *)
Definition ilog2 (x : Q) : Z :=
  let l := Z.log2 (Z.abs (Qnum x)) - Z.log2 (Zpos (Qden x)) in
  if Qle_bool (pow2 l) (Qabs x) then l else l - 1.

(** The exponent of the last bit of the floats around [x]: 52 places
    below the leading bit, and -1074 in the subnormal range. *)
Definition quantum (x : Q) : Z := Z.max (ilog2 x - 52) (-1074).

(** The float nearest to [x].  (A result of magnitude 2^1024 or more
    would be an infinity; no caller below reaches it: [float_of] raises
    before, and a finite float divided by 100 stays finite.) *)
Definition round_double (x : Q) : Q :=
  if Qeq_bool x 0 then 0%Q
  else let e := quantum x in Qred (inject_Z (rne (x / pow2 e)) * pow2 e).

(** Least magnitude of an int that [float(int)] cannot convert: from here
    on the nearest float would be 2^1024. *)
Definition FLOAT_INT_LIMIT : Z := 2 ^ 1024 - 2 ^ 970.

(** The left operand of [x / 100.0] as a float: an int (or bool) is
    converted, rounding to nearest, or raises [OverflowError]; anything
    but a number raises [TypeError]. *)
Definition float_of (x : pyval) : res Q :=
  match x with
  | VInt z =>
      if Z.abs z <? FLOAT_INT_LIMIT then Ok (round_double (inject_Z z))
      else Raise OverflowError
  | VBool b => Ok (inject_Z (if b then 1 else 0))
  | VFloat q => Ok q
  | _ => Raise TypeError
  end.

(** [x / 100.0] *)
Definition div_100 (x : pyval) : res Q :=
  a <- float_of x ;;
  Ok (round_double (a / 100)).

Definition is_none (v : pyval) : bool :=
  match v with VNone => true | _ => false end.

Definition EMPTY : pyval := VDict [].

Section Generator.

(** [datetime.fromisoformat] *)
Variable fromisoformat : string -> option datetime.

Definition _parse_date (date_str : pyval) : res (option datetime) :=
  if negb (truthy date_str) then Ok None else
  try_except
    (s <- py_replace_Z date_str ;;
     match fromisoformat s with
     | Some d => Ok (Some d)
     | None => Raise ValueError
     end)
    [ValueError; AttributeError]
    None.

(** Lines 64-69: the two parsed fields and the one-day backfill. *)
Definition resolve_dates (wp : pyval) : res (option datetime * option datetime) :=
  s1 <- py_get wp "startDate" VNone ;;
  s2 <- py_get wp "derivedStartDate" VNone ;;
  start_date <- _parse_date (py_or s1 s2) ;;
  d1 <- py_get wp "dueDate" VNone ;;
  d2 <- py_get wp "derivedDueDate" VNone ;;
  due_date <- _parse_date (py_or d1 d2) ;;
  match start_date, due_date with
  | Some s, None => f <- dt_add_days s 1 ;; Ok (Some s, Some f)
  | None, Some f => s <- dt_add_days f (-1) ;; Ok (Some s, Some f)
  | _, _ => Ok (start_date, due_date)
  end.

(** [wp.get('_links', {}).get(name, {}).get('title', default)] *)
Definition link_title (wp : pyval) (name : string) (default : string) : res pyval :=
  links <- py_get wp "_links" EMPTY ;;
  link <- py_get links name EMPTY ;;
  py_get link "title" (VStr default).

Definition duration_of (start_date due_date : option datetime) : res Z :=
  match start_date, due_date with
  | Some s, Some f => td <- dt_sub f s ;; Ok (days td)
  | _, _ => Ok 0
  end.

(** One iteration of the loop of [_extract_work_package_data]. *)
Definition extract_one (now : datetime) (wp : pyval) : res row :=
  id <- py_get wp "id" VNone ;;
  subject <- py_get wp "subject" (VStr "Untitled") ;;
  wrapped_subject <- wrap_subject subject ;;
  dates <- resolve_dates wp ;;
  let '(start_date, due_date) := dates in
  status <- link_title wp "status" "Unknown" ;;
  pd <- py_get wp "percentageDone" VNone ;;
  progress <- (if is_none pd then Ok 0%Q
               else x <- py_get wp "percentageDone" (VInt 0) ;; div_100 x) ;;
  assignee <- link_title wp "assignee" "Unassigned" ;;
  type_name <- link_title wp "type" "Task" ;;
  color <- _get_status_color status start_date due_date (Some now) ;;
  let missing_start := match start_date with None => true | Some _ => false end in
  duration <- duration_of start_date due_date ;;
  Ok {| wp_id := id;
        Task := (id, wrapped_subject);
        Start := start_date;
        Finish := due_date;
        Status := status;
        Progress := progress;
        Assignee := assignee;
        Type_ := type_name;
        Color := color;
        Duration := duration;
        MissingStart := missing_start |}.

Definition _extract_work_package_data (clock : Z) (work_packages : list pyval)
  : res (list row) :=
  mapM (extract_one (utcnow clock)) work_packages.

End Generator.

(** ** Ordering and project weeks *)

Record week_row : Type := mkwr {
  base : row;
  StartWeek : option Z;
  FinishWeek : option Z
}.

(** Order of the ['Start'] column; [NaT] goes last. *)
Definition start_leb (a b : option datetime) : bool :=
  match a, b with
  | Some x, Some y => instant x <=? instant y
  | Some _, None => true
  | None, Some _ => false
  | None, None => true
  end.

(** Order of the key [['MissingStart', 'Start']], both ascending. *)
Definition row_leb (a b : row) : bool :=
  match MissingStart a, MissingStart b with
  | false, true => true
  | true, false => false
  | _, _ => start_leb (Start a) (Start b)
  end.

Fixpoint insert (x : row) (l : list row) : list row :=
  match l with
  | [] => [x]
  | y :: l' => if row_leb x y then x :: l else y :: insert x l'
  end.

Definition stable_sort (df : list row) : list row := fold_right insert [] df.

(** [df['Start'].dropna()] *)
Definition valid_starts (df : list row) : list datetime :=
  flat_map (fun r => match Start r with Some d => [d] | None => [] end) df.

Definition same_awareness (l : list datetime) : bool :=
  match l with
  | [] => true
  | d :: l' => forallb (comparable d) l'
  end.

(** [df.sort_values(['MissingStart', 'Start'], ascending=[True, True])]:
    ordering a column that mixes naive and aware datetimes raises. *)
Definition sort_values (df : list row) : res (list row) :=
  if same_awareness (valid_starts df) then Ok (stable_sort df)
  else Raise TypeError.

Definition dt_min (a b : datetime) : datetime :=
  if instant b <? instant a then b else a.

Definition week_or_none (min_start : datetime) (date : option datetime)
  : res (option Z) :=
  match date with
  | Some d =>
      td <- dt_sub d min_start ;;
      let w := days td / 7 + 1 in
      Ok (Some (if w >=? 1 then w else 1))
  | None => Ok None
  end.

(** [df.loc[df['FinishWeek'] == df['StartWeek'], 'FinishWeek'] =
    df['StartWeek'] + 1]; a missing week equals nothing. *)
Definition bump (sw fw : option Z) : option Z :=
  match sw, fw with
  | Some s, Some f => if f =? s then Some (s + 1) else fw
  | _, _ => fw
  end.

(** Lines 121-135.  The two week columns are filled row by row here; the
    order in which pandas visits the cells does not change the outcome. *)
Definition with_weeks (df : list row) : res (list week_row) :=
  match valid_starts df with
  | [] => Ok (map (fun r => mkwr r None None) df)
  | d :: ds =>
      let min_start := fold_left dt_min ds d in
      mapM (fun r =>
              sw <- week_or_none min_start (Start r) ;;
              fw <- week_or_none min_start (Finish r) ;;
              Ok (mkwr r sw (bump sw fw)))
           df
  end.

Definition has_weeks (r : week_row) : bool :=
  match StartWeek r, FinishWeek r with
  | Some _, Some _ => true
  | _, _ => false
  end.

Definition opt_list {A : Type} (o : option A) : list A :=
  match o with Some a => [a] | None => [] end.

Definition max_of (l : list Z) : option Z :=
  match l with
  | [] => None
  | x :: l' => Some (fold_left Z.max l' x)
  end.

Definition min_of (l : list Z) : option Z :=
  match l with
  | [] => None
  | x :: l' => Some (fold_left Z.min l' x)
  end.

(** What the figure and the summary block are built from. *)
Record chart : Type := mkchart {
  df_plot : list week_row;            (* one bar per row, in this order *)
  missing_start_df : list week_row;   (* annotated "(No start date)" *)
  y_labels : list (pyval * pyval);
  max_week : Z;
  total_tasks : Z;
  min_start_week : option Z;
  max_finish_week : option Z;
  project_duration : option Z
}.

Inductive outcome : Type :=
| NoWorkPackages            (* alert-info *)
| NoScheduledTasks          (* alert-warning *)
| Chart (c : chart)
| ErrorResult (e : exn).    (* alert-danger, from [except Exception] *)

(** Lines 112-242, from the frame to the data handed to the figure. *)
Definition layout (df : list row) : res outcome :=
  match df with
  | [] => Ok NoScheduledTasks
  | _ =>
    df <- sort_values df ;;
    df <- with_weeks df ;;
    let plot := filter has_weeks df in
    match plot with
    | [] => Ok NoScheduledTasks
    | _ =>
      let missing := filter (fun r => MissingStart (base r)) df in
      let finish_weeks := flat_map (fun r => opt_list (FinishWeek r)) df in
      let start_weeks := flat_map (fun r => opt_list (StartWeek r)) df in
      let finishes := flat_map (fun r => opt_list (Finish (base r))) df in
      Ok (Chart {|
        df_plot := plot;
        missing_start_df := missing;
        y_labels := (rev (map (fun r => Task (base r)) missing)
                     ++ rev (map (fun r => Task (base r)) plot))%list;
        max_week := match max_of (flat_map (fun r => opt_list (FinishWeek r)) plot) with
                    | Some m => m
                    | None => 1
                    end;
        total_tasks := llen df;
        min_start_week := min_of start_weeks;
        max_finish_week := max_of finish_weeks;
        project_duration :=
          match max_of (map instant finishes),
                min_of (map instant (valid_starts (map base df))) with
          | Some f, Some s => Some (days (f - s))
          | _, _ => None
          end
      |})
    end
  end.

Section Pipeline.

Variable fromisoformat : string -> option datetime.

(** [generate_gantt_chart(project_id)] once the client has returned
    [work_packages], with the default [epic_only=False]: the call of the
    route [/gantt/<project_id>].  The call with [epic_only=True] of the
    route [/gantt_epic/<project_id>], which first filters the frame
    through pandas' [.str] accessor (lines 108-110), is not part of this
    embedding. *)
Definition generate_gantt_chart (clock : Z) (work_packages : list pyval)
  : outcome :=
  match work_packages with
  | [] => NoWorkPackages
  | _ =>
    match (df <- _extract_work_package_data fromisoformat clock work_packages ;;
           layout df) with
    | Ok o => o
    | Raise e => ErrorResult e
    end
  end.

End Pipeline.

(** ** A reference reading of ISO timestamps

    [iso_basic] reads the shapes [YYYY-MM-DD] and
    [YYYY-MM-DD?HH:MM:SS] with an optional [+HH:MM] or [-HH:MM] suffix,
    the way [datetime.fromisoformat] reads them, and rejects every other
    string.  It instantiates the parameter [fromisoformat] in the worked
    examples. *)
Module Iso.

Definition digit (c : ascii) : option Z :=
  let n := Z.of_N (N_of_ascii c) in
  if (48 <=? n) && (n <=? 57) then Some (n - 48) else None.

(** Reads exactly [n] decimal digits. *)
Fixpoint number (n : nat) (acc : Z) (s : string) : option (Z * string) :=
  match n with
  | O => Some (acc, s)
  | S n' =>
      match s with
      | String c s' =>
          match digit c with
          | Some d => number n' (10 * acc + d) s'
          | None => None
          end
      | EmptyString => None
      end
  end.

Definition expect (c : ascii) (s : string) : option string :=
  match s with
  | String c' s' => if Ascii.eqb c c' then Some s' else None
  | EmptyString => None
  end.

Definition is_leap (y : Z) : bool :=
  (y mod 4 =? 0) && (negb (y mod 100 =? 0) || (y mod 400 =? 0)).

Definition days_in_month (y m : Z) : Z :=
  if m =? 2 then (if is_leap y then 29 else 28)
  else if (m =? 4) || (m =? 6) || (m =? 9) || (m =? 11) then 30
  else 31.

Definition days_before_year (y : Z) : Z :=
  let y := y - 1 in y * 365 + y / 4 - y / 100 + y / 400.

Definition days_before_month (y m : Z) : Z :=
  nth (Z.to_nat (m - 1)) [0; 31; 59; 90; 120; 151; 181; 212; 243; 273; 304; 334] 0
  + (if (2 <? m) && is_leap y then 1 else 0).

Definition ymd2ord (y m d : Z) : Z :=
  days_before_year y + days_before_month y m + d.

Definition valid_date (y m d : Z) : bool :=
  (1 <=? y) && (y <=? 9999) && (1 <=? m) && (m <=? 12)
  && (1 <=? d) && (d <=? days_in_month y m).

Definition parse_date (s : string) : option (Z * string) :=
  match number 4 0 s with
  | Some (y, s) =>
    match expect "-" s with
    | Some s =>
      match number 2 0 s with
      | Some (m, s) =>
        match expect "-" s with
        | Some s =>
          match number 2 0 s with
          | Some (d, s) =>
              if valid_date y m d then Some (ymd2ord y m d, s) else None
          | None => None
          end
        | None => None
        end
      | None => None
      end
    | None => None
    end
  | None => None
  end.

(** [HH:MM] followed by [rest]; the value is in minutes. *)
Definition parse_hm (hmax : Z) (s : string) : option (Z * string) :=
  match number 2 0 s with
  | Some (h, s) =>
    match expect ":" s with
    | Some s =>
      match number 2 0 s with
      | Some (m, s) =>
          if (h <=? hmax) && (m <=? 59) then Some (60 * h + m, s) else None
      | None => None
      end
    | None => None
    end
  | None => None
  end.

Definition parse_offset (s : string) : option (option Z) :=
  match s with
  | EmptyString => Some None
  | String c s' =>
      let sign := if Ascii.eqb c "+" then Some 1
                  else if Ascii.eqb c "-" then Some (-1) else None in
      match sign, parse_hm 23 s' with
      | Some sg, Some (m, EmptyString) => Some (Some (sg * m * 60000000))
      | _, _ => None
      end
  end.

(** The time of day in microseconds and the offset. *)
Definition parse_time (s : string) : option (Z * option Z) :=
  match parse_hm 23 s with
  | Some (hm, s) =>
    match expect ":" s with
    | Some s =>
      match number 2 0 s with
      | Some (sec, s) =>
          if sec <=? 59 then
            match parse_offset s with
            | Some off => Some ((60 * hm + sec) * 1000000, off)
            | None => None
            end
          else None
      | None => None
      end
    | None => None
    end
  | None => None
  end.

Definition iso_basic (s : string) : option datetime :=
  match parse_date s with
  | Some (ord, EmptyString) => Some (mkdt ((ord - 1) * DAY_US) None)
  | Some (ord, String _ t) =>
      match parse_time t with
      | Some (us, off) => Some (mkdt ((ord - 1) * DAY_US + us) off)
      | None => None
      end
  | None => None
  end.

End Iso.

(** ** Vocabulary of the statements *)

(** The value [wp.get(key)] of a payload object. *)
Definition field (d : list (string * pyval)) (k : string) : pyval :=
  match lookup k d with Some v => v | None => VNone end.

(** What [_parse_date] yields, read off the shape of its argument. *)
Definition parse_field (fromisoformat : string -> option datetime) (v : pyval)
  : option datetime :=
  match v with
  | VStr s => if nonempty s then fromisoformat (replace_Z s) else None
  | _ => None
  end.

(** The two source dates of an item, before any backfill. *)
Definition source_start (fromisoformat : string -> option datetime)
    (d : list (string * pyval)) : option datetime :=
  parse_field fromisoformat (py_or (field d "startDate") (field d "derivedStartDate")).

Definition source_due (fromisoformat : string -> option datetime)
    (d : list (string * pyval)) : option datetime :=
  parse_field fromisoformat (py_or (field d "dueDate") (field d "derivedDueDate")).

Fixpoint has_Z (s : string) : bool :=
  match s with
  | EmptyString => false
  | String c s' => Ascii.eqb c "Z"%char || has_Z s'
  end.

(** The reading of the specification: a trailing 'Z', and no other,
    becomes '+00:00'. *)
Fixpoint replace_trailing_Z (s : string) : string :=
  match s with
  | EmptyString => EmptyString
  | String c EmptyString =>
      if Ascii.eqb c "Z"%char then "+00:00" else String c EmptyString
  | String c s' => String c (replace_trailing_Z s')
  end.

Definition spec_parse_date (fromisoformat : string -> option datetime) (v : pyval)
  : option datetime :=
  match v with
  | VStr s => if nonempty s then fromisoformat (replace_trailing_Z s) else None
  | _ => None
  end.

(** [n] is an integer nearest to [x], and the even one of the two when
    [x] lies half way. *)
Definition nearest_even (x : Q) (n : Z) : Prop :=
  (inject_Z n - (1 # 2) < x /\ x < inject_Z n + (1 # 2))%Q
  \/ ((x == inject_Z n - (1 # 2) \/ x == inject_Z n + (1 # 2))%Q
      /\ Z.even n = true).

(** [s.lower()] on the letters A-Z. *)
Definition lower_char (c : ascii) : ascii :=
  let n := N_of_ascii c in
  if ((65 <=? n) && (n <=? 90))%N then ascii_of_N (n + 32) else c.

Fixpoint lower (s : string) : string :=
  match s with
  | EmptyString => EmptyString
  | String c s' => String (lower_char c) (lower s')
  end.

(** The date-derived categories in the words of the specification:
    Future if start is known and start > now, else OnTrack if start and
    finish are known and start <= now <= finish, else Overdue if finish is
    known and finish < now, else Unknown. *)
Definition spec_category (start finish : option datetime) (now : datetime) : color :=
  let starts_later :=
    match start with Some s => instant now <? instant s | None => false end in
  let under_way :=
    match start, finish with
    | Some s, Some f => (instant s <=? instant now) && (instant now <=? instant f)
    | _, _ => false
    end in
  let finished_earlier :=
    match finish with Some f => instant f <? instant now | None => false end in
  if starts_later then Future
  else if under_way then OnTrack
  else if finished_earlier then Overdue
  else Unknown.

Definition comparable_opt (o : option datetime) (now : datetime) : bool :=
  match o with Some d => comparable d now | None => true end.

(** [week(date) = max(1, floor((date - minStart).days / 7) + 1)] *)
Definition week (min_start date : datetime) : Z :=
  Z.max 1 (days (instant date - instant min_start) / 7 + 1).

(** Two rows the sort key does not tell apart. *)
Definition key_eqb (a b : row) : bool := row_leb a b && row_leb b a.

(** The sort key as a relation. *)
Definition row_le (a b : row) : Prop := row_leb a b = true.

(** A row that has a start. *)
Definition scheduled (r : row) : bool := negb (MissingStart r).

(** ['MissingStart'] as the extraction loop sets it. *)
Definition row_wf (r : row) : Prop :=
  MissingStart r = match Start r with None => true | Some _ => false end.

Definition fields_of (wp : pyval) : list (string * pyval) :=
  match wp with VDict d => d | _ => [] end.

(** The shape of a row that received both week numbers. *)
Definition week_row_ok (m : datetime) (r : week_row) : Prop :=
  exists s f,
    Start (base r) = Some s /\ Finish (base r) = Some f
    /\ StartWeek r = Some (week m s)
    /\ FinishWeek r
       = Some (if week m f =? week m s then week m s + 1 else week m f).

(** The parts of [item_ok]. *)
Definition subject_ok (d : list (string * pyval)) : bool :=
  match lookup "subject" d with
  | None | Some (VStr _) => true
  | Some _ => false
  end.

Definition link_ok (l : list (string * pyval)) (name : string) : bool :=
  match lookup name l with
  | None | Some (VDict _) => true
  | Some _ => false
  end.

Definition hashable (v : pyval) : bool :=
  match v with
  | VList _ | VDict _ => false
  | _ => true
  end.

Definition status_title_ok (l : list (string * pyval)) : bool :=
  match lookup "status" l with
  | Some (VDict s) =>
      match lookup "title" s with Some v => hashable v | None => true end
  | _ => true
  end.

Definition links_ok (d : list (string * pyval)) : bool :=
  match lookup "_links" d with
  | None => true
  | Some (VDict l) =>
      link_ok l "status" && link_ok l "assignee" && link_ok l "type"
      && status_title_ok l
  | Some _ => false
  end.

Definition percent_ok (d : list (string * pyval)) : bool :=
  match lookup "percentageDone" d with
  | None | Some VNone | Some (VBool _) | Some (VFloat _) => true
  | Some (VInt z) => Z.abs z <? FLOAT_INT_LIMIT
  | Some _ => false
  end.

Definition date_plain (o : option datetime) : bool :=
  match o with
  | None => true
  | Some d =>
      negb (aware d) && (DAY_US <=? wall d)
      && (wall d + DAY_US <? MAXORDINAL * DAY_US)
  end.

(** Items the extraction loop is guaranteed to get through: an object
    whose subject is a string or missing, whose nested link objects are
    objects or missing, whose status title can be hashed, whose
    ['percentageDone'] is a number, null or missing, and whose four date
    fields hold anything at all as long as a date that does parse is naive
    and at least one day inside the representable range. *)
Definition item_ok (fromisoformat : string -> option datetime) (wp : pyval) : bool :=
  match wp with
  | VDict d =>
      subject_ok d && links_ok d && percent_ok d
      && date_plain (source_start fromisoformat d)
      && date_plain (source_due fromisoformat d)
  | _ => false
  end.

(** A row whose dates are naive. *)
Definition naive_opt (o : option datetime) : bool :=
  match o with Some d => negb (aware d) | None => true end.

Definition row_naive (r : row) : bool := naive_opt (Start r) && naive_opt (Finish r).

(** The item has no usable date: both source dates are missing or
    malformed. *)
Definition undated (fromisoformat : string -> option datetime) (wp : pyval) : Prop :=
  source_start fromisoformat (fields_of wp) = None
  /\ source_due fromisoformat (fields_of wp) = None.

(** ** Payloads used in the worked examples *)
Module Ex.

Definition links (status : string) : pyval :=
  VDict [("status", VDict [("title", VStr status)])].

(** {id: 1, subject: "Task A", startDate: "2024-01-01",
     dueDate: "2024-01-10", status "Open"} *)
Definition task_a : pyval :=
  VDict [("id", VInt 1); ("subject", VStr "Task A");
         ("startDate", VStr "2024-01-01"); ("dueDate", VStr "2024-01-10");
         ("_links", links "Open")].

(** An item whose given finish precedes its given start. *)
Definition backwards : pyval :=
  VDict [("id", VInt 2); ("subject", VStr "Backwards");
         ("startDate", VStr "2024-01-20"); ("dueDate", VStr "2024-01-05");
         ("_links", links "Open")].


(** No start date of any kind, finish on 2023-12-25. *)
Definition due_only : pyval :=
  VDict [("id", VInt 4); ("subject", VStr "Due only");
         ("dueDate", VStr "2023-12-25")].

Definition undated : pyval :=
  VDict [("id", VInt 5); ("startDate", VStr "next week"); ("dueDate", VInt 7)].

Definition overbooked : pyval :=
  VDict [("id", VInt 6); ("percentageDone", VInt 150)].

Definition half_done : pyval :=
  VDict [("id", VInt 7); ("startDate", VStr "2024-01-03");
         ("percentageDone", VInt 50)].

(** 33 percent: 33/100 is no binary fraction. *)
Definition third_done : pyval :=
  VDict [("id", VInt 12); ("startDate", VStr "2024-01-03");
         ("percentageDone", VInt 33)].

(** A float ['percentageDone'] of -2^-1074, the negative float nearest
    to 0 (Python writes it -5e-324). *)
Definition tiny_negative : pyval :=
  VDict [("id", VInt 13); ("percentageDone", VFloat (-1 # 2 ^ 1074))].

(** A float ['percentageDone'] of 12.5. *)
Definition eighth_done : pyval :=
  VDict [("id", VInt 16); ("percentageDone", VFloat (25 # 2))].

(** An int ['percentageDone'] of 2^1024, too large for a float. *)
Definition huge_percent : pyval :=
  VDict [("id", VInt 14); ("startDate", VStr "2024-01-02");
         ("percentageDone", VInt (2 ^ 1024))].

(** A closed item without dates. *)
Definition closed_undated : pyval :=
  VDict [("id", VInt 15); ("_links", links "Closed")].

(** A text with two 'Z', the second one trailing. *)
Definition two_Z : string := "2024-01-01Z:00Z".

(** ['percentageDone'] arrives as text. *)
Definition text_percent : pyval :=
  VDict [("id", VInt 8); ("startDate", VStr "2024-01-02");
         ("percentageDone", VStr "50")].

(** The status object is null. *)
Definition null_status : pyval :=
  VDict [("id", VInt 9); ("startDate", VStr "2024-01-04");
         ("_links", VDict [("status", VNone)])].

(** A start with the 'Z' suffix, which parses to an aware datetime. *)
Definition zulu_start : pyval :=
  VDict [("id", VInt 10); ("startDate", VStr "2024-01-04T00:00:00Z")].

(** A start on the last representable day and no finish. *)
Definition last_day : pyval :=
  VDict [("id", VInt 11); ("startDate", VStr "9999-12-31")].

Definition jan (day : Z) : datetime :=
  mkdt ((Iso.ymd2ord 2024 1 day - 1) * DAY_US) None.

Fixpoint replicate (n : nat) (c : ascii) : string :=
  match n with
  | O => EmptyString
  | S n' => String c (replicate n' c)
  end.

(** The clock of the examples: 2024-01-15T00:00:00. *)
Definition clock : Z := wall (jan 15).

Definition a60 : string := replicate 60 "a".
Definition b60 : string := replicate 60 "b".

(** 121 characters: two words of 60 and the blank between them. *)
Definition two_words : string := a60 ++ " " ++ b60.

(** 250 characters without a blank. *)
Definition one_word : string := replicate 250 "x".

(** A frame row with the given id and start, finishing a day later. *)
Definition plain_row (n : Z) (start : option datetime) : row :=
  {| wp_id := VInt n;
     Task := (VInt n, VStr "Untitled");
     Start := start;
     Finish := match start with
               | Some s => Some (mkdt (wall s + DAY_US) (utcoffset s))
               | None => None
               end;
     Status := VStr "Unknown";
     Progress := 0;
     Assignee := VStr "Unassigned";
     Type_ := VStr "Task";
     Color := Unknown;
     Duration := match start with Some _ => 1 | None => 0 end;
     MissingStart := match start with Some _ => false | None => true end |}.

Definition row_A : row := plain_row 1 (Some (jan 3)).
Definition row_B : row := plain_row 2 (Some (jan 17)).
Definition row_C : row := plain_row 3 None.

End Ex.

(** ** The API client, [openproject_client.py]

    The HTTP session is outside the repository.  One parameter,
    [session_request url params], stands for
    [session.request('GET', url, params=params)] followed by
    [raise_for_status()] and [json()]: it yields the decoded body, or fails.
    The request headers, set once in [__init__], are part of that
    parameter. *)

From Stdlib Require Import DecimalString.

(** How a client call fails: with a [requests.exceptions.RequestException]
    from the HTTP layer, or with a Python exception. *)
Inductive failure : Type :=
| RequestException
| PyError (e : exn).

Inductive fetch (A : Type) : Type :=
| Got (a : A)
| Failed (e : failure).

Arguments Got {A} a.
Arguments Failed {A} e.

(** An exception of the client's own code, raised while fetching. *)
Definition lift {A : Type} (m : res A) : fetch A :=
  match m with
  | Ok a => Got a
  | Raise e => Failed (PyError e)
  end.

(** [str(n)] of an int. *)
Definition str_int (n : Z) : string := NilZero.string_of_int (Z.to_int n).

(** [s.rstrip('/')] *)
Fixpoint rstrip_slash (s : string) : string :=
  match s with
  | EmptyString => EmptyString
  | String c s' =>
      match rstrip_slash s' with
      | EmptyString => if Ascii.eqb c "/"%char then EmptyString else String c EmptyString
      | r => String c r
      end
  end.

Record OpenProjectClient : Type := mkclient {
  base_url : string;
  api_key : string
}.

(** [OpenProjectClient(base_url, api_key)] *)
Definition new_client (url key : string) : OpenProjectClient :=
  {| base_url := rstrip_slash url; api_key := key |}.

Definition query : Type := option (list (string * pyval)).

(** [response.get('_embedded', {}).get('elements', [])] *)
Definition elements_of (response : pyval) : res pyval :=
  embedded <- py_get response "_embedded" EMPTY ;;
  py_get embedded "elements" (VList []).

(** The items [list.extend(x)] appends: those of a list, the characters of
    a string, the keys of a dict; a number is not iterable. *)
Definition py_iter (x : pyval) : res (list pyval) :=
  match x with
  | VList l => Ok l
  | VStr s => Ok (map (fun c => VStr (String c EmptyString)) (list_ascii_of_string s))
  | VDict d => Ok (map (fun kv => VStr (fst kv)) d)
  | _ => Raise TypeError
  end.

(** [n >= x] for an int [n]: ordering an int against [None], a string, a
    list or a dict raises. *)
Definition int_ge (n : Z) (x : pyval) : res bool :=
  match x with
  | VInt z => Ok (z <=? n)
  | VBool b => Ok ((if b then 1 else 0) <=? n)
  | VFloat q => Ok (Qle_bool q (inject_Z n))
  | _ => Raise TypeError
  end.

(** One turn of the [while True] loop shared by [get_projects] and
    [get_work_packages], from the request to the decision to [break]:
    the list so far and whether the loop is left. *)
Definition page_step (request : Z -> fetch pyval) (limit : Z)
    (all : list pyval) (offset : Z) : fetch (list pyval * bool) :=
  match request offset with
  | Failed e => Failed e
  | Got response =>
      lift (elements <- elements_of response ;;
            if negb (truthy elements) then Ok (all, true) else
            items <- py_iter elements ;;
            let all := (all ++ items)%list in
            total <- py_get response "total" (VInt 0) ;;
            reached <- int_ge (llen all) total ;;
            Ok (all, reached || (limit <=? llen all)))
  end.

(** The loop, with a bound on the number of requests; [None] when the
    bound is used up before the loop is left. *)
Fixpoint fetch_pages (fuel : nat) (request : Z -> fetch pyval) (limit : Z)
    (all : list pyval) (offset : Z) : option (fetch (list pyval)) :=
  match fuel with
  | O => None
  | S fuel' =>
      match page_step request limit all offset with
      | Failed e => Some (Failed e)
      | Got (all, true) => Some (Got all)
      | Got (all, false) => fetch_pages fuel' request limit all (offset + 100)
      end
  end.

(** Requests after which the loop has always been left. *)
Definition request_bound (limit : Z) : nat := Z.to_nat (Z.max 1 limit).

Definition dq : string := String "034"%char EmptyString.

(** ['[{"project_id": {"operator": "=", "values": ["%s"]}}]' % str(project_id)] *)
Definition project_filter (project_id : Z) : string :=
  "[{" ++ dq ++ "project_id" ++ dq ++ ": {" ++ dq ++ "operator" ++ dq ++ ": "
  ++ dq ++ "=" ++ dq ++ ", " ++ dq ++ "values" ++ dq ++ ": [" ++ dq
  ++ str_int project_id ++ dq ++ "]}}]".

Definition projects_query (offset : Z) : query :=
  Some [("pageSize", VInt 100); ("offset", VInt offset)].

Definition work_packages_query (project_id offset : Z) : query :=
  Some [("pageSize", VInt 100); ("offset", VInt offset);
        ("filters", VStr (project_filter project_id))].

Section Client.

Variable session_request : string -> query -> fetch pyval.

Definition _make_request (self : OpenProjectClient) (endpoint : string)
    (params : query) : fetch pyval :=
  session_request (base_url self ++ "/api/v3" ++ endpoint) params.

Definition get_projects (self : OpenProjectClient) (limit : Z)
  : option (fetch (list pyval)) :=
  fetch_pages (request_bound limit)
    (fun offset => _make_request self "/projects" (projects_query offset))
    limit [] 1.

Definition get_project (self : OpenProjectClient) (project_id : Z) : fetch pyval :=
  _make_request self ("/projects/" ++ str_int project_id) None.

Definition get_work_packages (self : OpenProjectClient) (project_id limit : Z)
  : option (fetch (list pyval)) :=
  fetch_pages (request_bound limit)
    (fun offset =>
       _make_request self "/work_packages" (work_packages_query project_id offset))
    limit [] 1.

(** The [try] block catches [RequestException] only. *)
Definition get_work_package_relations (self : OpenProjectClient)
    (work_package_id : Z) : fetch pyval :=
  match _make_request self
          ("/work_packages/" ++ str_int work_package_id ++ "/relations") None with
  | Got response => lift (elements_of response)
  | Failed RequestException => Got (VList [])
  | Failed e => Failed e
  end.

End Client.

(** The items page [k] (from 0) contributes: those of the response to the
    request with offset [1 + 100 * k], nothing when there is no such
    list. *)
Definition page_items (request : Z -> fetch pyval) (k : nat) : list pyval :=
  match request (1 + 100 * Z.of_nat k) with
  | Got response =>
      match (elements <- elements_of response ;; py_iter elements) with
      | Ok items => items
      | Raise _ => []
      end
  | Failed _ => []
  end.

Definition first_pages (request : Z -> fetch pyval) (n : nat) : list pyval :=
  flat_map (page_items request) (seq 0 n).

(** ** The error text of the index page, [app.py] *)

(** [p in s] *)
Fixpoint contains (p s : string) : bool :=
  String.prefix p s
  || match s with
     | EmptyString => false
     | String _ s' => contains p s'
     end.

Definition AUTH_FAILED : string :=
  "Authentication failed. Please check your OPENPROJECT_API_KEY environment variable.".

Definition FORBIDDEN : string :=
  "Access forbidden. Your API key doesn't have sufficient permissions to view projects.".

(** Lines 38-45 of [index]: the text shown for [str(e)]. *)
Definition error_text (error_msg OPENPROJECT_URL : string) : string :=
  if contains "Authentication failed" error_msg || contains "401" error_msg
  then AUTH_FAILED
  else if contains "403" error_msg then FORBIDDEN
  else if contains "Connection" error_msg
  then "Cannot connect to OpenProject at " ++ OPENPROJECT_URL
       ++ ". Please check your OPENPROJECT_URL environment variable."
  else error_msg.

(** ** Figure layout and label wrapping *)

(** [list(range(1, max_week + 2))] *)
Definition week_ticks (c : chart) : list Z :=
  map (fun i => 1 + Z.of_nat i) (seq 0 (Z.to_nat (max_week c + 1))).

(** The first line [wrap_name] fills: words are taken while they fit; the
    result is the line and the words left over. *)
Fixpoint first_line (max_chars : Z) (words : list string) (current_line : string)
  : string * list string :=
  match words with
  | [] => (current_line, [])
  | word :: rest =>
      if len current_line + len word + 1 <=? max_chars then
        first_line max_chars rest
          ((if nonempty current_line then current_line ++ " " else current_line)
           ++ word)
      else (current_line, words)
  end.

(** [generate_gantt_chart(project_id)] from the route [/gantt/<project_id>]:
    the two client calls, then the chart; every exception ends in the
    error page. *)
Inductive page : Type :=
| Shown (o : outcome)
| FetchError (e : failure).

Section Route.

Variable session_request : string -> query -> fetch pyval.
Variable fromisoformat : string -> option datetime.

Definition gantt_chart (self : OpenProjectClient) (clock : Z) (project_id : Z)
  : option page :=
  match get_project session_request self project_id with
  | Failed e => Some (FetchError e)
  | Got project =>
      match py_get project "name" VNone with
      | Raise e => Some (FetchError (PyError e))
      | Ok _ =>
          match get_work_packages session_request self project_id 1000 with
          | None => None
          | Some (Failed e) => Some (FetchError e)
          | Some (Got work_packages) =>
              Some (Shown (generate_gantt_chart fromisoformat clock work_packages))
          end
      end
  end.

End Route.

(** ** A server for the worked examples *)
Module Demo.

Definition body (items : list pyval) (total : Z) : pyval :=
  VDict [("_embedded", VDict [("elements", VList items)]); ("total", VInt total)].

Definition offset_of (q : query) : Z :=
  match q with
  | Some params =>
      match lookup "offset" params with
      | Some (VInt z) => z
      | _ => 0
      end
  | None => 0
  end.

(** Project 7 with three work packages, handed out two to a page. *)
Definition server (url : string) (q : query) : fetch pyval :=
  if String.eqb url "https://op.example/api/v3/work_packages" then
    if offset_of q =? 1 then Got (body [Ex.task_a; Ex.due_only] 3)
    else if offset_of q =? 101 then Got (body [Ex.undated] 3)
    else Got (body [] 3)
  else if String.eqb url "https://op.example/api/v3/projects/7"
  then Got (VDict [("name", VStr "Demo")])
  else Failed RequestException.

Definition client : OpenProjectClient := new_client "https://op.example/" "secret".

(** The same server, deaf to every offset that is not 1, 101, 201, ... *)
Definition strided_server (url : string) (q : query) : fetch pyval :=
  if offset_of q mod 100 =? 1 then server url q else Failed RequestException.

(** Project 8: two work packages on one page, and no more. *)
Definition small_server (url : string) (q : query) : fetch pyval :=
  if String.eqb url "https://op.example/api/v3/work_packages"
  then Got (body [Ex.task_a; Ex.half_done] 2)
  else if String.eqb url "https://op.example/api/v3/projects/8"
  then Got (VDict [("name", VStr "Small")])
  else Failed RequestException.

(** What [requests] reports when the fifth page of projects fails. *)
Definition fifth_page_error : string :=
  "500 Server Error: Internal Server Error for url: "
  ++ "https://op.example/api/v3/projects?pageSize=100&offset=401".

End Demo.

(** * Properties *)

(** ** Date parsing and resolution *)

Section DateProperties.

Variable fromisoformat : string -> option datetime.

Lemma parse_date_ok (v : pyval) :
  _parse_date fromisoformat v = Ok (parse_field fromisoformat v).
Proof.
  unfold _parse_date, parse_field, nonempty.
  destruct v as [ | b | z | q | s | l | d ]; simpl; try reflexivity.
  - destruct b; reflexivity.
  - destruct (negb (z =? 0)); reflexivity.
  - destruct (negb (Qeq_bool q 0)); reflexivity.
  - destruct (negb (len s =? 0)); simpl; [ | reflexivity ].
    destruct (fromisoformat (replace_Z s)); reflexivity.
  - destruct (negb (Z.of_nat (Datatypes.length l) =? 0)); reflexivity.
  - destruct (negb (Z.of_nat (Datatypes.length d) =? 0)); reflexivity.
Qed.

Lemma replace_Z_trailing (s : string) :
  has_Z s = false -> replace_Z (s ++ "Z") = s ++ "+00:00".
Proof.
  induction s as [ | c s IH ]; simpl; intros H; [ reflexivity | ].
  apply orb_false_iff in H as [Hc Hs].
  rewrite Hc, (IH Hs). reflexivity.
Qed.

Lemma resolve_dates_dict (d : list (string * pyval)) :
  resolve_dates fromisoformat (VDict d) =
  match source_start fromisoformat d, source_due fromisoformat d with
  | Some s, None => f <- dt_add_days s 1 ;; Ok (Some s, Some f)
  | None, Some f => s <- dt_add_days f (-1) ;; Ok (Some s, Some f)
  | s, f => Ok (s, f)
  end.
Proof.
  unfold resolve_dates, source_start, source_due, field; simpl.
  rewrite !parse_date_ok; simpl.
  destruct (parse_field fromisoformat (py_or _ _));
    destruct (parse_field fromisoformat (py_or _ _)); reflexivity.
Qed.

(** C9.  For every value handed to [_parse_date] the call returns and
    never raises: a missing ([None]) or empty value gives [None], a value
    that is not a string gives [None], a string that [fromisoformat]
    rejects once every 'Z' in it, wherever it stands, is replaced by
    '+00:00' gives [None], and a string it accepts then gives the datetime
    read.  Only for a string whose one 'Z' is its last character is this
    the replacement of a trailing 'Z'. *)
Theorem parse_date_never_raises (v : pyval) :
  _parse_date fromisoformat v =
  Ok (match v with
      | VStr s => if nonempty s then fromisoformat (replace_Z s) else None
      | _ => None
      end)
  /\ forall s, has_Z s = false ->
       _parse_date fromisoformat (VStr (s ++ "Z")) = Ok (fromisoformat (s ++ "+00:00")).
Proof.
  split; [ exact (parse_date_ok v) | ].
  intros s Hs. rewrite parse_date_ok. unfold parse_field.
  rewrite (replace_Z_trailing s Hs).
  replace (nonempty (s ++ "Z")) with true; [ reflexivity | ].
  symmetry. destruct s as [ | c s ]; [ reflexivity | ].
  unfold nonempty, len. cbn [String.append String.length].
  apply negb_true_iff, Z.eqb_neq. lia.
Qed.


End DateProperties.

Lemma parse_date_never_raises_witness :
  _parse_date Iso.iso_basic (VStr "2024-01-04T00:00:00Z")
  = Ok (Some (mkdt 63839923200000000 (Some 0)))
  /\ _parse_date Iso.iso_basic (VStr "next week") = Ok None
  /\ _parse_date Iso.iso_basic (VInt 7) = Ok None.
Proof.
  split; [ | split ].
  - change "2024-01-04T00:00:00Z" with ("2024-01-04T00:00:00" ++ "Z").
    rewrite (proj2 (parse_date_never_raises Iso.iso_basic VNone)
               "2024-01-04T00:00:00" eq_refl).
    reflexivity.
  - rewrite (proj1 (parse_date_never_raises Iso.iso_basic (VStr "next week"))).
    reflexivity.
  - rewrite (proj1 (parse_date_never_raises Iso.iso_basic (VInt 7))).
    reflexivity.
Defined.

(** The text "2024-01-01Z:00Z" holds two 'Z'.  With the trailing one
    replaced it reads "2024-01-01Z:00+00:00", which is no timestamp, so
    the field would be null.  [str.replace] replaces both: the text
    becomes "2024-01-01+00:00:00+00:00", a date, the separator '+', the
    time 00:00:00 and the offset +00:00, and the field is midnight UTC. *)
Lemma inner_Z_replaced_counterexample :
  replace_trailing_Z Ex.two_Z = "2024-01-01Z:00+00:00"
  /\ spec_parse_date Iso.iso_basic (VStr Ex.two_Z) = None
  /\ replace_Z Ex.two_Z = "2024-01-01+00:00:00+00:00"
  /\ _parse_date Iso.iso_basic (VStr Ex.two_Z)
     = Ok (Some (mkdt (wall (Ex.jan 1)) (Some 0)))
  /\ _parse_date Iso.iso_basic (VStr Ex.two_Z)
     <> Ok (spec_parse_date Iso.iso_basic (VStr Ex.two_Z)).
Proof. repeat split; try (vm_compute; reflexivity). vm_compute. discriminate. Qed.


(** ** Status colour *)

Lemma in_closed_iff (s : string) :
  existsb (String.eqb s) closed_statuses = true <-> In s closed_statuses.
Proof.
  rewrite existsb_exists. split.
  - intros (x & Hx & E). apply String.eqb_eq in E. now subst.
  - intros H. exists s. split; [ exact H | apply String.eqb_refl ].
Qed.

Lemma status_color_not_closed (s : string) (start finish : option datetime) (now : datetime) :
  existsb (String.eqb s) closed_statuses = false ->
  comparable_opt start now = true ->
  comparable_opt finish now = true ->
  _get_status_color (VStr s) start finish (Some now)
  = Ok (spec_category start finish now).
Proof.
  intros Hc Hs Hf.
  unfold _get_status_color.
  change (in_closed (VStr s)) with (Ok (existsb (String.eqb s) closed_statuses)).
  rewrite Hc; cbn [bind].
  assert (Hsym : forall d, comparable d now = true -> comparable now d = true).
  { intros d. unfold comparable. destruct (aware now), (aware d); auto. }
  unfold spec_category, dt_gt, dt_lt, dt_le.
  destruct start as [st | ], finish as [fi | ]; cbn [comparable_opt] in Hs, Hf;
    rewrite ?Hs, ?Hf, ?(Hsym _ Hs), ?(Hsym _ Hf); cbn [bind];
    repeat match goal with
           | |- context [?x <? ?y] => destruct (x <? y); cbn [bind andb]
           | |- context [?x <=? ?y] => destruct (x <=? y); cbn [bind andb]
           end; reflexivity.
Qed.

(** C3.  A status that is exactly 'Closed', 'closed' or 'CLOSED' is
    coloured Done whatever the dates and the clock are; any other status
    string, with dates comparable to the clock, is coloured by the dates in
    this order: Future if start > now, else OnTrack if
    start <= now <= finish, else Overdue if finish < now, else Unknown. *)
Theorem status_color_precedence
    (s : string) (start finish : option datetime) (now : datetime) :
  (In s closed_statuses ->
   forall now' : option datetime,
     _get_status_color (VStr s) start finish now' = Ok Done)
  /\
  (~ In s closed_statuses ->
   comparable_opt start now = true ->
   comparable_opt finish now = true ->
   _get_status_color (VStr s) start finish (Some now)
   = Ok (spec_category start finish now)).
Proof.
  split.
  - intros H now'. apply in_closed_iff in H.
    unfold _get_status_color.
    change (in_closed (VStr s)) with (Ok (existsb (String.eqb s) closed_statuses)).
    rewrite H. reflexivity.
  - intros H Hs Hf. apply status_color_not_closed; trivial.
    destruct (existsb (String.eqb s) closed_statuses) eqn:E; [ | reflexivity ].
    apply in_closed_iff in E. contradiction.
Qed.

Lemma status_color_precedence_witness :
  _get_status_color (VStr "Closed") (Some (Ex.jan 1)) (Some (Ex.jan 5))
                    (Some (Ex.jan 9)) = Ok Done
  /\ _get_status_color (VStr "In progress") (Some (Ex.jan 1)) (Some (Ex.jan 5))
                       (Some (Ex.jan 9)) = Ok Overdue.
Proof.
  split.
  - apply (status_color_precedence "Closed" (Some (Ex.jan 1)) (Some (Ex.jan 5)) (Ex.jan 9)).
    simpl; auto.
  - apply (status_color_precedence "In progress" (Some (Ex.jan 1)) (Some (Ex.jan 5)) (Ex.jan 9)).
    + simpl. intros [H | [H | [H | []]]]; discriminate H.
    + reflexivity.
    + reflexivity.
Defined.

(** The status 'cLOSED' matches "closed" up to case and is not coloured
    Done: with finish < now it is Overdue. *)
Lemma status_color_case_counterexample :
  lower "cLOSED" = "closed"
  /\ _get_status_color (VStr "cLOSED") (Some (Ex.jan 1)) (Some (Ex.jan 5))
                       (Some (Ex.jan 9)) = Ok Overdue.
Proof. split; reflexivity. Qed.

(** ** Float arithmetic *)

Lemma pow2_pos (e : Z) : (0 < pow2 e)%Q.
Proof. apply Qpower_0_lt. reflexivity. Qed.

Lemma pow2_plus (a b : Z) : (pow2 (a + b) == pow2 a * pow2 b)%Q.
Proof. apply Qpower_plus. discriminate. Qed.

Lemma pow2_le (a b : Z) : a <= b -> (pow2 a <= pow2 b)%Q.
Proof. intros H. apply Qpower_le_compat_l; [ exact H | discriminate ]. Qed.

Lemma pow2_lt (a b : Z) : a < b -> (pow2 a < pow2 b)%Q.
Proof. intros H. apply Qpower_lt_compat_l; [ exact H | reflexivity ]. Qed.

Lemma pow2_lt_inv (a b : Z) : (pow2 a < pow2 b)%Q -> a < b.
Proof. intros H. apply (Qpower_lt_compat_l_inv 2); [ exact H | reflexivity ]. Qed.

Lemma pow2_Z (k : Z) : 0 <= k -> (pow2 k == inject_Z (2 ^ k))%Q.
Proof. intros H. unfold pow2. rewrite Zpower_Qpower by exact H. reflexivity. Qed.

Lemma inject_Z_succ_le (n m : Z) : n + 1 <= m -> (inject_Z n + 1 <= inject_Z m)%Q.
Proof.
  intros H. change 1%Q with (inject_Z 1). rewrite <- inject_Z_plus.
  rewrite <- Zle_Qle. exact H.
Qed.

(** *** Rounding to the nearest integer, ties to even *)

Lemma rne_spec (x : Q) : nearest_even x (rne x).
Proof.
  unfold rne, nearest_even.
  pose proof (Qfloor_le x) as H1. pose proof (Qlt_floor x) as H2.
  set (f := Qfloor x) in *.
  assert (H3 : (inject_Z (f + 1) == inject_Z f + 1)%Q)
    by (rewrite inject_Z_plus; reflexivity).
  destruct (x - inject_Z f ?= 1 # 2)%Q eqn:E.
  - apply Qeq_alt in E. destruct (Z.even f) eqn:Ev.
    + right. split; [ right; lra | exact Ev ].
    + right. split; [ left; lra | ].
      rewrite Z.add_1_r, Z.even_succ, <- Z.negb_even, Ev. reflexivity.
  - apply Qlt_alt in E. left. lra.
  - apply Qgt_alt in E. left. lra.
Qed.

Lemma nearest_even_mono (x y : Q) (n m : Z) :
  (x <= y)%Q -> nearest_even x n -> nearest_even y m -> n <= m.
Proof.
  intros Hxy Hn Hm. destruct (Z_le_gt_dec n m) as [ | Hgt ]; [ assumption | exfalso ].
  assert (H : (inject_Z m + 1 <= inject_Z n)%Q) by (apply inject_Z_succ_le; lia).
  destruct Hn as [[Hn1 Hn2] | [Hn Hen]], Hm as [[Hm1 Hm2] | [Hm Hem]];
    try lra; try (destruct Hm; lra); try (destruct Hn; lra).
  destruct Hn as [Hn | Hn], Hm as [Hm | Hm]; try lra.
  assert (E : (inject_Z n == inject_Z (m + 1))%Q)
    by (rewrite inject_Z_plus; change (inject_Z 1) with 1%Q; lra).
  apply -> inject_Z_injective in E. subst n.
  rewrite Z.add_1_r, Z.even_succ, <- Z.negb_even, Hem in Hen. discriminate.
Qed.

Lemma nearest_even_unique (x : Q) (n m : Z) :
  nearest_even x n -> nearest_even x m -> n = m.
Proof.
  intros Hn Hm.
  pose proof (nearest_even_mono x x n m (Qle_refl x) Hn Hm).
  pose proof (nearest_even_mono x x m n (Qle_refl x) Hm Hn). lia.
Qed.

Lemma rne_mono (x y : Q) : (x <= y)%Q -> rne x <= rne y.
Proof. intros H. exact (nearest_even_mono x y _ _ H (rne_spec x) (rne_spec y)). Qed.

Lemma rne_eq (x : Q) (n : Z) : (x == inject_Z n)%Q -> rne x = n.
Proof.
  intros H. apply (nearest_even_unique x); [ apply rne_spec | ].
  left. lra.
Qed.

Lemma rne_comp (x y : Q) : (x == y)%Q -> rne x = rne y.
Proof.
  intros H.
  assert (H1 : (x <= y)%Q) by lra. assert (H2 : (y <= x)%Q) by lra.
  apply rne_mono in H1. apply rne_mono in H2. lia.
Qed.

Lemma rne_opp (x : Q) : rne (- x) = - rne x.
Proof.
  apply (nearest_even_unique (- x)); [ apply rne_spec | ].
  assert (E : (inject_Z (- rne x) == - inject_Z (rne x))%Q)
    by (rewrite inject_Z_opp; reflexivity).
  destruct (rne_spec x) as [[H1 H2] | [H He]].
  - left. lra.
  - right. split; [ destruct H; [ right | left ]; lra | ].
    rewrite Z.even_opp. exact He.
Qed.

Lemma rne_error (x : Q) : (Qabs (inject_Z (rne x) - x) <= 1 # 2)%Q.
Proof.
  apply Qabs_Qle_condition.
  destruct (rne_spec x) as [[H1 H2] | [[H | H] _]]; lra.
Qed.

(** *** The binary exponent *)

Lemma ilog2_spec (x : Q) :
  ~ (x == 0)%Q ->
  (pow2 (ilog2 x) <= Qabs x /\ Qabs x < pow2 (ilog2 x + 1))%Q.
Proof.
  intros Hx. unfold ilog2.
  destruct x as [n d]. cbn [Qnum Qden].
  assert (Hn : 0 < Z.abs n).
  { destruct n; [ exfalso; apply Hx; reflexivity | reflexivity | reflexivity ]. }
  set (a := Z.abs n) in *.
  change (Qabs (n # d)) with (a # d)%Q.
  destruct (Z.log2_spec a Hn) as [Ha1 Ha2].
  destruct (Z.log2_spec (Zpos d) eq_refl) as [Hd1 Hd2].
  pose proof (Z.log2_nonneg a) as Hla. pose proof (Z.log2_nonneg (Zpos d)) as Hld.
  set (la := Z.log2 a) in *. set (ld := Z.log2 (Zpos d)) in *.
  assert (Ead : ((a # d) * inject_Z (Zpos d) == inject_Z a)%Q).
  { unfold Qeq, Qmult, inject_Z. cbn [Qnum Qden]. rewrite Pos.mul_1_r. lia. }
  assert (Hd0 : (0 < inject_Z (Zpos d))%Q) by reflexivity.
  assert (Hq0 : (0 < (a # d))%Q) by (unfold Qlt; cbn; lia).
  (* a # d < pow2 (la - ld + 1) *)
  assert (Hup : ((a # d) < pow2 (la - ld + 1))%Q).
  { apply (Qmult_lt_r _ _ (pow2 ld) (pow2_pos _)).
    rewrite <- pow2_plus. replace (la - ld + 1 + ld) with (Z.succ la) by lia.
    rewrite (pow2_Z (Z.succ la)) by lia.
    apply Qle_lt_trans with (inject_Z a).
    - rewrite <- Ead. apply Qmult_le_l; [ exact Hq0 | ].
      rewrite (pow2_Z ld) by lia. rewrite <- Zle_Qle. exact Hd1.
    - rewrite <- Zlt_Qlt. exact Ha2. }
  (* pow2 (la - ld - 1) <= a # d *)
  assert (Hlow : (pow2 (la - ld - 1) <= (a # d))%Q).
  { apply (Qmult_le_r _ _ (pow2 (Z.succ ld)) (pow2_pos _)).
    rewrite <- pow2_plus. replace (la - ld - 1 + Z.succ ld) with la by lia.
    rewrite (pow2_Z la) by lia.
    apply Qle_trans with (inject_Z a).
    - rewrite <- Zle_Qle. exact Ha1.
    - rewrite <- Ead. apply Qmult_le_l; [ exact Hq0 | ].
      rewrite (pow2_Z (Z.succ ld)) by lia. rewrite <- Zle_Qle. lia. }
  destruct (Qle_bool (pow2 (la - ld)) (a # d)) eqn:E.
  - apply Qle_bool_iff in E. split; assumption.
  - split; [ exact Hlow | ].
    replace (la - ld - 1 + 1) with (la - ld) by lia.
    apply Qnot_le_lt. intros H. apply Qle_bool_iff in H. congruence.
Qed.

Lemma ilog2_unique (x : Q) (l : Z) :
  (pow2 l <= Qabs x)%Q -> (Qabs x < pow2 (l + 1))%Q -> ilog2 x = l.
Proof.
  intros H1 H2.
  assert (Hx : ~ (x == 0)%Q).
  { intros E. rewrite E in H1. pose proof (pow2_pos l). change (Qabs 0) with 0%Q in H1. lra. }
  destruct (ilog2_spec x Hx) as [H3 H4].
  assert (l < ilog2 x + 1) by (apply pow2_lt_inv; lra).
  assert (ilog2 x < l + 1) by (apply pow2_lt_inv; lra).
  lia.
Qed.

Lemma ilog2_comp (x y : Q) : ~ (x == 0)%Q -> (x == y)%Q -> ilog2 x = ilog2 y.
Proof.
  intros Hx E. destruct (ilog2_spec x Hx) as [H1 H2].
  symmetry. apply ilog2_unique; rewrite <- E; assumption.
Qed.

Lemma ilog2_mono (x y : Q) :
  ~ (x == 0)%Q -> (Qabs x <= Qabs y)%Q -> ilog2 x <= ilog2 y.
Proof.
  intros Hx H.
  assert (Hy : ~ (y == 0)%Q).
  { intros E. rewrite E in H. change (Qabs 0) with 0%Q in H.
    apply Qabs_Qle_condition in H. apply Hx. lra. }
  destruct (ilog2_spec x Hx) as [H1 _]. destruct (ilog2_spec y Hy) as [_ H2].
  assert (ilog2 x < ilog2 y + 1) by (apply pow2_lt_inv; lra). lia.
Qed.

(** *** Rounding to binary64 *)

Lemma Qeq_bool_false (x : Q) : ~ (x == 0)%Q -> Qeq_bool x 0 = false.
Proof.
  intros H. destruct (Qeq_bool x 0) eqn:E; [ | reflexivity ].
  apply Qeq_bool_eq in E. contradiction.
Qed.

Lemma round_double_eq (x : Q) :
  ~ (x == 0)%Q ->
  (round_double x == inject_Z (rne (x / pow2 (quantum x))) * pow2 (quantum x))%Q.
Proof.
  intros H. unfold round_double. rewrite (Qeq_bool_false x H). apply Qred_correct.
Qed.

Lemma round_double_zero (x : Q) : (x == 0)%Q -> round_double x = 0%Q.
Proof. intros H. unfold round_double. now rewrite (Qeq_eq_bool _ _ H). Qed.

Lemma round_double_comp (x y : Q) : (x == y)%Q -> round_double x = round_double y.
Proof.
  intros E. destruct (Qeq_dec x 0) as [Hx | Hx].
  - rewrite (round_double_zero x Hx), (round_double_zero y); [ reflexivity | lra ].
  - assert (Hy : ~ (y == 0)%Q) by (intros H; apply Hx; lra).
    unfold round_double. rewrite (Qeq_bool_false x Hx), (Qeq_bool_false y Hy).
    assert (Eq : quantum x = quantum y)
      by (unfold quantum; now rewrite (ilog2_comp x y Hx E)).
    apply Qred_complete. rewrite Eq.
    rewrite (rne_comp (x / pow2 (quantum y)) (y / pow2 (quantum y)));
      [ reflexivity | now rewrite E ].
Qed.

Lemma quantum_opp (x : Q) : quantum (- x) = quantum x.
Proof.
  unfold quantum, ilog2. destruct x as [n d]. cbn [Qopp Qabs Qnum Qden].
  rewrite Z.abs_opp. reflexivity.
Qed.

Lemma round_double_opp (x : Q) : (round_double (- x) == - round_double x)%Q.
Proof.
  destruct (Qeq_dec x 0) as [Hx | Hx].
  - rewrite (round_double_zero x Hx), (round_double_zero (- x)); [ reflexivity | lra ].
  - assert (Hx' : ~ (- x == 0)%Q) by (intros H; apply Hx; lra).
    rewrite (round_double_eq _ Hx), (round_double_eq _ Hx'), quantum_opp.
    rewrite (rne_comp (- x / pow2 (quantum x)) (- (x / pow2 (quantum x))))
      by (unfold Qdiv; ring).
    rewrite rne_opp, inject_Z_opp. ring.
Qed.

Lemma scaled_le (x : Q) (e k : Z) :
  (x <= pow2 (e + k))%Q -> 0 <= k -> (inject_Z (rne (x / pow2 e)) * pow2 e <= pow2 (e + k))%Q.
Proof.
  intros H Hk. pose proof (pow2_pos e) as Hp.
  assert (H1 : (x / pow2 e <= inject_Z (2 ^ k))%Q).
  { apply Qle_shift_div_r; [ exact Hp | ].
    rewrite <- (pow2_Z k) by exact Hk. rewrite <- pow2_plus.
    now replace (k + e) with (e + k) by lia. }
  apply rne_mono in H1. rewrite (rne_eq (inject_Z (2 ^ k)) (2 ^ k)) in H1 by reflexivity.
  rewrite pow2_plus, (pow2_Z k) by exact Hk. rewrite (Qmult_comm (pow2 e)).
  apply Qmult_le_compat_r; [ | lra ]. rewrite <- Zle_Qle. exact H1.
Qed.

Lemma scaled_ge (x : Q) (e k : Z) :
  (pow2 (e + k) <= x)%Q -> 0 <= k -> (pow2 (e + k) <= inject_Z (rne (x / pow2 e)) * pow2 e)%Q.
Proof.
  intros H Hk. pose proof (pow2_pos e) as Hp.
  assert (H1 : (inject_Z (2 ^ k) <= x / pow2 e)%Q).
  { apply Qle_shift_div_l; [ exact Hp | ].
    rewrite <- (pow2_Z k) by exact Hk. rewrite <- pow2_plus.
    now replace (k + e) with (e + k) by lia. }
  apply rne_mono in H1. rewrite (rne_eq (inject_Z (2 ^ k)) (2 ^ k)) in H1 by reflexivity.
  rewrite pow2_plus, (pow2_Z k) by exact Hk. rewrite (Qmult_comm (pow2 e)).
  apply Qmult_le_compat_r; [ | lra ]. rewrite <- Zle_Qle. exact H1.
Qed.

Lemma round_double_nonneg (x : Q) : (0 <= x)%Q -> (0 <= round_double x)%Q.
Proof.
  intros H. destruct (Qeq_dec x 0) as [Hx | Hx].
  - rewrite (round_double_zero x Hx). lra.
  - rewrite (round_double_eq x Hx). pose proof (pow2_pos (quantum x)) as Hp.
    apply Qmult_le_0_compat; [ | lra ].
    change 0%Q with (inject_Z 0). rewrite <- Zle_Qle.
    rewrite <- (rne_eq 0 0) by reflexivity. apply rne_mono.
    apply Qle_shift_div_l; [ exact Hp | lra ].
Qed.

Lemma round_double_pos_mono (x y : Q) :
  (0 < x)%Q -> (x <= y)%Q -> (round_double x <= round_double y)%Q.
Proof.
  intros H0 Hxy.
  assert (Hx : ~ (x == 0)%Q) by lra. assert (Hy : ~ (y == 0)%Q) by lra.
  rewrite (round_double_eq x Hx), (round_double_eq y Hy).
  destruct (ilog2_spec x Hx) as [Hx1 Hx2]. destruct (ilog2_spec y Hy) as [Hy1 Hy2].
  rewrite (Qabs_pos x) in Hx1, Hx2 by lra. rewrite (Qabs_pos y) in Hy1, Hy2 by lra.
  assert (Hl : ilog2 x <= ilog2 y).
  { apply ilog2_mono; [ exact Hx | ]. rewrite (Qabs_pos x), (Qabs_pos y) by lra. exact Hxy. }
  unfold quantum.
  set (ex := Z.max (ilog2 x - 52) (-1074)). set (ey := Z.max (ilog2 y - 52) (-1074)).
  destruct (Z.eq_dec ex ey) as [E | NE].
  - rewrite E. pose proof (pow2_pos ey) as Hp.
    apply Qmult_le_compat_r; [ | lra ]. rewrite <- Zle_Qle. apply rne_mono.
    unfold Qdiv. apply Qmult_le_compat_r; [ exact Hxy | ].
    apply Qlt_le_weak, Qinv_lt_0_compat, Hp.
  - assert (Hlt : ex < ey) by lia.
    apply Qle_trans with (pow2 (ex + 53)).
    + apply scaled_le; [ | lia ].
      apply Qle_trans with (pow2 (ilog2 x + 1)); [ lra | apply pow2_le; lia ].
    + apply Qle_trans with (pow2 (ey + 52)); [ apply pow2_le; lia | ].
      apply scaled_ge; [ | lia ].
      replace (ey + 52) with (ilog2 y) by lia. exact Hy1.
Qed.

Lemma round_double_nonpos (x : Q) : (x <= 0)%Q -> (round_double x <= 0)%Q.
Proof.
  intros H. assert (H' : (0 <= - x)%Q) by lra.
  apply round_double_nonneg in H'. rewrite round_double_opp in H'. lra.
Qed.

Lemma round_double_mono (x y : Q) :
  (x <= y)%Q -> (round_double x <= round_double y)%Q.
Proof.
  intros H.
  destruct (Qlt_le_dec 0 x) as [Hx | Hx]; [ now apply round_double_pos_mono | ].
  destruct (Qlt_le_dec y 0) as [Hy | Hy].
  - assert (H1 : (round_double (- y) <= round_double (- x))%Q)
      by (apply round_double_pos_mono; lra).
    rewrite !round_double_opp in H1. lra.
  - pose proof (round_double_nonpos x Hx). pose proof (round_double_nonneg y Hy). lra.
Qed.

Lemma Qred_inject_Z (z : Z) : Qred (inject_Z z) = inject_Z z.
Proof.
  unfold Qred, inject_Z.
  pose proof (Z.ggcd_gcd z 1) as Hg. pose proof (Z.ggcd_correct_divisors z 1) as Hd.
  destruct (Z.ggcd z 1) as [g [a b]]. cbn [fst snd] in *.
  rewrite Z.gcd_1_r in Hg. subst g. destruct Hd as [Ha Hb].
  assert (Ea : a = z) by lia. assert (Eb : b = 1) by lia.
  rewrite Ea, Eb. reflexivity.
Qed.

(** Integers of at most 53 bits are doubles. *)
Lemma round_double_int (z : Z) :
  Z.abs z < 2 ^ 53 -> round_double (inject_Z z) = inject_Z z.
Proof.
  intros H. destruct (Z.eq_dec z 0) as [-> | Hz]; [ reflexivity | ].
  assert (Hx : ~ (inject_Z z == 0)%Q).
  { intros E. change 0%Q with (inject_Z 0) in E. apply -> inject_Z_injective in E. contradiction. }
  unfold round_double. rewrite (Qeq_bool_false _ Hx).
  transitivity (Qred (inject_Z z)); [ | apply Qred_inject_Z ]. apply Qred_complete.
  destruct (ilog2_spec _ Hx) as [H1 _].
  assert (Ha : (Qabs (inject_Z z) == inject_Z (Z.abs z))%Q) by reflexivity.
  assert (Hl : ilog2 (inject_Z z) < 53).
  { apply pow2_lt_inv. apply Qle_lt_trans with (Qabs (inject_Z z)); [ exact H1 | ].
    rewrite Ha, (pow2_Z 53) by lia. rewrite <- Zlt_Qlt. exact H. }
  set (e := quantum (inject_Z z)).
  assert (He : e <= 0) by (unfold e, quantum; lia).
  assert (Ep : (pow2 e * inject_Z (2 ^ (- e)) == 1)%Q).
  { rewrite <- (pow2_Z (- e)) by lia. rewrite <- pow2_plus.
    replace (e + - e) with 0 by lia. reflexivity. }
  pose proof (pow2_pos e) as Hp.
  rewrite (rne_eq _ (z * 2 ^ (- e))).
  - rewrite inject_Z_mult. rewrite <- Qmult_assoc, (Qmult_comm (inject_Z (2 ^ (- e)))), Ep.
    ring.
  - rewrite inject_Z_mult. unfold Qdiv. rewrite <- (Qmult_1_r (/ pow2 e)), <- Ep.
    field. lra.
Qed.

(** The error of rounding: half a quantum, hence a relative error of at
    most 2^-53 in the normal range. *)
Lemma round_double_error (x : Q) :
  (Qabs (round_double x - x) <= pow2 (quantum x - 1))%Q.
Proof.
  destruct (Qeq_dec x 0) as [Hx | Hx].
  - rewrite (round_double_zero x Hx). pose proof (pow2_pos (quantum x - 1)).
    apply Qabs_Qle_condition. lra.
  - rewrite (round_double_eq x Hx). set (e := quantum x). pose proof (pow2_pos e) as Hp.
    assert (E : (inject_Z (rne (x / pow2 e)) * pow2 e - x
                 == (inject_Z (rne (x / pow2 e)) - x / pow2 e) * pow2 e)%Q)
      by (field; lra).
    rewrite E, Qabs_Qmult, (Qabs_pos (pow2 e)) by lra.
    assert (H2 : (pow2 e == pow2 (e - 1) * 2)%Q).
    { replace e with (e - 1 + 1) at 1 by lia. rewrite pow2_plus. reflexivity. }
    apply Qle_trans with ((1 # 2) * pow2 e)%Q; [ | lra ].
    apply Qmult_le_compat_r; [ apply rne_error | lra ].
Qed.

Lemma round_double_relative (x : Q) :
  (pow2 (-1022) <= Qabs x)%Q ->
  (Qabs (round_double x - x) <= Qabs x * pow2 (-53))%Q.
Proof.
  intros H. pose proof (pow2_pos (-1022)) as Hp.
  assert (Hx : ~ (x == 0)%Q).
  { intros E. rewrite E in H. change (Qabs 0) with 0%Q in H. lra. }
  destruct (ilog2_spec x Hx) as [H1 H2].
  assert (Hl : -1022 < ilog2 x + 1) by (apply pow2_lt_inv; lra).
  apply Qle_trans with (pow2 (quantum x - 1)); [ apply round_double_error | ].
  replace (quantum x - 1) with (ilog2 x + -53) by (unfold quantum; lia).
  rewrite pow2_plus. apply Qmult_le_compat_r; [ exact H1 | ].
  apply Qlt_le_weak, pow2_pos.
Qed.

(** *** Division by 100 *)

Lemma round_double_1 : round_double 1 = 1%Q.
Proof. vm_compute. reflexivity. Qed.

Lemma div_100_unit (a : Q) :
  (0 <= a)%Q -> (a <= 100)%Q ->
  (0 <= round_double (a / 100) /\ round_double (a / 100) <= 1)%Q.
Proof.
  intros H0 H1. split.
  - apply round_double_nonneg. apply Qle_shift_div_l; lra.
  - rewrite <- round_double_1. apply round_double_mono. apply Qle_shift_div_r; lra.
Qed.

Lemma div_100_above (a : Q) : (100 < a)%Q -> (1 <= round_double (a / 100))%Q.
Proof.
  intros H. rewrite <- round_double_1 at 1. apply round_double_mono.
  apply Qle_shift_div_l; lra.
Qed.

Lemma div_100_below (a : Q) : (a < 0)%Q -> (round_double (a / 100) <= 0)%Q.
Proof.
  intros H. apply round_double_nonpos. apply Qle_shift_div_r; lra.
Qed.

(** An int that [float_of] converts, and the quotient by 100 of a finite
    float, stay below 2^1024: [round_double] is never asked for an
    infinity.  The bound of [float_of] is sharp. *)
Lemma floats_stay_finite :
  (forall z, Z.abs z < FLOAT_INT_LIMIT ->
     (Qabs (round_double (inject_Z z)) <= inject_Z (2 ^ 1024 - 2 ^ 971))%Q)
  /\ (forall a, (Qabs a <= inject_Z (2 ^ 1024 - 2 ^ 971))%Q ->
        (Qabs (round_double (a / 100)) <= inject_Z (2 ^ 1024 - 2 ^ 971))%Q)
  /\ round_double (inject_Z FLOAT_INT_LIMIT) = inject_Z (2 ^ 1024).
Proof.
  set (M := 2 ^ 1024 - 2 ^ 971).
  assert (EM : round_double (inject_Z (FLOAT_INT_LIMIT - 1)) = inject_Z M)
    by (vm_compute; reflexivity).
  assert (EM' : (round_double (- inject_Z (FLOAT_INT_LIMIT - 1)) == - inject_Z M)%Q)
    by (rewrite round_double_opp, EM; reflexivity).
  assert (E100 : (round_double (inject_Z M / 100) <= inject_Z M)%Q)
    by (vm_compute; discriminate).
  assert (E100' : (- inject_Z M <= round_double (- inject_Z M / 100))%Q)
    by (vm_compute; discriminate).
  split; [ | split; [ | vm_compute; reflexivity ] ].
  - intros z Hz. apply Qabs_Qle_condition. split.
    + rewrite <- EM'. apply round_double_mono.
      rewrite <- inject_Z_opp, <- Zle_Qle. lia.
    + rewrite <- EM. apply round_double_mono. rewrite <- Zle_Qle. lia.
  - intros a Ha. apply Qabs_Qle_condition in Ha as [H1 H2].
    apply Qabs_Qle_condition. split.
    + apply Qle_trans with (round_double (- inject_Z M / 100)); [ exact E100' | ].
      apply round_double_mono. unfold Qdiv.
      apply Qmult_le_compat_r; [ exact H1 | discriminate ].
    + apply Qle_trans with (round_double (inject_Z M / 100)); [ | exact E100 ].
      apply round_double_mono. unfold Qdiv.
      apply Qmult_le_compat_r; [ exact H2 | discriminate ].
Qed.

(** An int above 100 gives a quotient above 1, an int below 0 one below 0. *)
Lemma div_100_int_above (z : Z) :
  100 < z -> (1 < round_double (round_double (inject_Z z) / 100))%Q.
Proof.
  intros H.
  assert (H1 : (inject_Z 101 <= round_double (inject_Z z))%Q).
  { rewrite <- (round_double_int 101) by reflexivity. apply round_double_mono.
    rewrite <- Zle_Qle. lia. }
  apply Qlt_le_trans with (round_double (inject_Z 101 / 100)).
  - vm_compute. reflexivity.
  - apply round_double_mono. unfold Qdiv. apply Qmult_le_compat_r; [ exact H1 | ].
    discriminate.
Qed.

Lemma div_100_int_below (z : Z) :
  z < 0 -> (round_double (round_double (inject_Z z) / 100) < 0)%Q.
Proof.
  intros H.
  assert (H1 : (round_double (inject_Z z) <= inject_Z (-1))%Q).
  { rewrite <- (round_double_int (-1)) by reflexivity. apply round_double_mono.
    rewrite <- Zle_Qle. lia. }
  apply Qle_lt_trans with (round_double (inject_Z (-1) / 100)).
  - apply round_double_mono. unfold Qdiv. apply Qmult_le_compat_r; [ exact H1 | ].
    discriminate.
  - vm_compute. reflexivity.
Qed.

(** The float that follows 100 is 100 + 2^-46. *)
Lemma double_above_100 (q : Q) :
  round_double q = q -> (100 < q)%Q -> (100 + pow2 (-46) <= q)%Q.
Proof.
  intros Hq H.
  assert (Hx : ~ (q == 0)%Q) by lra.
  pose proof (round_double_eq q Hx) as E. rewrite Hq in E.
  assert (Hl : 6 <= ilog2 q).
  { rewrite <- (ilog2_unique 64 6).
    - apply ilog2_mono; [ discriminate | ].
      rewrite (Qabs_pos q) by lra. change (Qabs 64) with 64%Q. lra.
    - vm_compute. discriminate.
    - vm_compute. reflexivity. }
  set (e := quantum q) in *. set (m := rne (q / pow2 e)) in *.
  assert (He : 0 <= e + 46) by (unfold e, quantum; lia).
  assert (Ep : (pow2 e == inject_Z (2 ^ (e + 46)) * pow2 (-46))%Q).
  { rewrite <- (pow2_Z (e + 46)) by exact He. rewrite <- pow2_plus.
    now replace (e + 46 + -46) with e by lia. }
  pose proof (pow2_pos (-46)) as Hp.
  assert (E' : (q == inject_Z (m * 2 ^ (e + 46)) * pow2 (-46))%Q).
  { rewrite inject_Z_mult, E at 1. rewrite Ep. ring. }
  assert (E100 : (100 == inject_Z (100 * 2 ^ 46) * pow2 (-46))%Q)
    by (vm_compute; reflexivity).
  assert (Hlt : 100 * 2 ^ 46 < m * 2 ^ (e + 46)).
  { rewrite Zlt_Qlt. apply (Qmult_lt_r _ _ (pow2 (-46)) Hp).
    rewrite <- E', <- E100. exact H. }
  assert (Hle : (inject_Z (100 * 2 ^ 46 + 1) <= inject_Z (m * 2 ^ (e + 46)))%Q)
    by (rewrite <- Zle_Qle; lia).
  rewrite E'.
  apply Qle_trans with (inject_Z (100 * 2 ^ 46 + 1) * pow2 (-46))%Q.
  - rewrite inject_Z_plus. change (inject_Z 1) with 1%Q. rewrite E100 at 1. lra.
  - apply Qmult_le_compat_r; [ exact Hle | lra ].
Qed.

Lemma div_100_double_above (q : Q) :
  round_double q = q -> (100 < q)%Q -> (1 < round_double (q / 100))%Q.
Proof.
  intros Hq H. pose proof (double_above_100 q Hq H) as H1.
  apply Qlt_le_trans with (round_double ((100 + pow2 (-46)) / 100)).
  - vm_compute. reflexivity.
  - apply round_double_mono. unfold Qdiv. apply Qmult_le_compat_r; [ exact H1 | ].
    discriminate.
Qed.

(** ** Rows produced by the extraction loop *)

Lemma bind_ok {A B : Type} (m : res A) (k : A -> res B) (b : B) :
  bind m k = Ok b -> exists a, m = Ok a /\ k a = Ok b.
Proof. destruct m as [a | e]; simpl; [ eauto | discriminate ]. Qed.

Ltac bind_inv H :=
  let a := fresh "a" in
  let E := fresh "E" in
  apply bind_ok in H; destruct H as (a & E & H).

Lemma mapM_ok {A B : Type} (f : A -> res B) (l : list A) (l' : list B) :
  mapM f l = Ok l' -> Forall2 (fun a b => f a = Ok b) l l'.
Proof.
  revert l'. induction l as [ | a l IH ]; intros l' H; simpl in H.
  - injection H as <-. constructor.
  - apply bind_ok in H as (b & Hb & H). apply bind_ok in H as (bs & Hbs & H).
    injection H as <-. constructor; auto.
Qed.

Section RowProperties.

Variable fromisoformat : string -> option datetime.

Lemma extract_one_inv (now : datetime) (wp : pyval) (r : row) :
  extract_one fromisoformat now wp = Ok r ->
  exists d,
    wp = VDict d
    /\ resolve_dates fromisoformat wp = Ok (Start r, Finish r)
    /\ _get_status_color (Status r) (Start r) (Finish r) (Some now) = Ok (Color r)
    /\ duration_of (Start r) (Finish r) = Ok (Duration r)
    /\ MissingStart r = match Start r with None => true | Some _ => false end
    /\ (if is_none (field d "percentageDone") then Ok 0%Q
        else div_100 (match lookup "percentageDone" d with
                      | Some v => v
                      | None => VInt 0
                      end)) = Ok (Progress r).
Proof.
  intros H. unfold extract_one in H.
  destruct wp as [ | | | | | | d ]; try discriminate H.
  exists d. split; [ reflexivity | ].
  cbn [py_get bind] in H.
  bind_inv H. bind_inv H. destruct a0 as [start_date due_date].
  bind_inv H. bind_inv H. bind_inv H. bind_inv H. bind_inv H. bind_inv H.
  injection H as <-. cbn [Start Finish Status Color Duration MissingStart Progress].
  repeat split; assumption.
Qed.

Lemma days_sign (td : Z) :
  (0 <= td -> 0 <= days td) /\ (td < 0 -> days td < 0).
Proof.
  unfold days, DAY_US. split; intros H.
  - apply Z.div_pos; lia.
  - apply Z.div_lt_upper_bound; lia.
Qed.

(** C4.  The duration of a normalized task is the day count of
    finish - start, rounded down, when both dates are known, and 0 when
    they are not.  It is not clamped: it is at least 0 (and then equal to
    max(0, finish - start)) when finish is not before start, and negative
    when the source provides finish < start. *)
Theorem duration_is_day_difference (now : datetime) (wp : pyval) (r : row) :
  extract_one fromisoformat now wp = Ok r ->
  Duration r = match Start r, Finish r with
               | Some s, Some f => days (instant f - instant s)
               | _, _ => 0
               end
  /\ (forall s f, Start r = Some s -> Finish r = Some f ->
        instant s <= instant f ->
        0 <= Duration r
        /\ Duration r = Z.max 0 (days (instant f - instant s)))
  /\ (forall s f, Start r = Some s -> Finish r = Some f ->
        instant f < instant s -> Duration r < 0).
Proof.
  intros H. apply extract_one_inv in H as (d & _ & _ & _ & Hd & _).
  assert (E : Duration r = match Start r, Finish r with
                           | Some s, Some f => days (instant f - instant s)
                           | _, _ => 0
                           end).
  { unfold duration_of, dt_sub in Hd.
    destruct (Start r) as [s | ], (Finish r) as [f | ];
      try (injection Hd as <-; reflexivity).
    destruct (comparable f s); [ | discriminate Hd ].
    injection Hd as <-. reflexivity. }
  split; [ exact E | ]. split; intros s f Hs Hf Hle; rewrite Hs, Hf in E; rewrite E.
  - pose proof (proj1 (days_sign (instant f - instant s))). lia.
  - apply days_sign. lia.
Qed.

Lemma progress_cases (now : datetime) (d : list (string * pyval)) (r : row) :
  extract_one fromisoformat now (VDict d) = Ok r ->
  (is_none (field d "percentageDone") = true /\ Progress r = 0%Q)
  \/ (exists a, float_of (field d "percentageDone") = Ok a
                /\ Progress r = round_double (a / 100)).
Proof.
  intros H. apply extract_one_inv in H as (d' & Hd & _ & _ & _ & _ & Hp).
  injection Hd as <-. unfold field in *.
  destruct (lookup "percentageDone" d) as [v | ]; cbn [is_none] in *.
  2:{ left. split; [ reflexivity | ]. now injection Hp as <-. }
  destruct (is_none v) eqn:Hn.
  - left. split; [ reflexivity | ]. now injection Hp as <-.
  - right. unfold div_100 in Hp. apply bind_ok in Hp as (a & Ha & Hp).
    injection Hp as <-. eauto.
Qed.

(** C10.  The progress of a normalized task is 0 when ['percentageDone']
    is absent or null.  When it is a number, progress is the float
    quotient [percentageDone / 100.0]: the operand as a float, divided by
    100 and rounded to the nearest float, so within half a unit in the
    last place of percentDone / 100 (a relative error of at most 2^-53
    once the quotient is 2^-1022 or more).  The quotient is not clamped.
    For an operand in [0, 100] it lies in [0, 1], above 100 it is at
    least 1, below 0 at most 0.  For an int percentDone (which converts
    to a float only below 2^1024 - 2^970 in magnitude, and exactly below
    2^53) progress lies in [0, 1] exactly when 0 <= percentDone <= 100.
    For a float percentDone progress is at most 1 exactly when
    percentDone <= 100. *)
Theorem progress_is_percent_over_100
    (now : datetime) (d : list (string * pyval)) (r : row) :
  extract_one fromisoformat now (VDict d) = Ok r ->
  (is_none (field d "percentageDone") = true -> Progress r = 0%Q)
  /\ (forall a : Q,
        float_of (field d "percentageDone") = Ok a ->
        Progress r = round_double (a / 100)
        /\ (Qabs (Progress r - a / 100) <= pow2 (quantum (a / 100) - 1))%Q
        /\ ((pow2 (-1022) <= Qabs (a / 100))%Q ->
            (Qabs (Progress r - a / 100) <= Qabs (a / 100) * pow2 (-53))%Q)
        /\ ((0 <= a /\ a <= 100)%Q -> (0 <= Progress r /\ Progress r <= 1)%Q)
        /\ ((100 < a)%Q -> (1 <= Progress r)%Q)
        /\ ((a < 0)%Q -> (Progress r <= 0)%Q))
  /\ (forall z : Z,
        field d "percentageDone" = VInt z ->
        Z.abs z < FLOAT_INT_LIMIT
        /\ (Z.abs z < 2 ^ 53 -> Progress r = round_double (inject_Z z / 100))
        /\ ((0 <= Progress r /\ Progress r <= 1)%Q <-> 0 <= z <= 100))
  /\ (forall q : Q,
        field d "percentageDone" = VFloat q ->
        round_double q = q ->
        ((Progress r <= 1)%Q <-> (q <= 100)%Q)).
Proof.
  intros H. pose proof (progress_cases _ _ _ H) as Hc.
  split; [ | split; [ | split ] ].
  - intros Hn. destruct Hc as [[_ E] | (a & Ha & _)]; [ exact E | ].
    destruct (field d "percentageDone"); discriminate.
  - intros a Ha. destruct Hc as [[Hn _] | (a' & Ha' & E)].
    + destruct (field d "percentageDone"); discriminate.
    + assert (a' = a) by congruence. subst a'. rewrite E.
      split; [ reflexivity | ]. split; [ apply round_double_error | ].
      split; [ apply round_double_relative | ].
      split; [ intros [H0 H1]; now apply div_100_unit | ].
      split; [ apply div_100_above | apply div_100_below ].
  - intros z Hz. rewrite Hz in Hc.
    destruct Hc as [[Hn _] | (a & Ha & E)]; [ discriminate | ].
    cbn [float_of] in Ha.
    destruct (Z.abs z <? FLOAT_INT_LIMIT) eqn:Hl; [ | discriminate ].
    injection Ha as <-. apply Z.ltb_lt in Hl. split; [ exact Hl | ].
    split.
    + intros Hs. rewrite E, round_double_int by exact Hs. reflexivity.
    + rewrite E. split.
      * intros [H0 H1].
        destruct (Z_lt_le_dec z 0) as [Hneg | Hpos];
          [ pose proof (div_100_int_below z Hneg); lra | ].
        destruct (Z_lt_le_dec 100 z) as [Hbig | Hsmall];
          [ pose proof (div_100_int_above z Hbig); lra | lia ].
      * intros [H0 H1].
        rewrite round_double_int by (change (2 ^ 53) with 9007199254740992; lia).
        apply div_100_unit.
        -- change 0%Q with (inject_Z 0). rewrite <- Zle_Qle. exact H0.
        -- change 100%Q with (inject_Z 100). rewrite <- Zle_Qle. exact H1.
  - intros q Hq Hd. rewrite Hq in Hc.
    destruct Hc as [[Hn _] | (a & Ha & E)]; [ discriminate | ].
    injection Ha as <-. rewrite E. split.
    + intros H1. destruct (Qlt_le_dec 100 q) as [Hbig | Hsmall]; [ | exact Hsmall ].
      pose proof (div_100_double_above q Hd Hbig). lra.
    + intros H1. destruct (Qlt_le_dec q 0) as [Hneg | Hpos].
      * pose proof (div_100_below q Hneg). lra.
      * apply (div_100_unit q Hpos H1).
Qed.

End RowProperties.

Lemma duration_is_day_difference_witness :
  match extract_one Iso.iso_basic (utcnow Ex.clock) Ex.task_a with
  | Ok r => Duration r = 9
  | Raise _ => False
  end.
Proof.
  destruct (extract_one Iso.iso_basic (utcnow Ex.clock) Ex.task_a) as [r | e] eqn:E;
    [ | vm_compute in E; discriminate E ].
  rewrite (proj1 (duration_is_day_difference Iso.iso_basic _ _ _ E)).
  vm_compute in E. injection E as <-. reflexivity.
Defined.

(** An item given as start 2024-01-20, finish 2024-01-05 gets the duration
    -15, where max(0, finish - start) is 0. *)
Lemma duration_negative_counterexample :
  exists r, extract_one Iso.iso_basic (utcnow Ex.clock) Ex.backwards = Ok r
            /\ Start r = Some (Ex.jan 20) /\ Finish r = Some (Ex.jan 5)
            /\ Duration r = -15
            /\ Duration r <> Z.max 0 (days (instant (Ex.jan 5) - instant (Ex.jan 20))).
Proof.
  eexists. split; [ reflexivity | ].
  repeat split. vm_compute. discriminate.
Qed.

Lemma progress_is_percent_over_100_witness :
  match extract_one Iso.iso_basic (utcnow Ex.clock) Ex.half_done with
  | Ok r => Progress r = (1 # 2)%Q /\ (0 <= Progress r /\ Progress r <= 1)%Q
  | Raise _ => False
  end
  /\ match extract_one Iso.iso_basic (utcnow Ex.clock) Ex.eighth_done with
     | Ok r => Progress r = (1 # 8)%Q /\ (Progress r <= 1)%Q
     | Raise _ => False
     end.
Proof.
  split.
  - destruct (extract_one Iso.iso_basic (utcnow Ex.clock) Ex.half_done)
      as [r | e] eqn:E; [ | vm_compute in E; discriminate E ].
    destruct (progress_is_percent_over_100 Iso.iso_basic _ _ _ E) as (_ & _ & H & _).
    destruct (H 50 eq_refl) as (_ & H1 & H2).
    split.
    + rewrite H1 by (vm_compute; reflexivity). vm_compute. reflexivity.
    + apply H2. lia.
  - destruct (extract_one Iso.iso_basic (utcnow Ex.clock) Ex.eighth_done)
      as [r | e] eqn:E; [ | vm_compute in E; discriminate E ].
    destruct (progress_is_percent_over_100 Iso.iso_basic _ _ _ E) as (_ & Ha & _ & Hf).
    destruct (Ha (25 # 2)%Q eq_refl) as (H1 & _).
    split.
    + rewrite H1. vm_compute. reflexivity.
    + apply (Hf (25 # 2)%Q eq_refl); [ vm_compute; reflexivity | ].
      vm_compute. discriminate.
Defined.

(** An item with percentageDone = 150 gets the progress 1.5. *)
Lemma progress_above_one_counterexample :
  exists r, extract_one Iso.iso_basic (utcnow Ex.clock) Ex.overbooked = Ok r
            /\ Progress r = (3 # 2)%Q
            /\ ~ (Progress r <= 1)%Q.
Proof.
  eexists. split; [ vm_compute; reflexivity | ].
  split; [ reflexivity | ]. intros H. vm_compute in H. apply H. reflexivity.
Qed.

(** 33 percent gives the float nearest to 33/100, which is a little above
    it; a float percentDone of -2^-1074 gives a quotient that underflows
    to -0.0, so that a negative percentDone yields a progress inside
    [0, 1]. *)
Lemma progress_rounding_examples :
  (exists r, extract_one Iso.iso_basic (utcnow Ex.clock) Ex.third_done = Ok r
             /\ Progress r = (5944751508129055 # 18014398509481984)%Q
             /\ (33 # 100 < Progress r)%Q)
  /\ (exists r, extract_one Iso.iso_basic (utcnow Ex.clock) Ex.tiny_negative = Ok r
                /\ round_double (-1 # 2 ^ 1074) = (-1 # 2 ^ 1074)%Q
                /\ Progress r = 0%Q).
Proof.
  split; eexists; (split; [ vm_compute; reflexivity | ]);
    split; vm_compute; reflexivity.
Qed.

(** ** Label wrapping *)

(** C6.  The label formatter on two inputs.  A 121-character title made of
    two 60-character words is wrapped onto two lines that hold every word,
    and still receives the ellipsis; a 250-character title without a blank
    comes back as an empty first line followed by the whole title, with no
    ellipsis. *)
Theorem wrap_name_ellipsis_misplaced :
  len Ex.two_words = 121
  /\ py_split Ex.two_words = [Ex.a60; Ex.b60]
  /\ wrap_name Ex.two_words 100 2 = Ex.a60 ++ "<br>" ++ Ex.b60 ++ "..."
  /\ len Ex.one_word = 250
  /\ wrap_name Ex.one_word 100 2 = "<br>" ++ Ex.one_word.
Proof. repeat split; vm_compute; reflexivity. Qed.

(** ** The stable sort *)

Lemma start_leb_total (a b : option datetime) :
  start_leb a b = true \/ start_leb b a = true.
Proof.
  destruct a as [x | ], b as [y | ]; simpl; auto.
  destruct (Z.leb_spec (instant x) (instant y)); [ now left | right ].
  apply Z.leb_le. lia.
Qed.

Lemma start_leb_trans (a b c : option datetime) :
  start_leb a b = true -> start_leb b c = true -> start_leb a c = true.
Proof.
  destruct a as [x | ], b as [y | ], c as [z | ]; simpl; try congruence.
  rewrite !Z.leb_le. lia.
Qed.

Lemma row_leb_total (a b : row) : row_leb a b = true \/ row_leb b a = true.
Proof.
  unfold row_leb. destruct (MissingStart a), (MissingStart b); auto;
    apply start_leb_total.
Qed.

Lemma row_leb_trans (a b c : row) :
  row_leb a b = true -> row_leb b c = true -> row_leb a c = true.
Proof.
  unfold row_leb.
  destruct (MissingStart a), (MissingStart b), (MissingStart c);
    try congruence; apply start_leb_trans.
Qed.

Lemma row_leb_false (a b : row) : row_leb a b = false -> row_leb b a = true.
Proof. destruct (row_leb_total a b); congruence. Qed.

Lemma key_eqb_trans (x y z : row) :
  key_eqb x y = true -> key_eqb x z = key_eqb y z.
Proof.
  unfold key_eqb. intros H. apply andb_true_iff in H as [Hxy Hyx].
  destruct (row_leb y z) eqn:Eyz, (row_leb z y) eqn:Ezy; simpl.
  - now rewrite (row_leb_trans _ _ _ Hxy Eyz), (row_leb_trans _ _ _ Ezy Hyx).
  - destruct (row_leb z x) eqn:Ezx; [ | now rewrite andb_false_r ].
    now rewrite (row_leb_trans _ _ _ Ezx Hxy) in Ezy.
  - destruct (row_leb x z) eqn:Exz; [ | reflexivity ].
    now rewrite (row_leb_trans _ _ _ Hyx Exz) in Eyz.
  - destruct (row_leb x z) eqn:Exz; [ | reflexivity ].
    now rewrite (row_leb_trans _ _ _ Hyx Exz) in Eyz.
Qed.

Lemma insert_perm (x : row) (l : list row) : Permutation (x :: l) (insert x l).
Proof.
  induction l as [ | y l IH ]; simpl; [ reflexivity | ].
  destruct (row_leb x y); [ reflexivity | ].
  rewrite perm_swap. now constructor.
Qed.

Lemma stable_sort_perm (df : list row) : Permutation df (stable_sort df).
Proof.
  induction df as [ | x df IH ]; simpl; [ constructor | ].
  rewrite <- insert_perm. now constructor.
Qed.

Lemma insert_sorted (x : row) (l : list row) :
  StronglySorted row_le l -> StronglySorted row_le (insert x l).
Proof.
  induction 1 as [ | y l Hl IH Hy ]; simpl.
  - repeat constructor.
  - destruct (row_leb x y) eqn:E.
    + constructor; [ now constructor | ].
      constructor; [ exact E | ].
      eapply Forall_impl; [ | exact Hy ].
      intros z Hz. exact (row_leb_trans _ _ _ E Hz).
    + constructor; [ exact IH | ].
      rewrite <- insert_perm. constructor; [ | exact Hy ].
      now apply row_leb_false.
Qed.

Lemma stable_sort_sorted (df : list row) : StronglySorted row_le (stable_sort df).
Proof.
  induction df as [ | x df IH ]; simpl; [ constructor | ].
  now apply insert_sorted.
Qed.

Lemma insert_filter_key (x y : row) (l : list row) :
  filter (key_eqb x) (insert y l) = filter (key_eqb x) (y :: l).
Proof.
  induction l as [ | z l IH ]; [ reflexivity | ].
  cbn [insert]. destruct (row_leb y z) eqn:E; [ reflexivity | ].
  assert (Eyz : key_eqb y z = false) by (unfold key_eqb; now rewrite E).
  cbn [filter] in *. rewrite IH.
  destruct (key_eqb x y) eqn:Exy; [ | reflexivity ].
  rewrite (key_eqb_trans _ _ _ Exy), Eyz. reflexivity.
Qed.

Lemma stable_sort_stable (x : row) (df : list row) :
  filter (key_eqb x) (stable_sort df) = filter (key_eqb x) df.
Proof.
  induction df as [ | y df IH ]; [ reflexivity | ].
  cbn [stable_sort fold_right]. fold (stable_sort df).
  rewrite insert_filter_key. cbn [filter]. now rewrite IH.
Qed.

(** Two sorted arrangements of the same rows coincide when the order
    tells all of them apart. *)
Lemma sorted_perm_unique (l1 l2 : list row) :
  (forall a b, In a l1 -> In b l1 -> row_le a b -> row_le b a -> a = b) ->
  StronglySorted row_le l1 -> StronglySorted row_le l2 ->
  Permutation l1 l2 -> l1 = l2.
Proof.
  revert l2. induction l1 as [ | x l1 IH ]; intros l2 Hanti H1 H2 HP.
  - apply Permutation_nil in HP. now subst.
  - destruct l2 as [ | y l2 ]; [ now apply Permutation_sym, Permutation_nil in HP | ].
    assert (x = y) as <-.
    { inversion H1 as [ | ? ? _ Hx ]; inversion H2 as [ | ? ? _ Hy ]; subst.
      assert (In y (x :: l1)) as Hin
        by (eapply Permutation_in; [ apply Permutation_sym, HP | now left ]).
      assert (In x (y :: l2)) as Hin'
        by (eapply Permutation_in; [ apply HP | now left ]).
      destruct Hin as [ | Hin ]; [ assumption | ].
      destruct Hin' as [ | Hin' ]; [ now subst | ].
      rewrite Forall_forall in Hx, Hy.
      apply Hanti; [ now left | now right | now apply Hx | now apply Hy ]. }
    f_equal. apply IH.
    + intros a b Ha Hb. apply Hanti; now right.
    + now inversion H1.
    + now inversion H2.
    + eapply Permutation_cons_inv, HP.
Qed.

Lemma sorted_missing_last (l : list row) :
  StronglySorted row_le l -> l = (filter scheduled l ++ filter MissingStart l)%list.
Proof.
  induction 1 as [ | x l Hl IH Hx ]; [ reflexivity | ].
  cbn [filter]. unfold scheduled at 1.
  destruct (MissingStart x) eqn:Ex; cbn [negb].
  - assert (Hall : forall y, In y l -> MissingStart y = true).
    { intros y Hy. rewrite Forall_forall in Hx. specialize (Hx y Hy).
      unfold row_le, row_leb in Hx. rewrite Ex in Hx.
      destruct (MissingStart y); [ reflexivity | discriminate Hx ]. }
    assert (E1 : filter scheduled l = []).
    { clear - Hall. induction l as [ | y l IH ]; [ reflexivity | ].
      cbn [filter]. unfold scheduled at 1. rewrite (Hall y (or_introl eq_refl)).
      apply IH. intros z Hz. apply Hall. now right. }
    assert (E2 : filter MissingStart l = l).
    { clear - Hall. induction l as [ | y l IH ]; [ reflexivity | ].
      cbn [filter]. rewrite (Hall y (or_introl eq_refl)). f_equal.
      apply IH. intros z Hz. apply Hall. now right. }
    rewrite E1, E2. reflexivity.
  - cbn [app]. f_equal. exact IH.
Qed.

Lemma missing_key (x r : row) :
  row_wf x -> row_wf r -> MissingStart x = true -> key_eqb x r = MissingStart r.
Proof.
  unfold row_wf, key_eqb, row_leb. intros Hx Hr Ex. rewrite Ex in *.
  destruct (Start x); [ discriminate Hx | ].
  destruct (MissingStart r); [ | reflexivity ].
  destruct (Start r); [ discriminate Hr | reflexivity ].
Qed.

Lemma stable_sort_missing (df : list row) :
  Forall row_wf df ->
  filter MissingStart (stable_sort df) = filter MissingStart df.
Proof.
  intros Hwf.
  assert (Hwf' : Forall row_wf (stable_sort df))
    by (eapply Permutation_Forall; [ apply stable_sort_perm | exact Hwf ]).
  destruct (filter MissingStart df) as [ | x m ] eqn:E.
  - destruct (filter MissingStart (stable_sort df)) as [ | y m' ] eqn:E'; [ reflexivity | ].
    assert (Hy : In y (filter MissingStart (stable_sort df))) by (rewrite E'; now left).
    apply filter_In in Hy as [Hy1 Hy2].
    apply (Permutation_in _ (Permutation_sym (stable_sort_perm df))) in Hy1.
    assert (Hy : In y (filter MissingStart df)) by (apply filter_In; now split).
    rewrite E in Hy. destruct Hy.
  - rewrite <- E.
    assert (Hx : In x (filter MissingStart df)) by (rewrite E; now left).
    apply filter_In in Hx as [Hx1 Hx2].
    assert (Hxwf : row_wf x) by (rewrite Forall_forall in Hwf; now apply Hwf).
    rewrite <- (filter_ext_in (key_eqb x) MissingStart (stable_sort df)).
    + rewrite stable_sort_stable. apply filter_ext_in.
      intros r Hr. apply missing_key; trivial.
      rewrite Forall_forall in Hwf. now apply Hwf.
    + intros r Hr. apply missing_key; trivial.
      rewrite Forall_forall in Hwf'. now apply Hwf'.
Qed.

Lemma same_awareness_perm (l l' : list datetime) :
  Permutation l l' -> same_awareness l = true -> same_awareness l' = true.
Proof.
  intros HP H.
  assert (Hall : forall a b, In a l -> In b l -> comparable a b = true).
  { destruct l as [ | d l ]; [ intros ? ? [] | ].
    cbn [same_awareness] in H. rewrite forallb_forall in H.
    assert (Hd : forall a, In a (d :: l) -> comparable d a = true).
    { intros a [<- | Ha]; [ | now apply H ].
      unfold comparable. now destruct (aware d). }
    intros a b Ha Hb. specialize (Hd a Ha) as Ha'. specialize (Hd b Hb) as Hb'.
    unfold comparable in *. destruct (aware d), (aware a), (aware b); auto. }
  destruct l' as [ | d' l' ]; [ reflexivity | ].
  cbn [same_awareness]. apply forallb_forall. intros a Ha.
  apply Hall; eapply Permutation_in; try (apply Permutation_sym; exact HP);
    [ now left | now right ].
Qed.

Lemma valid_starts_perm (l l' : list row) :
  Permutation l l' -> Permutation (valid_starts l) (valid_starts l').
Proof.
  unfold valid_starts. induction 1; cbn [flat_map].
  - constructor.
  - now apply Permutation_app_head.
  - rewrite !app_assoc. apply Permutation_app_tail, Permutation_app_comm.
  - etransitivity; eassumption.
Qed.

Section SortProperties.

Variable fromisoformat : string -> option datetime.

Lemma extract_missing_iff (now : datetime) (d : list (string * pyval)) (r : row) :
  extract_one fromisoformat now (VDict d) = Ok r ->
  row_wf r
  /\ (Finish r = None <-> Start r = None)
  /\ (MissingStart r = true <->
      source_start fromisoformat d = None /\ source_due fromisoformat d = None).
Proof.
  intros H. apply extract_one_inv in H as (d' & Hd & Hr & _ & _ & Hm & _).
  split; [ exact Hm | ]. rewrite Hm. clear Hm.
  rewrite resolve_dates_dict in Hr.
  destruct (source_start fromisoformat d) as [s | ],
           (source_due fromisoformat d) as [f | ].
  - injection Hr as Hs Hf. rewrite <- Hs, <- Hf.
    repeat split; try discriminate; intros [? _]; discriminate.
  - apply bind_ok in Hr as (f & _ & Hr). injection Hr as Hs Hf. rewrite <- Hs, <- Hf.
    repeat split; try discriminate; intros [? _]; discriminate.
  - apply bind_ok in Hr as (s & _ & Hr). injection Hr as Hs Hf. rewrite <- Hs, <- Hf.
    repeat split; try discriminate; intros [_ ?]; discriminate.
  - injection Hr as Hs Hf. rewrite <- Hs, <- Hf. repeat split; auto.
Qed.

Lemma extract_frame_wf (clock : Z) (wps : list pyval) (df : list row) :
  _extract_work_package_data fromisoformat clock wps = Ok df ->
  Forall (fun r => row_wf r /\ (Finish r = None <-> Start r = None)) df
  /\ Forall2 (fun wp r => MissingStart r = true <-> undated fromisoformat wp) wps df.
Proof.
  unfold _extract_work_package_data. intros H. apply mapM_ok in H.
  induction H as [ | wp r wps df Hr _ [IH1 IH2] ]; [ split; constructor | ].
  destruct (extract_one_inv fromisoformat _ _ _ Hr) as (d & -> & _).
  destruct (extract_missing_iff _ _ _ Hr) as (H1 & H2 & H3).
  split; constructor; auto.
Qed.

End SortProperties.

(** ** Project weeks *)

Lemma fold_min_spec (ds : list datetime) (d : datetime) :
  In (fold_left dt_min ds d) (d :: ds)
  /\ forall x, In x (d :: ds) -> instant (fold_left dt_min ds d) <= instant x.
Proof.
  revert d. induction ds as [ | y ds IH ]; intros d; cbn [fold_left].
  - split; [ now left | ]. intros x [<- | []]. lia.
  - destruct (IH (dt_min d y)) as [Hin Hle]. split.
    + destruct Hin as [Hin | Hin]; [ | now right; right ].
      rewrite <- Hin. unfold dt_min.
      destruct (instant y <? instant d); [ right; now left | now left ].
    + assert (Hm : instant (dt_min d y) <= instant d
                   /\ instant (dt_min d y) <= instant y).
      { unfold dt_min. destruct (Z.ltb_spec (instant y) (instant d)); lia. }
      pose proof (Hle (dt_min d y) (or_introl eq_refl)) as H0.
      intros x [<- | [<- | Hx]]; try lia.
      apply Hle. now right.
Qed.

Lemma week_or_none_some (m : datetime) (o : option datetime) (w : Z) :
  week_or_none m o = Ok (Some w) ->
  exists d, o = Some d /\ comparable d m = true /\ w = week m d.
Proof.
  destruct o as [d | ]; [ | discriminate ].
  unfold week_or_none, dt_sub. destruct (comparable d m) eqn:Ec; [ | discriminate ].
  cbn [bind]. intros H. injection H as <-. exists d.
  split; [ reflexivity | ]. split; [ exact Ec | ].
  unfold week. rewrite Z.geb_leb.
  destruct (Z.leb_spec 1 (days (instant d - instant m) / 7 + 1)); lia.
Qed.

Lemma week_mono (m s f : datetime) :
  instant s <= instant f -> week m s <= week m f.
Proof.
  intros H. unfold week, days.
  apply Z.max_le_compat_l. apply Z.add_le_mono_r.
  apply Z.div_le_mono; [ lia | ].
  apply Z.div_le_mono; [ unfold DAY_US; lia | lia ].
Qed.

Lemma week_ge_1 (m d : datetime) : 1 <= week m d.
Proof. unfold week. lia. Qed.

Lemma with_weeks_rows (df : list row) (wdf : list week_row) :
  with_weeks df = Ok wdf ->
  map base wdf = df
  /\ ((valid_starts df = [] /\ forall r, In r wdf -> has_weeks r = false)
      \/ exists m, In m (valid_starts df)
           /\ (forall d, In d (valid_starts df) -> instant m <= instant d)
           /\ forall r, In r wdf -> has_weeks r = true -> week_row_ok m r).
Proof.
  unfold with_weeks. destruct (valid_starts df) as [ | d ds ] eqn:E.
  - intros H. injection H as <-. split.
    + rewrite map_map. cbn [base]. apply map_id.
    + left. split; [ reflexivity | ].
      intros r Hr. apply in_map_iff in Hr as (r0 & <- & _). reflexivity.
  - intros H. apply mapM_ok in H.
    destruct (fold_min_spec ds d) as [Hin Hle].
    set (m := fold_left dt_min ds d) in *.
    split.
    + clear - H. induction H as [ | r w l l' Hw _ IH ]; [ reflexivity | ].
      cbn [map]. f_equal; [ | exact IH ].
      apply bind_ok in Hw as (sw & _ & Hw). apply bind_ok in Hw as (fw & _ & Hw).
      now injection Hw as <-.
    + right. exists m. split; [ exact Hin | ]. split; [ exact Hle | ].
      clear - H. induction H as [ | r w l l' Hw _ IH ]; [ intros ? [] | ].
      intros r' [<- | Hr']; [ | now apply IH ].
      apply bind_ok in Hw as (sw & Hsw & Hw). apply bind_ok in Hw as (fw & Hfw & Hw).
      injection Hw as <-. unfold has_weeks, week_row_ok. cbn [StartWeek FinishWeek base].
      destruct sw as [sw | ]; [ | discriminate ].
      destruct fw as [fw | ]; [ | discriminate ].
      intros _.
      apply week_or_none_some in Hsw as (s & Hs & _ & ->).
      apply week_or_none_some in Hfw as (f & Hf & _ & ->).
      exists s, f. repeat split; trivial.
      unfold bump. destruct (week m f =? week m s); reflexivity.
Qed.

Lemma layout_rows (df : list row) (c : chart) :
  layout df = Ok (Chart c) ->
  exists m, In m (valid_starts df)
    /\ (forall d, In d (valid_starts df) -> instant m <= instant d)
    /\ forall r, In r (df_plot c) -> In (base r) df /\ week_row_ok m r.
Proof.
  unfold layout. destruct df as [ | r0 df0 ]; [ discriminate | ].
  set (df := r0 :: df0). clearbody df. clear r0 df0.
  intros H. apply bind_ok in H as (sdf & Hsort & H).
  apply bind_ok in H as (wdf & Hweeks & H).
  assert (HP : Permutation df sdf).
  { unfold sort_values in Hsort.
    destruct (same_awareness (valid_starts df)); [ | discriminate ].
    injection Hsort as <-. apply stable_sort_perm. }
  apply with_weeks_rows in Hweeks as [Hbase Hcases].
  destruct (filter has_weeks wdf) as [ | w ws ] eqn:E; [ discriminate | ].
  injection H as <-. cbn [df_plot]. rewrite <- E.
  destruct Hcases as [[_ Hnone] | (m & Hin & Hle & Hrows)].
  - exfalso. assert (Hw : In w (filter has_weeks wdf)) by (rewrite E; now left).
    apply filter_In in Hw as [Hw1 Hw2]. rewrite (Hnone w Hw1) in Hw2. discriminate.
  - exists m. pose proof (valid_starts_perm _ _ HP) as HPs.
    split; [ eapply Permutation_in; [ apply Permutation_sym, HPs | exact Hin ] | ].
    split.
    + intros d Hd. apply Hle. eapply Permutation_in; [ apply HPs | exact Hd ].
    + intros r Hr. apply filter_In in Hr as [Hr1 Hr2]. split; [ | now apply Hrows ].
      eapply Permutation_in; [ apply Permutation_sym, HP | ].
      rewrite <- Hbase. now apply in_map.
Qed.

(** ** Order of the rows of a chart *)

Lemma week_or_none_shape (m : datetime) (o : option datetime) (w : option Z) :
  week_or_none m o = Ok w ->
  match o, w with Some _, Some _ | None, None => True | _, _ => False end.
Proof.
  destruct o as [d | ]; cbn [week_or_none].
  - intros H. apply bind_ok in H as (td & _ & H). injection H as <-. exact I.
  - intros H. injection H as <-. exact I.
Qed.

Lemma with_weeks_has_weeks (df : list row) (wdf : list week_row) :
  with_weeks df = Ok wdf ->
  forall w, In w wdf ->
    has_weeks w = match Start (base w), Finish (base w) with
                  | Some _, Some _ => true
                  | _, _ => false
                  end.
Proof.
  unfold with_weeks. destruct (valid_starts df) as [ | d ds ] eqn:E.
  - intros H. injection H as <-. intros w Hw.
    apply in_map_iff in Hw as (r & <- & Hr). cbn [has_weeks StartWeek base].
    destruct (Start r) as [s | ] eqn:Es; [ | reflexivity ].
    exfalso. assert (Hin : In s (valid_starts df)).
    { unfold valid_starts. apply in_flat_map. exists r. split; [ exact Hr | ].
      rewrite Es. now left. }
    rewrite E in Hin. destruct Hin.
  - intros H. apply mapM_ok in H. clear E.
    induction H as [ | r w l l' Hw _ IH ]; [ intros ? [] | ].
    intros w' [<- | Hw']; [ | now apply IH ].
    apply bind_ok in Hw as (sw & Hsw & Hw). apply bind_ok in Hw as (fw & Hfw & Hw).
    injection Hw as <-. unfold has_weeks. cbn [StartWeek FinishWeek base].
    apply week_or_none_shape in Hsw. apply week_or_none_shape in Hfw.
    destruct (Start r), (Finish r), sw as [sw | ], fw as [fw | ];
      try contradiction; cbn [bump]; try reflexivity.
    destruct (fw =? sw); reflexivity.
Qed.

Lemma map_filter_base (p : week_row -> bool) (q : row -> bool) (wdf : list week_row) :
  (forall w, In w wdf -> p w = q (base w)) ->
  map base (filter p wdf) = filter q (map base wdf).
Proof.
  induction wdf as [ | w wdf IH ]; intros H; [ reflexivity | ].
  cbn [filter map]. rewrite <- (H w (or_introl eq_refl)).
  destruct (p w); cbn [map]; rewrite IH; trivial; intros x Hx; apply H; now right.
Qed.

(** ['MissingStart'] and the two dates as the extraction loop leaves them. *)
Lemma layout_order (df : list row) (c : chart) :
  Forall (fun r => row_wf r /\ (Finish r = None <-> Start r = None)) df ->
  layout df = Ok (Chart c) ->
  map base (df_plot c) = filter scheduled (stable_sort df)
  /\ map base (missing_start_df c) = filter MissingStart df.
Proof.
  intros Hwf. unfold layout. destruct df as [ | r0 df0 ]; [ discriminate | ].
  set (df := r0 :: df0) in *. clearbody df. clear r0 df0.
  intros H. apply bind_ok in H as (sdf & Hsort & H).
  apply bind_ok in H as (wdf & Hweeks & H).
  assert (Es : sdf = stable_sort df).
  { unfold sort_values in Hsort.
    destruct (same_awareness (valid_starts df)); [ | discriminate ].
    now injection Hsort as <-. }
  subst sdf.
  pose proof (with_weeks_has_weeks _ _ Hweeks) as Hhas.
  apply with_weeks_rows in Hweeks as [Hbase _].
  assert (Hwf' : Forall (fun r => row_wf r /\ (Finish r = None <-> Start r = None))
                        (stable_sort df))
    by (eapply Permutation_Forall; [ apply stable_sort_perm | exact Hwf ]).
  destruct (filter has_weeks wdf) as [ | w ws ] eqn:E; [ discriminate | ].
  injection H as <-. cbn [df_plot missing_start_df]. rewrite <- E. split.
  - rewrite <- Hbase. apply map_filter_base. intros x Hx. rewrite (Hhas x Hx).
    rewrite Forall_forall in Hwf'.
    destruct (Hwf' (base x)) as [H1 H2]; [ rewrite <- Hbase; now apply in_map | ].
    unfold scheduled. rewrite H1.
    destruct (Start (base x)), (Finish (base x)); try reflexivity.
    destruct H2 as [H2 _]. specialize (H2 eq_refl). discriminate.
  - rewrite (map_filter_base _ MissingStart); [ | reflexivity ].
    rewrite Hbase. apply stable_sort_missing.
    eapply Forall_impl; [ | exact Hwf ]. now intros r [H1 _].
Qed.

(** ** Charts *)

Section ChartProperties.

Variable fromisoformat : string -> option datetime.

Lemma generate_chart_inv (clock : Z) (wps : list pyval) (c : chart) :
  generate_gantt_chart fromisoformat clock wps = Chart c ->
  exists df,
    _extract_work_package_data fromisoformat clock wps = Ok df
    /\ layout df = Ok (Chart c).
Proof.
  unfold generate_gantt_chart. destruct wps as [ | wp wps ]; [ discriminate | ].
  destruct (_extract_work_package_data fromisoformat clock (wp :: wps)) as [df | e];
    cbn [bind]; [ | discriminate ].
  destruct (layout df) as [o | e] eqn:E; [ | discriminate ].
  intros ->. now exists df.
Qed.

(** C7.  [sort_values] returns the rows of the frame (a permutation) in
    ascending order of the key (MissingStart, Start), rows with equal keys
    in their input order.  MissingStart is set after the one-day backfill,
    so it marks the items with no date at all, not the items without a
    start of their own: the rows that have a start, given or inferred from
    the finish, come first in ascending start order, and the rows with no
    date follow in input order.  Given A and B with starts a < b and C
    without any date, every input order yields [A; B; C].  The bars of a
    produced chart are the sorted rows that have a start, in that order. *)
Theorem sort_values_order
    (clock : Z) (wps : list pyval) (c : chart)
    (df df' : list row) (A B C : row) (a b : datetime) :
  (sort_values df = Ok df' ->
   Permutation df df'
   /\ StronglySorted row_le df'
   /\ (forall x, filter (key_eqb x) df' = filter (key_eqb x) df)
   /\ (Forall row_wf df ->
       df' = (filter scheduled df' ++ filter MissingStart df)%list))
  /\
  (Start A = Some a -> MissingStart A = false ->
   Start B = Some b -> MissingStart B = false ->
   Start C = None -> MissingStart C = true ->
   comparable a b = true -> instant a < instant b ->
   Permutation df [A; B; C] ->
   sort_values df = Ok [A; B; C])
  /\
  (generate_gantt_chart fromisoformat clock wps = Chart c ->
   exists frame,
     _extract_work_package_data fromisoformat clock wps = Ok frame
     /\ Forall2 (fun wp r => MissingStart r = true <-> undated fromisoformat wp)
                wps frame
     /\ map base (df_plot c) = filter scheduled (stable_sort frame)
     /\ map base (missing_start_df c) = filter MissingStart frame).
Proof.
  split; [ | split ].
  - unfold sort_values. destruct (same_awareness (valid_starts df)); [ | discriminate ].
    intros H. injection H as <-.
    split; [ apply stable_sort_perm | ].
    split; [ apply stable_sort_sorted | ].
    split; [ intros x; apply stable_sort_stable | ].
    intros Hwf. rewrite <- (stable_sort_missing df Hwf).
    apply sorted_missing_last, stable_sort_sorted.
  - intros HA HmA HB HmB HC HmC Hab Hlt HP.
    unfold sort_values.
    rewrite (same_awareness_perm (valid_starts [A; B; C]) (valid_starts df)).
    + f_equal. symmetry. apply sorted_perm_unique.
      * assert (AB : row_leb B A = false)
          by (unfold row_leb; rewrite HmA, HmB, HA, HB; simpl; apply Z.leb_gt; lia).
        assert (AC : row_leb C A = false) by (unfold row_leb; now rewrite HmA, HmC).
        assert (BC : row_leb C B = false) by (unfold row_leb; now rewrite HmB, HmC).
        unfold row_le.
        intros x y [<- | [<- | [<- | []]]] [<- | [<- | [<- | []]]]; congruence.
      * unfold row_le, row_leb.
        repeat constructor; rewrite ?HmA, ?HmB, ?HmC, ?HA, ?HB, ?HC; simpl; trivial.
        apply Z.leb_le. lia.
      * apply stable_sort_sorted.
      * rewrite <- (stable_sort_perm df). now apply Permutation_sym.
    + apply valid_starts_perm. now apply Permutation_sym.
    + unfold valid_starts; cbn [flat_map]. rewrite HA, HB, HC. simpl.
      now rewrite Hab.
  - intros H. apply generate_chart_inv in H as (frame & Hframe & H).
    destruct (extract_frame_wf fromisoformat _ _ _ Hframe) as [Hwf Hun].
    destruct (layout_order frame c Hwf H) as [H1 H2].
    exists frame. repeat split; assumption.
Qed.

(** C1.  In every produced chart, with [min_start] the minimum start of
    the frame, each row has both week numbers, a start week
    week(start) >= 1, and a finish week different from its start week:
    when start and finish fall in the same project week the finish week is
    the start week plus 1, and whenever the finish is not before the start
    the finish week is strictly greater than the start week. *)
Theorem finish_week_differs_from_start_week
    (clock : Z) (wps : list pyval) (c : chart) :
  generate_gantt_chart fromisoformat clock wps = Chart c ->
  exists (df : list row) (min_start : datetime),
    _extract_work_package_data fromisoformat clock wps = Ok df
    /\ In min_start (valid_starts df)
    /\ (forall d, In d (valid_starts df) -> instant min_start <= instant d)
    /\ forall r, In r (df_plot c) ->
         exists (s f : datetime) (sw fw : Z),
           Start (base r) = Some s /\ Finish (base r) = Some f
           /\ StartWeek r = Some sw /\ FinishWeek r = Some fw
           /\ sw = week min_start s
           /\ 1 <= sw
           /\ fw <> sw
           /\ (week min_start f = week min_start s -> fw = sw + 1)
           /\ (instant s <= instant f -> sw < fw).
Proof.
  intros H. apply generate_chart_inv in H as (df & Hdf & H).
  apply layout_rows in H as (m & Hin & Hle & H).
  exists df, m. repeat (split; [ assumption | ]).
  intros r Hr. destruct (H r Hr) as (_ & s & f & Hs & Hf & Hsw & Hfw).
  exists s, f, (week m s),
    (if week m f =? week m s then week m s + 1 else week m f).
  pose proof (week_ge_1 m s).
  repeat (split; [ assumption || reflexivity | ]).
  destruct (Z.eqb_spec (week m f) (week m s)) as [E | E].
  - repeat split; lia.
  - repeat split; try lia. intros Hle'. pose proof (week_mono m s f Hle'). lia.
Qed.

Lemma task_a_row (clock : Z) :
  fromisoformat "2024-01-01" = Some (Ex.jan 1) ->
  fromisoformat "2024-01-10" = Some (Ex.jan 10) ->
  exists col,
    extract_one fromisoformat (utcnow clock) Ex.task_a
    = Ok {| wp_id := VInt 1;
            Task := (VInt 1, VStr "Task A");
            Start := Some (Ex.jan 1);
            Finish := Some (Ex.jan 10);
            Status := VStr "Open";
            Progress := 0;
            Assignee := VStr "Unassigned";
            Type_ := VStr "Task";
            Color := col;
            Duration := 9;
            MissingStart := false |}.
Proof.
  intros H1 H10.
  unfold extract_one, Ex.task_a.
  rewrite resolve_dates_dict.
  unfold source_start, source_due.
  change (parse_field fromisoformat _) with (fromisoformat "2024-01-01") at 1.
  rewrite H1.
  change (parse_field fromisoformat _) with (fromisoformat "2024-01-10") at 1.
  rewrite H10.
  cbn [py_get bind lookup String.eqb Ascii.eqb Bool.eqb wrap_subject link_title
       Ex.links is_none].
  destruct (_get_status_color (VStr "Open") (Some (Ex.jan 1)) (Some (Ex.jan 10))
              (Some (utcnow clock))) as [col | e] eqn:E.
  - exists col. reflexivity.
  - exfalso. revert E. unfold _get_status_color, dt_gt, dt_lt, dt_le.
    cbn [in_closed closed_statuses existsb bind comparable aware utcnow
         utcoffset Ex.jan Bool.eqb String.eqb Ascii.eqb orb].
    repeat match goal with
           | |- context [if ?b then _ else _] => destruct b; cbn [bind]
           end; discriminate.
Qed.

(** C8.  In every produced chart there is a minimum [min_start] of the
    starts of the frame such that each row has
    StartWeek = week(start) and FinishWeek = week(finish), or
    StartWeek + 1 when the two coincide, where
    week(date) = max(1, floor((date - min_start).days / 7) + 1).  In
    particular the single item with startDate 2024-01-01 and dueDate
    2024-01-10 gives one row with StartWeek = 1 and FinishWeek = 2. *)
Theorem week_index_formula (clock : Z) (wps : list pyval) (c : chart) :
  (generate_gantt_chart fromisoformat clock wps = Chart c ->
   exists (df : list row) (min_start : datetime),
     _extract_work_package_data fromisoformat clock wps = Ok df
     /\ In min_start (valid_starts df)
     /\ (forall d, In d (valid_starts df) -> instant min_start <= instant d)
     /\ forall r, In r (df_plot c) -> week_row_ok min_start r)
  /\
  (fromisoformat "2024-01-01" = Some (Ex.jan 1) ->
   fromisoformat "2024-01-10" = Some (Ex.jan 10) ->
   exists c' r,
     generate_gantt_chart fromisoformat clock [Ex.task_a] = Chart c'
     /\ df_plot c' = [r]
     /\ StartWeek r = Some 1 /\ FinishWeek r = Some 2).
Proof.
  split.
  - intros H. apply generate_chart_inv in H as (df & Hdf & H).
    apply layout_rows in H as (m & Hin & Hle & H).
    exists df, m. repeat split; trivial. intros r Hr. now apply H.
  - intros H1 H10. destruct (task_a_row clock H1 H10) as [col E].
    unfold generate_gantt_chart, _extract_work_package_data.
    cbn [mapM]. rewrite E. cbn [bind].
    eexists. eexists. split; [ vm_compute; reflexivity | ].
    split; [ reflexivity | ]. split; reflexivity.
Qed.

End ChartProperties.

Lemma finish_week_differs_from_start_week_witness :
  match generate_gantt_chart Iso.iso_basic Ex.clock [Ex.task_a; Ex.half_done] with
  | Chart c =>
      forall r, In r (df_plot c) ->
        exists (sw fw : Z),
          StartWeek r = Some sw /\ FinishWeek r = Some fw /\ 1 <= sw /\ fw <> sw
  | _ => False
  end.
Proof.
  destruct (generate_gantt_chart Iso.iso_basic Ex.clock [Ex.task_a; Ex.half_done])
    as [ | | c | e ] eqn:E; try (vm_compute in E; discriminate E).
  destruct (finish_week_differs_from_start_week Iso.iso_basic Ex.clock _ c E)
    as (df & m & _ & _ & _ & H).
  intros r Hr.
  destruct (H r Hr) as (s & f & sw & fw & _ & _ & Hsw & Hfw & _ & H1 & Hne & _).
  exists sw, fw. repeat split; assumption.
Defined.

Lemma week_index_formula_witness :
  match generate_gantt_chart Iso.iso_basic Ex.clock [Ex.half_done; Ex.task_a] with
  | Chart c => exists min_start, forall r, In r (df_plot c) -> week_row_ok min_start r
  | _ => False
  end
  /\ exists c r,
       generate_gantt_chart Iso.iso_basic Ex.clock [Ex.task_a] = Chart c
       /\ df_plot c = [r]
       /\ StartWeek r = Some 1 /\ FinishWeek r = Some 2.
Proof.
  split.
  - destruct (generate_gantt_chart Iso.iso_basic Ex.clock [Ex.half_done; Ex.task_a])
      as [ | | c | e ] eqn:E; try (vm_compute in E; discriminate E).
    destruct (proj1 (week_index_formula Iso.iso_basic Ex.clock _ c) E)
      as (df & m & _ & _ & _ & H).
    now exists m.
  - apply (week_index_formula Iso.iso_basic Ex.clock [] (mkchart [] [] [] 0 0 None None None));
      reflexivity.
Defined.

(** Two items: one from 2024-01-01 to 2024-01-10, one given as starting on
    2024-01-20 and finishing on 2024-01-05.  The second row gets start week
    3 and finish week 1. *)
Lemma finish_week_before_start_week_counterexample :
  match generate_gantt_chart Iso.iso_basic Ex.clock [Ex.task_a; Ex.backwards] with
  | Chart c =>
      map (fun r => (wp_id (base r), StartWeek r, FinishWeek r)) (df_plot c)
      = [(VInt 1, Some 1, Some 2); (VInt 2, Some 3, Some 1)]
  | _ => False
  end.
Proof. vm_compute. reflexivity. Qed.

Lemma sort_values_order_witness :
  sort_values [Ex.row_C; Ex.row_B; Ex.row_A] = Ok [Ex.row_A; Ex.row_B; Ex.row_C]
  /\ [Ex.row_A; Ex.row_B; Ex.row_C]
     = (filter scheduled [Ex.row_A; Ex.row_B; Ex.row_C]
        ++ filter MissingStart [Ex.row_C; Ex.row_B; Ex.row_A])%list
  /\ match generate_gantt_chart Iso.iso_basic Ex.clock
             [Ex.undated; Ex.task_a; Ex.due_only] with
     | Chart c =>
         exists frame,
           map base (df_plot c) = filter scheduled (stable_sort frame)
           /\ map base (missing_start_df c) = filter MissingStart frame
     | _ => False
     end.
Proof.
  destruct (generate_gantt_chart Iso.iso_basic Ex.clock
              [Ex.undated; Ex.task_a; Ex.due_only]) as [ | | c | e ] eqn:E;
    try (vm_compute in E; discriminate E).
  destruct (sort_values_order Iso.iso_basic Ex.clock
              [Ex.undated; Ex.task_a; Ex.due_only] c
              [Ex.row_C; Ex.row_B; Ex.row_A] [Ex.row_A; Ex.row_B; Ex.row_C]
              Ex.row_A Ex.row_B Ex.row_C (Ex.jan 3) (Ex.jan 17))
    as (H1 & H2 & H3).
  split; [ | split ].
  - apply H2; try reflexivity.
    apply Permutation_sym.
    apply (perm_trans (l' := [Ex.row_B; Ex.row_A; Ex.row_C])).
    + apply perm_swap.
    + apply (perm_trans (l' := [Ex.row_B; Ex.row_C; Ex.row_A])).
      * apply perm_skip, perm_swap.
      * apply perm_swap.
  - destruct (H1 eq_refl) as (_ & _ & _ & H). apply H.
    repeat constructor.
  - destruct (H3 E) as (frame & _ & _ & Ha & Hb). now exists frame.
Defined.

(** Two items: Task A with startDate 2024-01-01, and an item with no start
    date of any kind whose dueDate is 2023-12-25.  The second is given the
    start 2023-12-24 and is placed first. *)
Lemma inferred_start_sorts_first_counterexample :
  source_start Iso.iso_basic (fields_of Ex.task_a) = Some (Ex.jan 1)
  /\ source_start Iso.iso_basic (fields_of Ex.due_only) = None
  /\ match generate_gantt_chart Iso.iso_basic Ex.clock [Ex.task_a; Ex.due_only] with
     | Chart c => map (fun r => wp_id (base r)) (df_plot c) = [VInt 4; VInt 1]
     | _ => False
     end.
Proof. repeat split; vm_compute; reflexivity. Qed.

(** ** Tolerance of the extraction loop *)

Lemma link_title_ok (d : list (string * pyval)) (name default : string) :
  match lookup "_links" d with
  | None => True
  | Some (VDict l) => link_ok l name = true
  | Some _ => False
  end ->
  exists v, link_title (VDict d) name default = Ok v.
Proof.
  unfold link_title, link_ok. cbn [py_get bind].
  destruct (lookup "_links" d) as [ [ | | | | | | l ] | ]; try contradiction.
  - cbn [py_get bind].
    destruct (lookup name l) as [ [ | | | | | | s ] | ]; try discriminate;
      intros _; cbn [EMPTY py_get bind lookup]; eauto.
  - intros _. cbn [EMPTY py_get bind lookup]. eauto.
Qed.

Lemma status_title_hashable (d : list (string * pyval)) :
  links_ok d = true ->
  exists st, link_title (VDict d) "status" "Unknown" = Ok st /\ hashable st = true.
Proof.
  unfold links_ok, link_title, link_ok, status_title_ok. cbn [py_get bind].
  destruct (lookup "_links" d) as [ [ | | | | | | l ] | ]; try discriminate.
  - cbn [py_get bind]. intros H.
    apply andb_true_iff in H as [H Ht]. apply andb_true_iff in H as [H _].
    apply andb_true_iff in H as [H _].
    destruct (lookup "status" l) as [ [ | | | | | | s ] | ]; try discriminate;
      cbn [py_get bind EMPTY lookup].
    + destruct (lookup "title" s) as [v | ]; eauto.
    + eauto.
  - intros _. cbn [EMPTY py_get bind lookup]. eauto.
Qed.

Section Tolerance.

Variable fromisoformat : string -> option datetime.

Lemma resolve_dates_plain (d : list (string * pyval)) :
  date_plain (source_start fromisoformat d) = true ->
  date_plain (source_due fromisoformat d) = true ->
  exists s f,
    resolve_dates fromisoformat (VDict d) = Ok (s, f)
    /\ naive_opt s = true /\ naive_opt f = true
    /\ (source_start fromisoformat d = None ->
        source_due fromisoformat d = None -> s = None /\ f = None).
Proof.
  rewrite resolve_dates_dict. unfold date_plain, dt_add_days.
  destruct (source_start fromisoformat d) as [s | ],
           (source_due fromisoformat d) as [f | ]; intros Hs Hf;
    repeat match goal with
           | H : _ && _ = true |- _ => apply andb_true_iff in H as [H ?]
           end.
  - exists (Some s), (Some f). repeat split; trivial; discriminate.
  - replace ((0 <=? wall s + 1 * DAY_US) && (wall s + 1 * DAY_US <? MAXORDINAL * DAY_US))
      with true.
    + cbn [bind]. eexists. eexists. split; [ reflexivity | ].
      unfold naive_opt, aware in *. cbn [utcoffset]. repeat split; trivial; discriminate.
    + symmetry. apply andb_true_iff. unfold DAY_US in *. split; lia.
  - replace ((0 <=? wall f + -1 * DAY_US) && (wall f + -1 * DAY_US <? MAXORDINAL * DAY_US))
      with true.
    + cbn [bind]. eexists. eexists. split; [ reflexivity | ].
      unfold naive_opt, aware in *. cbn [utcoffset]. repeat split; trivial; discriminate.
    + symmetry. apply andb_true_iff. unfold DAY_US, MAXORDINAL in *. split; lia.
  - exists None, None. repeat split; trivial.
Qed.

Lemma status_color_naive (st : pyval) (s f : option datetime) (clock : Z) :
  hashable st = true -> naive_opt s = true -> naive_opt f = true ->
  exists col,
    _get_status_color st s f (Some (utcnow clock)) = Ok col
    /\ (s = None -> f = None ->
        exists closed, in_closed st = Ok closed
                       /\ col = if closed then Done else Unknown).
Proof.
  intros Hh Hs Hf.
  assert (Hc : exists b, in_closed st = Ok b)
    by (destruct st; try discriminate Hh; simpl; eauto).
  destruct Hc as [b Hb]. unfold _get_status_color. rewrite Hb. cbn [bind].
  destruct b; [ exists Done; split; [ reflexivity | intros _ _; now exists true ] | ].
  assert (Hcmp : forall d, negb (aware d) = true ->
                   comparable d (utcnow clock) = true
                   /\ comparable (utcnow clock) d = true).
  { intros d Hd. unfold comparable. destruct (aware d); [ discriminate | ].
    split; reflexivity. }
  unfold dt_gt, dt_lt, dt_le.
  destruct s as [s | ], f as [f | ]; cbn [naive_opt] in Hs, Hf;
    repeat match goal with
           | H : negb (aware ?d) = true |- _ =>
               rewrite ?(proj1 (Hcmp d H)), ?(proj2 (Hcmp d H)); clear H
           end; cbn [bind];
    repeat match goal with
           | |- context [if ?c then _ else _] => destruct c; cbn [bind]
           end;
    eexists; (split; [ reflexivity | ]);
    intros Hs' Hf'; try discriminate Hs'; try discriminate Hf';
    exists false; (split; [ first [ exact Hb | reflexivity ] | reflexivity ]).
Qed.

Lemma extract_one_ok (clock : Z) (wp : pyval) :
  item_ok fromisoformat wp = true ->
  exists r,
    extract_one fromisoformat (utcnow clock) wp = Ok r
    /\ row_naive r = true
    /\ link_title wp "status" "Unknown" = Ok (Status r)
    /\ (undated fromisoformat wp ->
        Start r = None /\ Finish r = None /\ MissingStart r = true
        /\ exists closed, in_closed (Status r) = Ok closed
                          /\ Color r = if closed then Done else Unknown).
Proof.
  destruct wp as [ | | | | | | d ]; try discriminate.
  unfold item_ok, undated. cbn [fields_of]. intros H.
  repeat match goal with
         | H : _ && _ = true |- _ => apply andb_true_iff in H as [H ?]
         end.
  rename H into Hsub, H0 into Hdue, H1 into Hstart, H2 into Hpct, H3 into Hlinks.
  destruct (resolve_dates_plain d Hstart Hdue) as (s & f & Hres & Hs & Hf & Hnone).
  destruct (status_title_hashable d Hlinks) as (st & Hst & Hh).
  destruct (status_color_naive st s f clock Hh Hs Hf) as (col & Hcol & Hcol').
  assert (Ha : exists v, link_title (VDict d) "assignee" "Unassigned" = Ok v).
  { apply link_title_ok. unfold links_ok in Hlinks.
    destruct (lookup "_links" d) as [ [ | | | | | | l ] | ]; try discriminate; trivial.
    apply andb_true_iff in Hlinks as [Hl _]. apply andb_true_iff in Hl as [Hl _].
    now apply andb_true_iff in Hl as [_ Hl]. }
  assert (Ht : exists v, link_title (VDict d) "type" "Task" = Ok v).
  { apply link_title_ok. unfold links_ok in Hlinks.
    destruct (lookup "_links" d) as [ [ | | | | | | l ] | ]; try discriminate; trivial.
    apply andb_true_iff in Hlinks as [Hl _]. now apply andb_true_iff in Hl as [_ Hl]. }
  destruct Ha as [assignee Ha]. destruct Ht as [type_name Ht].
  assert (Hw : exists w, wrap_subject (match lookup "subject" d with
                                        | Some v => v
                                        | None => VStr "Untitled"
                                        end) = Ok w).
  { unfold subject_ok in Hsub.
    destruct (lookup "subject" d) as [ [ | | | | | | ] | ]; try discriminate;
      simpl; eauto. }
  destruct Hw as [w Hw].
  assert (Hp : exists p,
             (if is_none (field d "percentageDone") then Ok 0%Q
              else div_100 (match lookup "percentageDone" d with
                            | Some v => v
                            | None => VInt 0
                            end)) = Ok p).
  { unfold percent_ok in Hpct. unfold field, div_100.
    destruct (lookup "percentageDone" d) as [ [ | | z | | | | ] | ];
      try discriminate; simpl; eauto.
    rewrite Hpct. cbn [bind]. eauto. }
  destruct Hp as [p Hp].
  assert (Hd : exists n, duration_of s f = Ok n).
  { unfold duration_of, dt_sub, comparable.
    destruct s as [s | ], f as [f | ]; eauto.
    cbn [naive_opt] in Hs, Hf.
    destruct (aware s), (aware f); try discriminate. cbn [Bool.eqb bind]. eauto. }
  destruct Hd as [n Hd].
  eexists. split.
  - unfold extract_one. cbn [py_get bind]. rewrite Hw. cbn [bind].
    rewrite Hres. cbn [bind]. rewrite Hst. cbn [bind].
    unfold field in Hp. rewrite Hp. cbn [bind].
    rewrite Ha, Ht. cbn [bind]. rewrite Hcol. cbn [bind]. rewrite Hd. cbn [bind].
    reflexivity.
  - cbn [Start Finish MissingStart Color Status row_naive]. split; [ | split ].
    + unfold row_naive. cbn [Start Finish]. now rewrite Hs, Hf.
    + exact Hst.
    + intros [H1 H2]. destruct (Hnone H1 H2) as [-> ->]. auto.
Qed.

Lemma extract_all_ok (clock : Z) (wps : list pyval) :
  Forall (fun wp => item_ok fromisoformat wp = true) wps ->
  exists df,
    _extract_work_package_data fromisoformat clock wps = Ok df
    /\ Forall (fun r => row_naive r = true) df
    /\ Forall2 (fun wp r =>
                  link_title wp "status" "Unknown" = Ok (Status r)
                  /\ (undated fromisoformat wp ->
                      Start r = None /\ Finish r = None /\ MissingStart r = true
                      /\ exists closed, in_closed (Status r) = Ok closed
                                        /\ Color r = if closed then Done
                                                      else Unknown)) wps df.
Proof.
  unfold _extract_work_package_data.
  induction 1 as [ | wp wps Hwp _ IH ].
  - exists []. repeat split; constructor.
  - destruct (extract_one_ok clock wp Hwp) as (r & Hr & Hn & Hst & Hu).
    destruct IH as (df & Hdf & Hns & Hus).
    exists (r :: df). cbn [mapM]. rewrite Hr. cbn [bind]. rewrite Hdf. cbn [bind].
    split; [ reflexivity | ]. split; constructor; try assumption. now split.
Qed.

End Tolerance.

Lemma mapM_total {A B : Type} (f : A -> res B) (l : list A) :
  (forall a, In a l -> exists b, f a = Ok b) -> exists l', mapM f l = Ok l'.
Proof.
  induction l as [ | a l IH ]; intros H; cbn [mapM]; [ eauto | ].
  destruct (H a (or_introl eq_refl)) as [b ->].
  destruct IH as [l' ->]; [ intros x Hx; apply H; now right | ].
  cbn [bind]. eauto.
Qed.

Lemma valid_starts_naive (df : list row) :
  Forall (fun r => row_naive r = true) df ->
  forall d, In d (valid_starts df) -> aware d = false.
Proof.
  intros H d Hd. unfold valid_starts in Hd. apply in_flat_map in Hd as (r & Hr & Hd).
  rewrite Forall_forall in H. specialize (H r Hr).
  unfold row_naive in H. apply andb_true_iff in H as [H _].
  destruct (Start r) as [s | ]; [ | destruct Hd ].
  destruct Hd as [<- | []]. cbn [naive_opt] in H. now destruct (aware s).
Qed.

Lemma week_or_none_naive (m : datetime) (o : option datetime) :
  aware m = false -> naive_opt o = true -> exists w, week_or_none m o = Ok w.
Proof.
  intros Hm Ho. destruct o as [d | ]; cbn [week_or_none]; [ | eauto ].
  cbn [naive_opt] in Ho. unfold dt_sub, comparable. rewrite Hm.
  destruct (aware d); [ discriminate | ]. cbn [Bool.eqb bind]. eauto.
Qed.

Lemma layout_naive_ok (df : list row) :
  Forall (fun r => row_naive r = true) df ->
  exists o, layout df = Ok o /\ forall e, o <> ErrorResult e.
Proof.
  intros Hn. unfold layout. destruct df as [ | r0 df0 ].
  - exists NoScheduledTasks. split; [ reflexivity | discriminate ].
  - set (df := r0 :: df0) in *. clearbody df. clear r0 df0.
    assert (Hs : sort_values df = Ok (stable_sort df)).
    { unfold sort_values. pose proof (valid_starts_naive df Hn) as Hv.
      destruct (valid_starts df) as [ | d ds ]; [ reflexivity | ].
      cbn [same_awareness].
      replace (forallb (comparable d) ds) with true; [ reflexivity | ].
      symmetry. apply forallb_forall. intros x Hx. unfold comparable.
      rewrite (Hv d (or_introl eq_refl)), (Hv x (or_intror Hx)). reflexivity. }
    rewrite Hs. cbn [bind].
    assert (Hn' : Forall (fun r => row_naive r = true) (stable_sort df))
      by (eapply Permutation_Forall; [ apply stable_sort_perm | exact Hn ]).
    assert (Hw : exists wdf, with_weeks (stable_sort df) = Ok wdf).
    { unfold with_weeks. pose proof (valid_starts_naive _ Hn') as Hv.
      destruct (valid_starts (stable_sort df)) as [ | d ds ]; [ eauto | ].
      destruct (fold_min_spec ds d) as [Hin _].
      apply Hv in Hin. apply mapM_total. intros r Hr.
      rewrite Forall_forall in Hn'. specialize (Hn' r Hr).
      unfold row_naive in Hn'. apply andb_true_iff in Hn' as [H1 H2].
      destruct (week_or_none_naive _ _ Hin H1) as [sw ->].
      destruct (week_or_none_naive _ _ Hin H2) as [fw ->].
      cbn [bind]. eauto. }
    destruct Hw as [wdf ->]. cbn [bind].
    destruct (filter has_weeks wdf);
      eexists; (split; [ reflexivity | discriminate ]).
Qed.

Section Robustness.

Variable fromisoformat : string -> option datetime.

(** C5.  On a list of items whose date fields may hold anything (text
    that is no timestamp, numbers, nothing), but whose other fields are
    of the expected kind ([item_ok]: among them a ['percentageDone'] that
    is missing, null, a bool, a float, or an int that a float can hold),
    the extraction loop does not raise.  It yields one row per item, with
    the status title of the item; an item without a usable date becomes a
    row with no start and no finish, flagged MissingStart, and coloured
    Done when its status title is 'Closed', 'closed' or 'CLOSED' and
    Unknown when it is anything else.  The call of
    [generate_gantt_chart] with the default [epic_only=False] then does
    not end in the error result. *)
Theorem malformed_dates_tolerated (clock : Z) (wps : list pyval) :
  Forall (fun wp => item_ok fromisoformat wp = true) wps ->
  (exists df,
     _extract_work_package_data fromisoformat clock wps = Ok df
     /\ Forall2 (fun wp r =>
                   link_title wp "status" "Unknown" = Ok (Status r)
                   /\ (undated fromisoformat wp ->
                       Start r = None /\ Finish r = None /\ MissingStart r = true
                       /\ exists closed,
                            in_closed (Status r) = Ok closed
                            /\ Color r = if closed then Done else Unknown))
                wps df)
  /\ forall e, generate_gantt_chart fromisoformat clock wps <> ErrorResult e.
Proof.
  intros H.
  destruct (extract_all_ok fromisoformat clock wps H) as (df & Hdf & Hn & Hu).
  split; [ now exists df | ].
  intros e. unfold generate_gantt_chart.
  destruct wps as [ | wp wps' ]; [ discriminate | ].
  rewrite Hdf. cbn [bind].
  destruct (layout_naive_ok df Hn) as (o & -> & Ho). apply Ho.
Qed.

End Robustness.

Lemma malformed_dates_tolerated_witness :
  (exists df,
     _extract_work_package_data Iso.iso_basic Ex.clock
       [Ex.task_a; Ex.undated; Ex.closed_undated] = Ok df
     /\ Forall2 (fun wp r =>
                   link_title wp "status" "Unknown" = Ok (Status r)
                   /\ (undated Iso.iso_basic wp ->
                       Start r = None /\ Finish r = None /\ MissingStart r = true
                       /\ exists closed,
                            in_closed (Status r) = Ok closed
                            /\ Color r = if closed then Done else Unknown))
                [Ex.task_a; Ex.undated; Ex.closed_undated] df)
  /\ forall e, generate_gantt_chart Iso.iso_basic Ex.clock
                 [Ex.task_a; Ex.undated; Ex.closed_undated]
               <> ErrorResult e.
Proof.
  apply (malformed_dates_tolerated Iso.iso_basic Ex.clock
           [Ex.task_a; Ex.undated; Ex.closed_undated]).
  repeat constructor.
Defined.

(** Of three items, the second with unreadable dates and the third
    closed and without dates: the last two rows are unscheduled, the one
    Unknown, the other Done, and the first is the only bar. *)
Lemma undated_rows_example :
  match _extract_work_package_data Iso.iso_basic Ex.clock
          [Ex.task_a; Ex.undated; Ex.closed_undated] with
  | Ok [a; u; c] =>
      MissingStart a = false
      /\ Start u = None /\ Finish u = None /\ MissingStart u = true
      /\ Status u = VStr "Unknown" /\ Color u = Unknown
      /\ Start c = None /\ Finish c = None /\ MissingStart c = true
      /\ Status c = VStr "Closed" /\ Color c = Done
  | _ => False
  end
  /\ match generate_gantt_chart Iso.iso_basic Ex.clock
             [Ex.task_a; Ex.undated; Ex.closed_undated] with
     | Chart c => llen (df_plot c) = 1 /\ llen (missing_start_df c) = 2
     | _ => False
     end.
Proof. vm_compute. repeat split; reflexivity. Qed.

(** A frame of two items, the second with percentageDone = "50": the
    division raises TypeError in the loop, the handler of
    [generate_gantt_chart] turns it into the error page, and the first
    item's row is lost with it. *)
Lemma text_percent_aborts_counterexample :
  generate_gantt_chart Iso.iso_basic Ex.clock [Ex.task_a; Ex.text_percent]
  = ErrorResult TypeError
  /\ (exists c, generate_gantt_chart Iso.iso_basic Ex.clock [Ex.task_a] = Chart c).
Proof. split; [ reflexivity | eexists; reflexivity ]. Qed.

(** Four more items that end the request in the error result: a
    ['percentageDone'] of 2^1024 (the int is too large to convert to a
    float), a null
    status object ([None] has no [get]), a start carrying the 'Z' suffix
    (an aware datetime cannot be ordered against the naive clock), and a
    start on 9999-12-31 without a finish (the day after is out of range). *)
Lemma other_aborting_items :
  generate_gantt_chart Iso.iso_basic Ex.clock [Ex.task_a; Ex.huge_percent]
  = ErrorResult OverflowError
  /\ generate_gantt_chart Iso.iso_basic Ex.clock [Ex.task_a; Ex.null_status]
     = ErrorResult AttributeError
  /\ generate_gantt_chart Iso.iso_basic Ex.clock [Ex.task_a; Ex.zulu_start]
     = ErrorResult TypeError
  /\ generate_gantt_chart Iso.iso_basic Ex.clock [Ex.task_a; Ex.last_day]
     = ErrorResult OverflowError.
Proof. repeat split; vm_compute; reflexivity. Qed.

(** ** Paging through the API *)

Lemma list_ascii_length (s : string) :
  List.length (list_ascii_of_string s) = String.length s.
Proof. induction s as [ | c s IH ]; simpl; congruence. Qed.

Lemma truthy_iter_nonempty (x : pyval) (items : list pyval) :
  truthy x = true -> py_iter x = Ok items -> 1 <= llen items.
Proof.
  unfold llen.
  destruct x as [ | | | | s | l | d ]; simpl; try discriminate;
    intros Ht H; injection H as <-; apply negb_true_iff, Z.eqb_neq in Ht.
  - unfold len in Ht. rewrite length_map, list_ascii_length. lia.
  - lia.
  - rewrite length_map. lia.
Qed.

(** What a turn of the loop that went through a non-empty page did. *)
Lemma page_step_inv (request : Z -> fetch pyval) (limit : Z)
    (all all' : list pyval) (k : nat) (stop : bool) :
  page_step request limit all (1 + 100 * Z.of_nat k) = Got (all', stop) ->
  (all' = all /\ stop = true)
  \/ (all' = (all ++ page_items request k)%list
      /\ 1 <= llen (page_items request k)
      /\ (exists response, request (1 + 100 * Z.of_nat k) = Got response)
      /\ (stop = false -> llen all' < limit)).
Proof.
  unfold page_step, page_items.
  destruct (request (1 + 100 * Z.of_nat k)) as [response | e]; [ | discriminate ].
  destruct (elements_of response) as [elements | e]; cbn [lift bind]; [ | discriminate ].
  destruct (truthy elements) eqn:Et; cbn [negb].
  - destruct (py_iter elements) as [items | e] eqn:Ei; cbn [bind]; [ | discriminate ].
    destruct (py_get response "total" (VInt 0)) as [total | e]; cbn [bind];
      [ | discriminate ].
    destruct (int_ge (llen (all ++ items)) total) as [reached | e]; cbn [bind];
      [ | discriminate ].
    intros H. injection H as <- <-. right.
    split; [ reflexivity | ].
    split; [ eapply truthy_iter_nonempty; eassumption | ].
    split; [ eauto | ].
    intros H. apply orb_false_iff in H as [_ H]. apply Z.leb_gt in H. exact H.
  - intros H. injection H as <- <-. now left.
Qed.

Lemma llen_app {A : Type} (l l' : list A) : llen (l ++ l') = llen l + llen l'.
Proof. unfold llen. rewrite length_app. lia. Qed.

Lemma next_offset (k : nat) : 1 + 100 * Z.of_nat k + 100 = 1 + 100 * Z.of_nat (S k).
Proof. lia. Qed.

Lemma fetch_pages_terminates (request : Z -> fetch pyval) (limit : Z) :
  forall (fuel : nat) (all : list pyval) (k : nat),
    (Z.to_nat (Z.max 1 (limit - llen all)) <= fuel)%nat ->
    exists r, fetch_pages fuel request limit all (1 + 100 * Z.of_nat k) = Some r.
Proof.
  induction fuel as [ | fuel IH ]; intros all k Hf; [ lia | ].
  cbn [fetch_pages].
  destruct (page_step request limit all (1 + 100 * Z.of_nat k)) as [[all' stop] | e] eqn:E;
    [ | eauto ].
  destruct stop; [ eauto | ].
  apply page_step_inv in E as [[_ E] | (-> & Hp & _ & Hl)]; [ discriminate E | ].
  rewrite next_offset. apply IH.
  specialize (Hl eq_refl). rewrite llen_app in *. lia.
Qed.

Lemma fetch_pages_more_fuel (request : Z -> fetch pyval) (limit : Z) :
  forall (fuel fuel' : nat) (all : list pyval) (offset : Z) (r : fetch (list pyval)),
    (fuel <= fuel')%nat ->
    fetch_pages fuel request limit all offset = Some r ->
    fetch_pages fuel' request limit all offset = Some r.
Proof.
  induction fuel as [ | fuel IH ]; intros fuel' all offset r Hf H; [ discriminate H | ].
  destruct fuel' as [ | fuel' ]; [ lia | ].
  cbn [fetch_pages] in *.
  destruct (page_step request limit all offset) as [[all' [ | ]] | e]; trivial.
  apply (IH fuel'); [ lia | exact H ].
Qed.

Lemma fetch_pages_content (request : Z -> fetch pyval) (limit : Z) :
  forall (fuel : nat) (all : list pyval) (k : nat) (l : list pyval),
    fetch_pages fuel request limit all (1 + 100 * Z.of_nat k) = Some (Got l) ->
    exists n,
      (n <= fuel)%nat
      /\ l = (all ++ flat_map (page_items request) (seq k n))%list
      /\ (forall i, (k <= i < k + n)%nat ->
            (exists response, request (1 + 100 * Z.of_nat i) = Got response)
            /\ 1 <= llen (page_items request i))
      /\ ((2 <= n)%nat ->
          llen (all ++ flat_map (page_items request) (seq k (n - 1))) < limit).
Proof.
  induction fuel as [ | fuel IH ]; intros all k l H; [ discriminate H | ].
  cbn [fetch_pages] in H.
  destruct (page_step request limit all (1 + 100 * Z.of_nat k)) as [[all' stop] | e] eqn:E;
    [ | discriminate H ].
  apply page_step_inv in E as [[-> ->] | (-> & Hp & Hr & Hl)].
  - injection H as <-. exists 0%nat. cbn [seq flat_map]. rewrite app_nil_r.
    repeat split; try lia.
  - destruct stop.
    + injection H as <-. exists 1%nat. cbn [seq flat_map]. rewrite app_nil_r.
      split; [ lia | ]. split; [ reflexivity | ]. split; [ | lia ].
      intros i Hi. assert (i = k) as -> by lia. now split.
    + rewrite next_offset in H. apply IH in H as (n & Hn & -> & Hreq & Hb).
      exists (S n). split; [ lia | ].
      split; [ cbn [seq flat_map]; now rewrite app_assoc | ].
      split.
      * intros i Hi. destruct (Nat.eq_dec i k) as [-> | Hne]; [ now split | ].
        apply Hreq. lia.
      * intros _. destruct n as [ | [ | n ] ].
        -- cbn [Nat.sub seq flat_map]. rewrite app_nil_r.
           specialize (Hl eq_refl). rewrite llen_app in Hl. lia.
        -- cbn [Nat.sub seq flat_map]. rewrite app_nil_r. now apply Hl.
        -- replace (S (S (S n)) - 1)%nat with (S (S n - 0))%nat by lia.
           cbn [seq flat_map]. rewrite app_assoc.
           replace (S n - 0)%nat with (S (S n) - 1)%nat by lia.
           apply Hb. lia.
Qed.

Lemma fetch_pages_offsets (request request' : Z -> fetch pyval) (limit : Z) :
  (forall k : nat, request (1 + 100 * Z.of_nat k) = request' (1 + 100 * Z.of_nat k)) ->
  forall (fuel : nat) (all : list pyval) (k : nat),
    fetch_pages fuel request limit all (1 + 100 * Z.of_nat k)
    = fetch_pages fuel request' limit all (1 + 100 * Z.of_nat k).
Proof.
  intros Heq. induction fuel as [ | fuel IH ]; intros all k; [ reflexivity | ].
  cbn [fetch_pages]. unfold page_step. rewrite <- Heq.
  destruct (request (1 + 100 * Z.of_nat k)) as [response | e]; [ | reflexivity ].
  destruct (lift _) as [[all' [ | ]] | e]; trivial.
  rewrite next_offset. apply IH.
Qed.

Lemma first_pages_last (request : Z -> fetch pyval) (n : nat) :
  first_pages request (S n)
  = (first_pages request n ++ page_items request n)%list.
Proof.
  unfold first_pages. rewrite seq_S, flat_map_app. cbn [flat_map Nat.add].
  now rewrite app_nil_r.
Qed.

(** The loop as both methods start it. *)
Lemma paged_result (request : Z -> fetch pyval) (limit : Z) :
  (exists r,
     fetch_pages (request_bound limit) request limit [] 1 = Some r
     /\ forall fuel, (request_bound limit <= fuel)%nat ->
          fetch_pages fuel request limit [] 1 = Some r)
  /\ forall l,
       fetch_pages (request_bound limit) request limit [] 1 = Some (Got l) ->
       exists n,
         (n <= request_bound limit)%nat
         /\ l = first_pages request n
         /\ (forall i, (i < n)%nat ->
               (exists response, request (1 + 100 * Z.of_nat i) = Got response)
               /\ 1 <= llen (page_items request i))
         /\ (1 <= limit -> llen (first_pages request (n - 1)) < limit)
         /\ (1 <= limit -> (forall i, llen (page_items request i) <= 100) ->
             llen l < limit + 100).
Proof.
  change 1 with (1 + 100 * Z.of_nat 0) at 1 2 3.
  split.
  - destruct (fetch_pages_terminates request limit (request_bound limit) [] 0)
      as [r Hr]; [ unfold request_bound, llen; cbn [List.length]; lia | ].
    exists r. split; [ exact Hr | ].
    intros fuel Hf. eapply fetch_pages_more_fuel; eassumption.
  - intros l H. apply fetch_pages_content in H as (n & Hn & Hl & Hreq & Hb).
    cbn [app] in Hl, Hb. fold (first_pages request n) in Hl.
    fold (first_pages request (n - 1)) in Hb.
    assert (Hprefix : 1 <= limit -> llen (first_pages request (n - 1)) < limit).
    { intros Hlim. destruct n as [ | [ | n ] ]; try (cbn; unfold llen; cbn; lia).
      apply Hb. lia. }
    exists n. split; [ exact Hn | ]. split; [ exact Hl | ].
    split; [ intros i Hi; apply Hreq; lia | ].
    split; [ exact Hprefix | ].
    intros Hlim Hsize. subst l. destruct n as [ | n ].
    + unfold first_pages, llen. cbn. lia.
    + rewrite first_pages_last, llen_app.
      specialize (Hprefix Hlim). replace (S n - 1)%nat with n in Hprefix by lia.
      specialize (Hsize n). lia.
Qed.

Lemma rstrip_slash_app (s : string) : rstrip_slash (s ++ "/") = rstrip_slash s.
Proof.
  induction s as [ | c s IH ]; [ reflexivity | ].
  cbn [String.append rstrip_slash]. now rewrite IH.
Qed.

Lemma rstrip_slash_no_trailing (s : string) :
  forall t, rstrip_slash s <> t ++ "/".
Proof.
  induction s as [ | c s IH ]; intros t; cbn [rstrip_slash].
  - destruct t; discriminate.
  - destruct (rstrip_slash s) as [ | c' r ] eqn:E.
    + destruct (Ascii.eqb_spec c "/"%char) as [-> | Hc].
      * destruct t; discriminate.
      * destruct t as [ | c1 [ | c2 t ] ]; cbn; intros H; injection H; try congruence;
          intros H'; destruct t; discriminate H'.
    + destruct t as [ | c1 t ]; cbn; intros H; injection H as Hc Ht.
      * discriminate Ht.
      * exact (IH t Ht).
Qed.

(** A first page that is empty, or that already holds [total] or [limit]
    items, ends the loop. *)
Lemma first_page_ends (request : Z -> fetch pyval) (limit : Z)
    (d : list (string * pyval)) (items : list pyval) :
  request 1 = Got (VDict d) ->
  elements_of (VDict d) = Ok (VList items) ->
  (items = [] -> fetch_pages (request_bound limit) request limit [] 1 = Some (Got []))
  /\ (items <> [] -> lookup "total" d = None ->
      fetch_pages (request_bound limit) request limit [] 1 = Some (Got items))
  /\ (forall total, items <> [] -> lookup "total" d = Some (VInt total) ->
      total <= llen items \/ limit <= llen items ->
      fetch_pages (request_bound limit) request limit [] 1 = Some (Got items)).
Proof.
  intros Hreq Hel.
  assert (Hfuel : exists f, request_bound limit = S f).
  { unfold request_bound. exists (Z.to_nat (Z.max 1 limit) - 1)%nat. lia. }
  destruct Hfuel as [f Hf].
  rewrite Hf. cbn [fetch_pages]. unfold page_step.
  rewrite Hreq, Hel. cbn [lift bind truthy py_iter py_get app].
  repeat split.
  - intros ->. reflexivity.
  - intros Hne Ht. rewrite Ht.
    replace (negb (negb (Z.of_nat (Datatypes.length items) =? 0))) with false.
    + cbn [int_ge bind]. replace (0 <=? llen items) with true; [ reflexivity | ].
      symmetry. apply Z.leb_le. unfold llen. lia.
    + destruct items; [ contradiction | reflexivity ].
  - intros total Hne Ht Hor. rewrite Ht.
    replace (negb (negb (Z.of_nat (Datatypes.length items) =? 0))) with false.
    + cbn [int_ge bind].
      replace ((total <=? llen items) || (limit <=? llen items)) with true;
        [ reflexivity | ].
      symmetry. apply orb_true_iff. rewrite !Z.leb_le. exact Hor.
    + destruct items; [ contradiction | reflexivity ].
Qed.

Section ClientProperties.

Variable session_request : string -> query -> fetch pyval.

(** X1.  The paging loops of [get_projects] and [get_work_packages] always
    come to an end, whatever the server answers and whatever [limit] is:
    after at most max(1, limit) requests the call has returned a list or
    raised. *)
Theorem pagination_terminates (self : OpenProjectClient) (project_id limit : Z) :
  (exists r, get_projects session_request self limit = Some r)
  /\ (exists r, get_work_packages session_request self project_id limit = Some r).
Proof.
  unfold get_projects, get_work_packages. split.
  - destruct (proj1 (paged_result
        (fun offset => _make_request session_request self "/projects"
                         (projects_query offset)) limit)) as (r & Hr & _).
    eauto.
  - destruct (proj1 (paged_result
        (fun offset => _make_request session_request self "/work_packages"
                         (work_packages_query project_id offset)) limit)) as (r & Hr & _).
    eauto.
Qed.

(** X2.  A list returned by [get_work_packages] is the concatenation, in
    order, of the elements of the pages requested at offsets 1, 101, 201,
    ...: every one of these requests succeeded and gave a non-empty page,
    at most max(1, limit) pages were read, and for a limit of at least 1
    the pages before the last hold fewer than [limit] items together.
    [limit] is checked after a whole page is added, so the list can exceed
    it: with pages of at most 100 items it stays below limit + 100. *)
Theorem work_packages_are_first_pages
    (self : OpenProjectClient) (project_id limit : Z) (l : list pyval) :
  let request := fun offset =>
    session_request (base_url self ++ "/api/v3/work_packages")
                    (work_packages_query project_id offset) in
  get_work_packages session_request self project_id limit = Some (Got l) ->
  exists n,
    (n <= request_bound limit)%nat
    /\ l = first_pages request n
    /\ (forall i, (i < n)%nat ->
          (exists response, request (1 + 100 * Z.of_nat i) = Got response)
          /\ 1 <= llen (page_items request i))
    /\ (1 <= limit -> llen (first_pages request (n - 1)) < limit)
    /\ (1 <= limit -> (forall i, llen (page_items request i) <= 100) ->
        llen l < limit + 100).
Proof.
  intros request H. apply (proj2 (paged_result request limit)). exact H.
Qed.

(** X3.  One request is all [get_work_packages] makes when the first page
    settles the matter: an empty first page gives the empty list; a
    non-empty first page is returned as it is when the response has no
    [total], or when [total] is an integer and the page already holds
    [total] or [limit] items. *)
Theorem first_page_suffices
    (self : OpenProjectClient) (project_id limit : Z)
    (d : list (string * pyval)) (items : list pyval) :
  session_request (base_url self ++ "/api/v3/work_packages")
                  (work_packages_query project_id 1) = Got (VDict d) ->
  elements_of (VDict d) = Ok (VList items) ->
  (items = [] ->
   get_work_packages session_request self project_id limit = Some (Got []))
  /\ (items <> [] -> lookup "total" d = None ->
      get_work_packages session_request self project_id limit = Some (Got items))
  /\ (forall total, items <> [] -> lookup "total" d = Some (VInt total) ->
      total <= llen items \/ limit <= llen items ->
      get_work_packages session_request self project_id limit = Some (Got items)).
Proof.
  intros Hreq Hel. unfold get_work_packages.
  apply (first_page_ends _ limit d items); assumption.
Qed.

End ClientProperties.

Lemma rstrip_slash_idempotent (s : string) :
  rstrip_slash (rstrip_slash s) = rstrip_slash s.
Proof.
  induction s as [ | c s IH ]; [ reflexivity | ].
  cbn [rstrip_slash]. destruct (rstrip_slash s) as [ | c' r ] eqn:E.
  - destruct (Ascii.eqb c "/"%char) eqn:Ec; [ reflexivity | ].
    cbn [rstrip_slash]. now rewrite Ec.
  - cbn [rstrip_slash] in *. now rewrite IH.
Qed.

Lemma rstrip_slash_slashes (s : string) (n : nat) :
  rstrip_slash (s ++ Ex.replicate n "/") = rstrip_slash s.
Proof.
  revert s. induction n as [ | n IH ]; intros s; cbn [Ex.replicate].
  - f_equal. induction s as [ | c s IHs ]; cbn; congruence.
  - replace (s ++ String "/" (Ex.replicate n "/"))
      with ((s ++ "/") ++ Ex.replicate n "/").
    + now rewrite IH, rstrip_slash_app.
    + induction s as [ | c s IHs ]; cbn; congruence.
Qed.

Section RequestProperties.

Variables session_request session_request' : string -> query -> fetch pyval.

(** X4.  The offset is advanced by the page size, so the only offsets the
    client ever asks for are 1, 101, 201, ...: two servers that answer
    alike at these offsets give the same result, for work packages and for
    projects, however they differ elsewhere. *)
Theorem only_strided_offsets (self : OpenProjectClient) (project_id limit : Z) :
  ((forall k : nat,
      session_request (base_url self ++ "/api/v3/work_packages")
                      (work_packages_query project_id (1 + 100 * Z.of_nat k))
      = session_request' (base_url self ++ "/api/v3/work_packages")
                         (work_packages_query project_id (1 + 100 * Z.of_nat k))) ->
   get_work_packages session_request self project_id limit
   = get_work_packages session_request' self project_id limit)
  /\
  ((forall k : nat,
      session_request (base_url self ++ "/api/v3/projects")
                      (projects_query (1 + 100 * Z.of_nat k))
      = session_request' (base_url self ++ "/api/v3/projects")
                         (projects_query (1 + 100 * Z.of_nat k))) ->
   get_projects session_request self limit
   = get_projects session_request' self limit).
Proof.
  split; intros H; unfold get_work_packages, get_projects;
    change 1 with (1 + 100 * Z.of_nat 0) at 1 2;
    apply fetch_pages_offsets; intros k; apply H.
Qed.

(** X5.  Trailing slashes of the configured URL do not matter: a client
    built from [url] followed by any number of slashes sends every request
    to the same address as the client built from [url]; the stored base
    URL never ends in a slash, and building a client from it changes
    nothing. *)
Theorem trailing_slashes_ignored
    (url key endpoint : string) (params : query) (n : nat) :
  _make_request session_request (new_client (url ++ Ex.replicate n "/") key)
                endpoint params
  = _make_request session_request (new_client url key) endpoint params
  /\ (forall t, base_url (new_client url key) <> t ++ "/")
  /\ new_client (base_url (new_client url key)) key = new_client url key.
Proof.
  unfold _make_request, new_client. cbn [base_url].
  split; [ now rewrite rstrip_slash_slashes | ].
  split; [ apply rstrip_slash_no_trailing | ].
  now rewrite rstrip_slash_idempotent.
Qed.

(** [get_work_package_relations] answers a failed request with the empty
    list, and a response without [_embedded] likewise. *)
Lemma relations_swallow_request_errors
    (self : OpenProjectClient) (work_package_id : Z) (d : list (string * pyval)) :
  let url := base_url self ++ "/api/v3/work_packages/"
             ++ str_int work_package_id ++ "/relations" in
  get_work_package_relations session_request self work_package_id
  <> Failed RequestException
  /\ (session_request url None = Failed RequestException ->
      get_work_package_relations session_request self work_package_id
      = Got (VList []))
  /\ (session_request url None = Got (VDict d) ->
      lookup "_embedded" d = None ->
      get_work_package_relations session_request self work_package_id
      = Got (VList [])).
Proof.
  intros url. unfold get_work_package_relations, _make_request.
  replace (base_url self ++ "/api/v3" ++ "/work_packages/"
           ++ str_int work_package_id ++ "/relations") with url by reflexivity.
  repeat split.
  - destruct (session_request url None) as [response | [ | e ]]; try discriminate.
    destruct (elements_of response); discriminate.
  - intros ->. reflexivity.
  - intros -> Hd. unfold elements_of. cbn [py_get bind lift]. now rewrite Hd.
Qed.

End RequestProperties.

(** ** The error text of the index page *)

Lemma prefix_iff (p s : string) :
  String.prefix p s = true <-> exists b, s = p ++ b.
Proof.
  revert s. induction p as [ | c p IH ]; intros s.
  - split; [ intros _; now exists s | destruct s; reflexivity ].
  - destruct s as [ | c' s ];
      [ split; [ discriminate | intros [b H]; discriminate H ] | ].
    simpl. destruct (ascii_dec c c') as [-> | Hc].
    + rewrite IH. split; intros [b H]; exists b; [ now subst | now injection H ].
    + split; [ discriminate | intros [b H]; injection H; congruence ].
Qed.

Lemma contains_iff (p s : string) :
  contains p s = true <-> exists a b, s = a ++ p ++ b.
Proof.
  induction s as [ | c s IH ]; cbn [contains]; rewrite orb_true_iff, prefix_iff.
  - split.
    + intros [[b H] | H]; [ | discriminate H ]. now exists "", b.
    + intros (a & b & H). left. destruct a; [ now exists b | discriminate H ].
  - rewrite IH. split.
    + intros [[b H] | (a & b & H)]; [ now exists "", b | ].
      exists (String c a), b. cbn. now rewrite H.
    + intros (a & b & H). destruct a as [ | c' a ]; [ left; now exists b | ].
      right. injection H as _ H. now exists a, b.
Qed.

(** X6.  The message of the index page is chosen by the first substring
    found in the text of the exception, in this order: "Authentication
    failed" or "401" gives the API-key message, whatever else the text
    holds (a URL with offset=401 in it is enough); "403" without those
    gives the permissions message; "Connection" without any of those gives
    the cannot-connect message naming the configured URL; a text with none
    of the four is shown as it is. *)
Theorem error_text_precedence (error_msg url a b : string) :
  (error_msg = a ++ "401" ++ b \/ error_msg = a ++ "Authentication failed" ++ b ->
   error_text error_msg url = AUTH_FAILED)
  /\ (error_msg = a ++ "403" ++ b ->
      contains "Authentication failed" error_msg = false ->
      contains "401" error_msg = false ->
      error_text error_msg url = FORBIDDEN)
  /\ (error_msg = a ++ "Connection" ++ b ->
      contains "Authentication failed" error_msg = false ->
      contains "401" error_msg = false ->
      contains "403" error_msg = false ->
      error_text error_msg url
      = "Cannot connect to OpenProject at " ++ url
        ++ ". Please check your OPENPROJECT_URL environment variable.")
  /\ (contains "Authentication failed" error_msg = false ->
      contains "401" error_msg = false ->
      contains "403" error_msg = false ->
      contains "Connection" error_msg = false ->
      error_text error_msg url = error_msg).
Proof.
  unfold error_text. repeat split.
  - intros [H | H].
    + replace (contains "401" error_msg) with true;
        [ now rewrite orb_true_r | symmetry; apply contains_iff; eauto ].
    + replace (contains "Authentication failed" error_msg) with true;
        [ reflexivity | symmetry; apply contains_iff; eauto ].
  - intros H -> ->. replace (contains "403" error_msg) with true;
      [ reflexivity | symmetry; apply contains_iff; eauto ].
  - intros H -> -> ->. replace (contains "Connection" error_msg) with true;
      [ reflexivity | symmetry; apply contains_iff; eauto ].
  - intros -> -> -> ->. reflexivity.
Qed.

(** ** The summary and the axes of a chart *)

Lemma layout_inv (df : list row) (c : chart) :
  layout df = Ok (Chart c) ->
  exists wdf,
    with_weeks (stable_sort df) = Ok wdf
    /\ df_plot c = filter has_weeks wdf
    /\ missing_start_df c = filter (fun r => MissingStart (base r)) wdf
    /\ y_labels c = (rev (map (fun r => Task (base r)) (missing_start_df c))
                     ++ rev (map (fun r => Task (base r)) (df_plot c)))%list
    /\ max_of (flat_map (fun r => opt_list (FinishWeek r)) (df_plot c))
       = Some (max_week c)
    /\ total_tasks c = llen wdf
    /\ min_start_week c = min_of (flat_map (fun r => opt_list (StartWeek r)) wdf)
    /\ max_finish_week c = max_of (flat_map (fun r => opt_list (FinishWeek r)) wdf).
Proof.
  unfold layout. destruct df as [ | r0 df0 ]; [ discriminate | ].
  set (df := r0 :: df0). clearbody df. clear r0 df0.
  intros H. apply bind_ok in H as (sdf & Hsort & H).
  apply bind_ok in H as (wdf & Hweeks & H).
  unfold sort_values in Hsort.
  destruct (same_awareness (valid_starts df)); [ | discriminate ].
  injection Hsort as <-.
  destruct (filter has_weeks wdf) as [ | w ws ] eqn:E; [ discriminate | ].
  assert (Hw : has_weeks w = true).
  { assert (In w (filter has_weeks wdf)) as Hin by (rewrite E; now left).
    now apply filter_In in Hin. }
  injection H as <-. exists wdf. rewrite E.
  cbn [df_plot missing_start_df y_labels max_week total_tasks
       min_start_week max_finish_week].
  repeat split; trivial.
  cbn [flat_map].
  destruct (max_of (opt_list (FinishWeek w)
                    ++ flat_map (fun r => opt_list (FinishWeek r)) ws))
    as [m | ] eqn:Em; [ reflexivity | ].
  exfalso. unfold has_weeks in Hw. destruct (StartWeek w); [ | discriminate ].
  destruct (FinishWeek w); [ | discriminate ]. discriminate Em.
Qed.

Lemma max_of_spec (l : list Z) (m : Z) :
  max_of l = Some m -> In m l /\ forall x, In x l -> x <= m.
Proof.
  destruct l as [ | a l ]; [ discriminate | ]. cbn [max_of]. intros H. injection H as <-.
  revert a. induction l as [ | b l IH ]; intros a; cbn [fold_left].
  - split; [ now left | intros x [<- | []]; lia ].
  - destruct (IH (Z.max a b)) as [Hin Hle]. split.
    + destruct Hin as [Hin | Hin]; [ | now right; right ].
      rewrite <- Hin. destruct (Z.max_spec a b) as [[_ ->] | [_ ->]];
        [ right; now left | now left ].
    + pose proof (Hle (Z.max a b) (or_introl eq_refl)).
      intros x [<- | [<- | Hx]]; try lia. apply Hle. now right.
Qed.

Lemma min_of_spec (l : list Z) (m : Z) :
  min_of l = Some m -> In m l /\ forall x, In x l -> m <= x.
Proof.
  destruct l as [ | a l ]; [ discriminate | ]. cbn [min_of]. intros H. injection H as <-.
  revert a. induction l as [ | b l IH ]; intros a; cbn [fold_left].
  - split; [ now left | intros x [<- | []]; lia ].
  - destruct (IH (Z.min a b)) as [Hin Hle]. split.
    + destruct Hin as [Hin | Hin]; [ | now right; right ].
      rewrite <- Hin. destruct (Z.min_spec a b) as [[_ ->] | [_ ->]];
        [ now left | right; now left ].
    + pose proof (Hle (Z.min a b) (or_introl eq_refl)).
      intros x [<- | [<- | Hx]]; try lia. apply Hle. now right.
Qed.

Lemma min_of_least (l : list Z) (m : Z) :
  In m l -> (forall x, In x l -> m <= x) -> min_of l = Some m.
Proof.
  intros Hin Hle. destruct (min_of l) as [m' | ] eqn:E.
  - apply min_of_spec in E as [Hin' Hle']. f_equal.
    specialize (Hle m' Hin'). specialize (Hle' m Hin). lia.
  - destruct l; [ destruct Hin | discriminate E ].
Qed.

Lemma mapM_length {A B : Type} (f : A -> res B) (l : list A) (l' : list B) :
  mapM f l = Ok l' -> List.length l' = List.length l.
Proof.
  intros H. apply mapM_ok in H. induction H; cbn; congruence.
Qed.

Lemma flat_map_filter_weeks (f : week_row -> list Z) (wdf : list week_row) :
  (forall w, In w wdf -> has_weeks w = false -> f w = []) ->
  flat_map f (filter has_weeks wdf) = flat_map f wdf.
Proof.
  induction wdf as [ | w wdf IH ]; intros H; [ reflexivity | ].
  cbn [filter flat_map]. destruct (has_weeks w) eqn:E; cbn [flat_map].
  - rewrite IH; [ reflexivity | ]. intros x Hx. apply H. now right.
  - rewrite (H w (or_introl eq_refl) E), IH; [ reflexivity | ].
    intros x Hx. apply H. now right.
Qed.

Lemma week_self (m : datetime) : week m m = 1.
Proof. unfold week, days. rewrite Z.sub_diag. reflexivity. Qed.

Section SummaryProperties.

Variable fromisoformat : string -> option datetime.

Lemma chart_frame (clock : Z) (wps : list pyval) (c : chart) :
  generate_gantt_chart fromisoformat clock wps = Chart c ->
  exists frame wdf,
    _extract_work_package_data fromisoformat clock wps = Ok frame
    /\ List.length frame = List.length wps
    /\ Forall (fun r => row_wf r /\ (Finish r = None <-> Start r = None)) frame
    /\ layout frame = Ok (Chart c)
    /\ with_weeks (stable_sort frame) = Ok wdf
    /\ map base wdf = stable_sort frame
    /\ stable_sort frame
       = (map base (df_plot c) ++ map base (missing_start_df c))%list.
Proof.
  intros H. apply generate_chart_inv in H as (frame & Hframe & H).
  destruct (extract_frame_wf fromisoformat _ _ _ Hframe) as [Hwf _].
  destruct (layout_inv _ _ H) as (wdf & Hweeks & _).
  destruct (layout_order frame c Hwf H) as [H1 H2].
  exists frame, wdf. split; [ exact Hframe | ].
  split; [ exact (mapM_length _ _ _ Hframe) | ].
  split; [ exact Hwf | ]. split; [ exact H | ]. split; [ exact Hweeks | ].
  split; [ now apply with_weeks_rows in Hweeks | ].
  rewrite H1, H2.
  rewrite <- (stable_sort_missing frame)
    by (eapply Forall_impl; [ | exact Hwf ]; now intros r [? _]).
  apply sorted_missing_last, stable_sort_sorted.
Qed.

(** X7.  When [generate_gantt_chart] is called with the default
    [epic_only=False], as the route /gantt does, a chart leaves no work
    package out: the task count of the summary is the number of work
    packages fetched, the bars and the "(No start date)" annotations
    together number as many, and so do the labels of the y axis.  (With
    [epic_only=True] the frame is filtered first, and the counts are
    those of the rows kept.) *)
Theorem chart_counts_every_item (clock : Z) (wps : list pyval) (c : chart) :
  generate_gantt_chart fromisoformat clock wps = Chart c ->
  total_tasks c = llen wps
  /\ llen (df_plot c) + llen (missing_start_df c) = llen wps
  /\ llen (y_labels c) = llen wps.
Proof.
  intros H.
  destruct (chart_frame _ _ _ H)
    as (frame & wdf & _ & Hlen & _ & Hl & Hweeks & Hbase & Hsplit).
  destruct (layout_inv _ _ Hl) as (wdf' & Hw' & _ & _ & Hy & _ & Ht & _).
  assert (Hsorted : List.length (stable_sort frame) = List.length wps)
    by (rewrite <- (Permutation_length (stable_sort_perm frame)); exact Hlen).
  assert (Hparts : llen (df_plot c) + llen (missing_start_df c) = llen wps).
  { unfold llen. rewrite <- Hsorted, Hsplit, length_app, !length_map. lia. }
  split; [ | split; [ exact Hparts | ] ].
  - rewrite Ht. unfold llen. f_equal.
    rewrite <- Hsorted.
    assert (wdf' = wdf) as -> by congruence.
    now rewrite <- Hbase, length_map.
  - rewrite Hy. unfold llen in *.
    rewrite length_app, !length_rev, !length_map. lia.
Qed.

(** X8.  The category array of the y axis is the task labels of the sorted
    frame, in the order of [sort_values], read backwards.  The bars
    followed by the annotated rows are the rows of the frame, each once. *)
Theorem y_axis_is_reversed_order (clock : Z) (wps : list pyval) (c : chart) :
  generate_gantt_chart fromisoformat clock wps = Chart c ->
  exists frame,
    _extract_work_package_data fromisoformat clock wps = Ok frame
    /\ y_labels c = rev (map Task (stable_sort frame))
    /\ Permutation (map base (df_plot c ++ missing_start_df c)) frame.
Proof.
  intros H.
  destruct (chart_frame _ _ _ H)
    as (frame & wdf & Hframe & _ & _ & Hl & _ & _ & Hsplit).
  destruct (layout_inv _ _ Hl) as (_ & _ & _ & _ & Hy & _).
  exists frame. split; [ exact Hframe | ]. split.
  - rewrite Hy, Hsplit, map_app, rev_app_distr, !map_map. reflexivity.
  - rewrite map_app, <- Hsplit. apply Permutation_sym, stable_sort_perm.
Qed.

Lemma In_week_ticks (c : chart) (w : Z) :
  1 <= w <= max_week c + 1 -> In w (week_ticks c).
Proof.
  intros H. unfold week_ticks. apply in_map_iff.
  exists (Z.to_nat (w - 1)). split; [ lia | ].
  apply in_seq. lia.
Qed.

(** X9.  The week range of the summary starts at week 1 and ends at the
    last week of the x axis, which is at least week 2.  Every bar starts
    at week 1 or later and ends between week 1 and the last week, on a
    tick of the axis; a bar that ends after it starts also starts on a
    tick. *)
Theorem week_axis_bounds (clock : Z) (wps : list pyval) (c : chart) :
  generate_gantt_chart fromisoformat clock wps = Chart c ->
  min_start_week c = Some 1
  /\ max_finish_week c = Some (max_week c)
  /\ 2 <= max_week c
  /\ forall r, In r (df_plot c) ->
       exists sw fw,
         StartWeek r = Some sw /\ FinishWeek r = Some fw
         /\ 1 <= sw
         /\ 1 <= fw <= max_week c
         /\ In fw (week_ticks c)
         /\ (sw < fw -> In sw (week_ticks c)).
Proof.
  intros H.
  destruct (chart_frame _ _ _ H)
    as (frame & wdf & _ & _ & Hwf & Hl & Hweeks & Hbase & _).
  destruct (layout_inv _ _ Hl)
    as (wdf' & Hw' & Hplot & _ & _ & Hmax & _ & Hmin & Hmaxf).
  assert (wdf' = wdf) as -> by congruence. clear Hw'.
  pose proof (with_weeks_has_weeks _ _ Hweeks) as Hhas.
  assert (Hwf' : Forall (fun r => row_wf r /\ (Finish r = None <-> Start r = None))
                        (stable_sort frame))
    by (eapply Permutation_Forall; [ apply stable_sort_perm | exact Hwf ]).
  rewrite Forall_forall in Hwf'.
  (* a row with one week number has both *)
  assert (Hboth : forall w, In w wdf -> has_weeks w = false ->
                    StartWeek w = None /\ FinishWeek w = None).
  { intros w Hw Hf. rewrite (Hhas w Hw) in Hf.
    destruct (Hwf' (base w)) as [_ Hiff]; [ rewrite <- Hbase; now apply in_map | ].
    unfold with_weeks in Hweeks.
    assert (Hnone : Start (base w) = None /\ Finish (base w) = None).
    { destruct (Start (base w)), (Finish (base w)); try discriminate Hf; auto.
      - destruct Hiff as [Hiff _]. now specialize (Hiff eq_refl).
      - destruct Hiff as [_ Hiff]. now specialize (Hiff eq_refl). }
    destruct Hnone as [Hs Hfi].
    destruct (valid_starts (stable_sort frame)) as [ | d ds ].
    - injection Hweeks as <-. apply in_map_iff in Hw as (r & <- & _). now split.
    - apply mapM_ok in Hweeks. clear - Hweeks Hw Hs Hfi.
      induction Hweeks as [ | r w' l l' Hr _ IH ]; [ destruct Hw | ].
      destruct Hw as [<- | Hw]; [ | now apply IH ].
      apply bind_ok in Hr as (sw & Hsw & Hr). apply bind_ok in Hr as (fw & Hfw & Hr).
      injection Hr as <-. cbn [base StartWeek FinishWeek] in *.
      rewrite Hs in Hsw. rewrite Hfi in Hfw. cbn in Hsw, Hfw.
      injection Hsw as <-. injection Hfw as <-. now split. }
  apply with_weeks_rows in Hweeks as [_ [[_ Hnone] | (m & Hin & Hle & Hrows)]].
  { exfalso. destruct (df_plot c) as [ | w ws ] eqn:E.
    - discriminate Hmax.
    - assert (Hw : In w (filter has_weeks wdf)) by (rewrite <- Hplot; now left).
      apply filter_In in Hw as [Hw1 Hw2]. rewrite (Hnone w Hw1) in Hw2. discriminate. }
  (* the row that starts first *)
  assert (Hfirst : exists w0, In w0 wdf /\ has_weeks w0 = true
                              /\ Start (base w0) = Some m).
  { unfold valid_starts in Hin. apply in_flat_map in Hin as (r0 & Hr0 & Hm).
    destruct (Start r0) as [s | ] eqn:Es; [ | destruct Hm ].
    destruct Hm as [<- | []].
    rewrite <- Hbase in Hr0. apply in_map_iff in Hr0 as (w0 & <- & Hw0).
    exists w0. split; [ exact Hw0 | ]. split; [ | exact Es ].
    rewrite (Hhas w0 Hw0), Es.
    destruct (Hwf' (base w0)) as [_ [Hiff _]]; [ rewrite <- Hbase; now apply in_map | ].
    destruct (Finish (base w0)); [ reflexivity | ].
    specialize (Hiff eq_refl). congruence. }
  destruct Hfirst as (w0 & Hw0 & Hh0 & Hs0).
  destruct (Hrows w0 Hw0 Hh0) as (s0 & f0 & Hs0' & Hf0 & Hsw0 & Hfw0).
  assert (s0 = m) as -> by congruence. rewrite week_self in Hsw0, Hfw0.
  (* the two lists of week numbers *)
  assert (Hfin : flat_map (fun r => opt_list (FinishWeek r)) (df_plot c)
                 = flat_map (fun r => opt_list (FinishWeek r)) wdf).
  { rewrite Hplot. apply flat_map_filter_weeks.
    intros w Hw Hf. now rewrite (proj2 (Hboth w Hw Hf)). }
  assert (Hge : forall w sw, In w wdf -> StartWeek w = Some sw -> 1 <= sw).
  { intros w sw Hw Hsw. destruct (has_weeks w) eqn:Eh.
    - destruct (Hrows w Hw Eh) as (s & f & _ & _ & Hsw' & _).
      rewrite Hsw in Hsw'. injection Hsw' as ->. apply week_ge_1.
    - rewrite (proj1 (Hboth w Hw Eh)) in Hsw. discriminate. }
  split.
  { rewrite Hmin. apply min_of_least.
    - apply in_flat_map. exists w0. split; [ exact Hw0 | ]. rewrite Hsw0. now left.
    - intros x Hx. apply in_flat_map in Hx as (w & Hw & Hx).
      destruct (StartWeek w) as [sw | ] eqn:Esw; [ | destruct Hx ].
      destruct Hx as [<- | []]. eapply Hge; eassumption. }
  split; [ now rewrite Hmaxf, <- Hfin | ].
  apply max_of_spec in Hmax as [_ Hmax].
  assert (Hfw_le : forall w fw, In w (df_plot c) -> FinishWeek w = Some fw ->
                     fw <= max_week c).
  { intros w fw Hw Hfw. apply Hmax. apply in_flat_map. exists w.
    split; [ exact Hw | ]. rewrite Hfw. now left. }
  assert (Hw0p : In w0 (df_plot c)) by (rewrite Hplot; apply filter_In; now split).
  split.
  { pose proof (week_ge_1 m f0).
    specialize (Hfw_le w0 _ Hw0p Hfw0).
    destruct (Z.eqb_spec (week m f0) 1); lia. }
  intros r Hr. assert (Hr' := Hr). rewrite Hplot in Hr'.
  apply filter_In in Hr' as [Hr1 Hr2].
  destruct (Hrows r Hr1 Hr2) as (s & f & _ & _ & Hsw & Hfw).
  pose proof (week_ge_1 m s). pose proof (week_ge_1 m f).
  pose proof (Hfw_le r _ Hr Hfw) as Hle'.
  eexists. eexists. split; [ exact Hsw | ]. split; [ exact Hfw | ].
  split; [ assumption | ].
  assert (Hfw1 : 1 <= (if week m f =? week m s then week m s + 1 else week m f))
    by (destruct (week m f =? week m s); lia).
  split; [ split; assumption | ].
  split; [ apply In_week_ticks; lia | intros Hlt; apply In_week_ticks; lia ].
Qed.

(** X10.  When [generate_gantt_chart] is called with the default
    [epic_only=False], as the route /gantt does, the "No Scheduled Tasks"
    page is shown exactly when there are work packages, all of them are
    converted to rows without an error, and none of them has a readable
    start or due date, given or derived.  (With [epic_only=True] the same
    page is also the answer when the filter keeps no row.) *)
Theorem no_scheduled_tasks_iff (clock : Z) (wps : list pyval) :
  generate_gantt_chart fromisoformat clock wps = NoScheduledTasks
  <-> wps <> []
      /\ (exists frame, _extract_work_package_data fromisoformat clock wps = Ok frame)
      /\ Forall (undated fromisoformat) wps.
Proof.
  unfold generate_gantt_chart. destruct wps as [ | wp wps' ].
  { split; [ discriminate | intros [H _]; now destruct H ]. }
  assert (Hne : wp :: wps' <> []) by discriminate.
  set (wps := wp :: wps') in *. clearbody wps. clear wp wps'.
  destruct (_extract_work_package_data fromisoformat clock wps) as [frame | e] eqn:E;
    cbn [bind].
  2: { split; [ discriminate | intros (_ & [f Hf] & _); discriminate Hf ]. }
  destruct (extract_frame_wf fromisoformat _ _ _ E) as [Hwf Hun].
  assert (Hall : Forall (undated fromisoformat) wps
                 <-> Forall (fun r => Start r = None) frame).
  { clear E Hne. induction Hun as [ | wp r wps frame Hr Hun IH ].
    - split; constructor.
    - inversion Hwf as [ | ? ? [Hrwf _] Hwf' ]; subst.
      specialize (IH Hwf'). unfold row_wf in Hrwf.
      split; intros HF; inversion HF; subst; constructor; try (now apply IH).
      + apply Hr in H1. rewrite Hrwf in H1. destruct (Start r); [ discriminate | easy ].
      + apply Hr. rewrite Hrwf, H1. reflexivity. }
  rewrite Hall. clear Hall Hun.
  assert (Hlay : layout frame = Ok NoScheduledTasks
                 <-> Forall (fun r => Start r = None) frame).
  { split.
    - intros H. unfold layout in H.
      destruct frame as [ | r0 fr ]; [ constructor | ].
      set (frame := r0 :: fr) in *. clearbody frame.
      apply bind_ok in H as (sdf & Hsort & H).
      apply bind_ok in H as (wdf & Hweeks & H).
      unfold sort_values in Hsort.
      destruct (same_awareness (valid_starts frame)); [ | discriminate ].
      injection Hsort as <-.
      destruct (filter has_weeks wdf) as [ | w ws ] eqn:Ef; [ | discriminate H ].
      pose proof (with_weeks_has_weeks _ _ Hweeks) as Hhas.
      apply with_weeks_rows in Hweeks as [Hbase _].
      assert (Hs : Forall (fun r => Start r = None) (stable_sort frame)).
      { apply Forall_forall. intros r Hr.
        rewrite <- Hbase in Hr. apply in_map_iff in Hr as (w & <- & Hw).
        assert (Hf : has_weeks w = false).
        { destruct (has_weeks w) eqn:Eh; [ | reflexivity ].
          assert (In w (filter has_weeks wdf)) as Hin by (apply filter_In; now split).
          rewrite Ef in Hin. destruct Hin. }
        rewrite (Hhas w Hw) in Hf.
        assert (Hw' : In (base w) frame).
        { eapply Permutation_in; [ apply Permutation_sym, stable_sort_perm | ].
          rewrite <- Hbase. now apply in_map. }
        rewrite Forall_forall in Hwf. destruct (Hwf _ Hw') as [_ Hiff].
        destruct (Start (base w)); [ | reflexivity ].
        destruct (Finish (base w)); [ discriminate Hf | ].
        destruct Hiff as [Hiff _]. now specialize (Hiff eq_refl). }
      eapply Permutation_Forall; [ apply Permutation_sym, stable_sort_perm | exact Hs ].
    - intros H. unfold layout.
      destruct frame as [ | r0 fr ]; [ reflexivity | ].
      set (frame := r0 :: fr) in *. clearbody frame.
      assert (Hv : forall l, Forall (fun r => Start r = None) l -> valid_starts l = []).
      { induction 1 as [ | r l Hr _ IH ]; [ reflexivity | ].
        unfold valid_starts in *. cbn [flat_map]. now rewrite Hr, IH. }
      unfold sort_values. rewrite (Hv _ H). cbn [same_awareness bind].
      assert (Hs : Forall (fun r => Start r = None) (stable_sort frame))
        by (eapply Permutation_Forall; [ apply stable_sort_perm | exact H ]).
      unfold with_weeks. rewrite (Hv _ Hs). cbn [bind].
      replace (filter has_weeks (map (fun r => mkwr r None None) (stable_sort frame)))
        with (@nil week_row); [ reflexivity | ].
      symmetry. generalize (stable_sort frame). intros l.
      induction l as [ | r l IH ]; [ reflexivity | exact IH ]. }
  split.
  - intros H. split; [ exact Hne | ]. split; [ eauto | ].
    apply Hlay. destruct (layout frame) as [o | e]; [ now subst o | discriminate H ].
  - intros (_ & _ & H). rewrite (proj2 Hlay H). reflexivity.
Qed.

End SummaryProperties.

(** ** Labels of two lines *)

Lemma len_append (a b : string) : len (a ++ b) = len a + len b.
Proof.
  unfold len. induction a as [ | c a IH ]; cbn [String.append String.length]; lia.
Qed.

Lemma string_app_assoc (a b c : string) : (a ++ b) ++ c = a ++ b ++ c.
Proof. induction a as [ | x a IH ]; cbn; congruence. Qed.

Lemma string_app_nil_r (a : string) : a ++ "" = a.
Proof. induction a as [ | x a IH ]; cbn; congruence. Qed.

Lemma len_nonneg (s : string) : 0 <= len s.
Proof. unfold len. lia. Qed.

Lemma nonempty_false (s : string) : nonempty s = false -> s = "".
Proof. destruct s; [ reflexivity | ]. unfold nonempty, len. cbn. discriminate. Qed.

Lemma sum_len_app (l l' : list string) : sum_len (l ++ l') = sum_len l + sum_len l'.
Proof.
  unfold sum_len. induction l as [ | x l IH ]; cbn [app map fold_right]; lia.
Qed.

Lemma sum_len_nonneg (l : list string) : 0 <= sum_len l.
Proof.
  unfold sum_len. induction l as [ | x l IH ]; cbn [map fold_right];
    [ lia | pose proof (len_nonneg x); lia ].
Qed.

(** Each word of a split title costs its length and one separator, the
    last separator excepted. *)
Lemma split_from_budget (s word : string) :
  sum_len (split_from s word) + llen (split_from s word) <= len word + len s + 1.
Proof.
  revert word. induction s as [ | c s IH ]; intros word; cbn [split_from].
  - destruct (nonempty word); unfold sum_len, llen, len; cbn; lia.
  - assert (Hs : len (String c s) = len s + 1) by (unfold len; cbn [String.length]; lia).
    destruct (is_space c).
    + specialize (IH ""). change (len "") with 0 in IH.
      destruct (nonempty word).
      * unfold sum_len, llen in *. cbn [map fold_right List.length]. lia.
      * pose proof (len_nonneg word). lia.
    + specialize (IH (word ++ String c "")). rewrite len_append in IH.
      change (len (String c "")) with 1 in IH. lia.
Qed.

Lemma pack_two_lines (max_chars : Z) (words : list string) (current_line : string) :
  pack max_chars 2 words [] current_line
  = match first_line max_chars words current_line with
    | (l, []) => ([], l)
    | (l, w :: _) => ([l], w)
    end.
Proof.
  revert current_line. induction words as [ | w words IH ]; intros cur;
    cbn [pack first_line]; [ reflexivity | ].
  destruct (len cur + len w + 1 <=? max_chars); [ apply IH | reflexivity ].
Qed.

(** The line is within the bound or untouched; the words taken account
    for its length; the first word left over did not fit. *)
Lemma first_line_inv (max_chars : Z) (words : list string) :
  forall (current_line l : string) (rest : list string),
    first_line max_chars words current_line = (l, rest) ->
    exists taken,
      words = (taken ++ rest)%list
      /\ (len l <= max_chars \/ l = current_line)
      /\ (if nonempty l then len l + 1 else 0)
         <= (if nonempty current_line then len current_line + 1 else 0)
            + sum_len taken + llen taken
      /\ match rest with
         | [] => True
         | w :: _ => max_chars < len l + len w + 1
         end.
Proof.
  induction words as [ | w words IH ]; intros cur l rest H; cbn [first_line] in H.
  - injection H as <- <-. exists []. unfold sum_len, llen. cbn.
    repeat split; auto. destruct (nonempty cur); lia.
  - destruct (Z.leb_spec (len cur + len w + 1) max_chars) as [Hfit | Hnot].
    + apply IH in H as (taken & -> & Hl & Hg & Hrest).
      exists (w :: taken). split; [ reflexivity | ].
      assert (Hnew : len ((if nonempty cur then cur ++ " " else cur) ++ w)
                     = (if nonempty cur then len cur + 1 else 0) + len w).
      { destruct (nonempty cur) eqn:Ec.
        - rewrite !len_append. reflexivity.
        - apply nonempty_false in Ec. subst cur. reflexivity. }
      split.
      * destruct Hl as [Hl | ->]; [ now left | ]. left. rewrite Hnew.
        destruct (nonempty cur); pose proof (len_nonneg cur); lia.
      * split; [ | exact Hrest ].
        unfold sum_len, llen in *. cbn [map fold_right List.length].
        destruct (nonempty ((if nonempty cur then cur ++ " " else cur) ++ w));
          rewrite ?Hnew in Hg; pose proof (len_nonneg w); pose proof (len_nonneg cur);
          destruct (nonempty cur); lia.
    + injection H as <- <-. exists []. unfold sum_len, llen. cbn.
      repeat split; auto; try lia.
Qed.

Lemma split_from_nonempty (s word w : string) :
  In w (split_from s word) -> nonempty w = true.
Proof.
  revert word. induction s as [ | c s IH ]; intros word; cbn [split_from].
  - destruct (nonempty word) eqn:E; [ intros [<- | []]; exact E | intros [] ].
  - destruct (is_space c); [ | apply IH ].
    destruct (nonempty word) eqn:E; [ | apply IH ].
    intros [<- | H]; [ exact E | now apply IH in H ].
Qed.

(** X11.  With the default of two lines, a name longer than [max_chars] is
    wrapped as follows.  The first line takes the leading words that fit
    in [max_chars] characters, joined by single spaces (it is empty when
    the first word alone is too long).  If no word is left the first line
    is the result.  Otherwise the word that did not fit becomes the second
    line, on its own and whatever its length, after a "<br>", and every
    later word is dropped; "..." is appended unless the first line is
    empty and that word is as long as the name. *)
Theorem wrap_name_two_lines (name : string) (max_chars : Z)
    (l : string) (rest : list string) :
  max_chars < len name ->
  first_line max_chars (py_split name) "" = (l, rest) ->
  (len l <= max_chars \/ l = "")
  /\ match rest with
     | [] => wrap_name name max_chars 2 = l
     | w :: _ =>
         max_chars < len l + len w + 1
         /\ wrap_name name max_chars 2
            = l ++ "<br>" ++ w
              ++ (if nonempty l || (len w <? len name) then "..." else "")
     end.
Proof.
  intros Hlong Hfl.
  destruct (first_line_inv _ _ _ _ _ Hfl) as (taken & Hwords & Hl & Hg & Hrest).
  split; [ exact Hl | ].
  unfold wrap_name. replace (len name <=? max_chars) with false
    by (symmetry; apply Z.leb_gt; exact Hlong).
  rewrite pack_two_lines, Hfl.
  destruct rest as [ | w rest ].
  - destruct (nonempty l) eqn:El.
    + reflexivity.
    + apply nonempty_false in El. subst l. reflexivity.
  - split; [ exact Hrest | ].
    assert (Hw : nonempty w = true).
    { apply (split_from_nonempty name "" w). fold (py_split name).
      rewrite Hwords. apply in_or_app. right. now left. }
    rewrite Hw. cbn [app].
    change (llen [l; w] >? 2) with false. cbv iota.
    change (llen [l; w] =? 2) with true. cbn [andb join].
    replace (slice_to [l; w] (-1)) with [l] by reflexivity.
    replace (sum_len [l]) with (len l) by (unfold sum_len; cbn; lia).
    replace (len w + len l <? len name) with (nonempty l || (len w <? len name)).
    + destruct (nonempty l || (len w <? len name)).
      * now rewrite !string_app_assoc.
      * now rewrite string_app_nil_r.
    + destruct (nonempty l) eqn:El; cbn [orb].
      * symmetry. apply Z.ltb_lt.
        pose proof (split_from_budget name "") as Hb. fold (py_split name) in Hb.
        rewrite Hwords, sum_len_app, llen_app in Hb.
        change (len "") with 0 in Hb. change (nonempty "") with false in Hg.
        unfold sum_len, llen in Hb. cbn [map fold_right List.length] in Hb.
        fold (sum_len rest) in Hb. fold (llen taken) in Hb.
        pose proof (sum_len_nonneg rest). unfold sum_len in *. lia.
      * apply nonempty_false in El. subst l. change (len "") with 0.
        now rewrite Z.add_0_r.
Qed.

(** ** The chart route *)

Section RouteProperties.

Variable session_request : string -> query -> fetch pyval.
Variable fromisoformat : string -> option datetime.

(** X12.  The chart route always answers.  A failure of the project
    request, or of the first work-package request once the project is
    read, ends in the error page for that failure.  When the first page of work
    packages holds all of them ([total] is at most its length) the page
    shown is the one [generate_gantt_chart] builds from exactly these
    items. *)
Theorem gantt_chart_outcomes
  (self : OpenProjectClient) (clock project_id : Z)
  (e : failure) (p d : list (string * pyval)) (items : list pyval) (total : Z) :
let project_url := base_url self ++ "/api/v3/projects/" ++ str_int project_id in
let items_url := base_url self ++ "/api/v3/work_packages" in
(exists shown,
   gantt_chart session_request fromisoformat self clock project_id = Some shown)
/\ (session_request project_url None = Failed e ->
    gantt_chart session_request fromisoformat self clock project_id
    = Some (FetchError e))
/\ (session_request project_url None = Got (VDict p) ->
    session_request items_url (work_packages_query project_id 1) = Failed e ->
    gantt_chart session_request fromisoformat self clock project_id
    = Some (FetchError e))
/\ (session_request project_url None = Got (VDict p) ->
    session_request items_url (work_packages_query project_id 1) = Got (VDict d) ->
    elements_of (VDict d) = Ok (VList items) ->
    lookup "total" d = Some (VInt total) ->
    total <= llen items ->
    gantt_chart session_request fromisoformat self clock project_id
    = Some (Shown (generate_gantt_chart fromisoformat clock items))).
Proof.
intros project_url items_url. unfold gantt_chart, get_project, _make_request.
replace (base_url self ++ "/api/v3" ++ "/projects/" ++ str_int project_id)
  with project_url by reflexivity.
repeat split.
- destruct (session_request project_url None) as [project | e']; [ | eauto ].
  destruct (py_get project "name" VNone); [ | eauto ].
  unfold get_work_packages.
  destruct (proj1 (paged_result
      (fun offset => _make_request session_request self "/work_packages"
                       (work_packages_query project_id offset)) 1000))
    as (r & -> & _).
  destruct r; eauto.
- intros ->. reflexivity.
- intros -> Hitems. cbn [py_get]. unfold get_work_packages.
  change (request_bound 1000) with (S 999). cbn [fetch_pages].
  unfold page_step, _make_request.
  replace (base_url self ++ "/api/v3" ++ "/work_packages") with items_url
    by reflexivity.
  now rewrite Hitems.
- intros -> Hitems Hel Ht Hle. cbn [py_get]. unfold get_work_packages.
  destruct items as [ | item items ].
  + destruct (first_page_ends
                (fun offset => _make_request session_request self "/work_packages"
                                 (work_packages_query project_id offset))
                1000 d [] Hitems Hel) as (H & _).
    now rewrite (H eq_refl).
  + destruct (first_page_ends
                (fun offset => _make_request session_request self "/work_packages"
                                 (work_packages_query project_id offset))
                1000 d (item :: items) Hitems Hel) as (_ & _ & H).
    rewrite (H total); [ reflexivity | discriminate | exact Ht | now left ].
Qed.

End RouteProperties.

(** ** The project duration of the summary *)



Section DurationProperties.

Variable fromisoformat : string -> option datetime.



End DurationProperties.

(** ** Worked examples for the client, the route and the figure *)

Lemma work_packages_are_first_pages_witness :
  let request := fun offset =>
    Demo.server (base_url Demo.client ++ "/api/v3/work_packages")
                (work_packages_query 7 offset) in
  get_work_packages Demo.server Demo.client 7 1000
  = Some (Got [Ex.task_a; Ex.due_only; Ex.undated])
  /\ exists n,
       (n <= request_bound 1000)%nat
       /\ [Ex.task_a; Ex.due_only; Ex.undated] = first_pages request n
       /\ (forall i, (i < n)%nat ->
             (exists response, request (1 + 100 * Z.of_nat i) = Got response)
             /\ 1 <= llen (page_items request i))
       /\ (1 <= 1000 -> llen (first_pages request (n - 1)) < 1000)
       /\ (1 <= 1000 -> (forall i, llen (page_items request i) <= 100) ->
           llen [Ex.task_a; Ex.due_only; Ex.undated] < 1000 + 100).
Proof.
  split.
  - vm_compute. reflexivity.
  - apply (work_packages_are_first_pages Demo.server Demo.client 7 1000).
    vm_compute. reflexivity.
Defined.

Lemma first_page_suffices_witness :
  get_work_packages Demo.small_server Demo.client 8 1000
  = Some (Got [Ex.task_a; Ex.half_done])
  /\ get_work_packages Demo.small_server Demo.client 8 1
     = Some (Got [Ex.task_a; Ex.half_done]).
Proof.
  split.
  - destruct (first_page_suffices Demo.small_server Demo.client 8 1000
                [("_embedded", VDict [("elements", VList [Ex.task_a; Ex.half_done])]);
                 ("total", VInt 2)]
                [Ex.task_a; Ex.half_done]) as (_ & _ & H);
      [ reflexivity | reflexivity | ].
    apply (H 2); [ discriminate | reflexivity | left; cbn; lia ].
  - destruct (first_page_suffices Demo.small_server Demo.client 8 1
                [("_embedded", VDict [("elements", VList [Ex.task_a; Ex.half_done])]);
                 ("total", VInt 2)]
                [Ex.task_a; Ex.half_done]) as (_ & _ & H);
      [ reflexivity | reflexivity | ].
    apply (H 2); [ discriminate | reflexivity | right; cbn; lia ].
Defined.

Lemma only_strided_offsets_witness :
  (forall k : nat,
     Demo.server (base_url Demo.client ++ "/api/v3/work_packages")
                 (work_packages_query 7 (1 + 100 * Z.of_nat k))
     = Demo.strided_server (base_url Demo.client ++ "/api/v3/work_packages")
                           (work_packages_query 7 (1 + 100 * Z.of_nat k)))
  /\ get_work_packages Demo.server Demo.client 7 1000
     = get_work_packages Demo.strided_server Demo.client 7 1000.
Proof.
  assert (H : forall k : nat,
     Demo.server (base_url Demo.client ++ "/api/v3/work_packages")
                 (work_packages_query 7 (1 + 100 * Z.of_nat k))
     = Demo.strided_server (base_url Demo.client ++ "/api/v3/work_packages")
                           (work_packages_query 7 (1 + 100 * Z.of_nat k))).
  { intros k. unfold Demo.strided_server.
    change (Demo.offset_of (work_packages_query 7 (1 + 100 * Z.of_nat k)))
      with (1 + 100 * Z.of_nat k).
    replace ((1 + 100 * Z.of_nat k) mod 100) with 1; [ reflexivity | ].
    replace (1 + 100 * Z.of_nat k) with (1 + Z.of_nat k * 100) by lia.
    rewrite Z.mod_add by lia. reflexivity. }
  split; [ exact H | ].
  exact (proj1 (only_strided_offsets Demo.server Demo.strided_server Demo.client 7 1000) H).
Defined.

Lemma error_text_precedence_witness :
  error_text Demo.fifth_page_error "https://op.example" = AUTH_FAILED
  /\ error_text "403 Client Error: Forbidden for url: https://op.example/api/v3/projects"
                "https://op.example" = FORBIDDEN
  /\ error_text "HTTPSConnectionPool(host='op.example', port=443): Connection refused"
                "https://op.example"
     = "Cannot connect to OpenProject at https://op.example. Please check your OPENPROJECT_URL environment variable."
  /\ error_text "Read timed out." "https://op.example" = "Read timed out.".
Proof.
  split; [ | split; [ | split ] ].
  - apply (proj1 (error_text_precedence Demo.fifth_page_error "https://op.example"
       "500 Server Error: Internal Server Error for url: https://op.example/api/v3/projects?pageSize=100&offset="
       "")).
    left. reflexivity.
  - apply (proj1 (proj2 (error_text_precedence
       "403 Client Error: Forbidden for url: https://op.example/api/v3/projects"
       "https://op.example" ""
       " Client Error: Forbidden for url: https://op.example/api/v3/projects")));
      reflexivity.
  - apply (proj1 (proj2 (proj2 (error_text_precedence
       "HTTPSConnectionPool(host='op.example', port=443): Connection refused"
       "https://op.example" "HTTPS"
       "Pool(host='op.example', port=443): Connection refused"))));
      reflexivity.
  - apply (proj2 (proj2 (proj2 (error_text_precedence
       "Read timed out." "https://op.example" "" ""))));
      reflexivity.
Defined.

Lemma chart_counts_every_item_witness :
  match generate_gantt_chart Iso.iso_basic Ex.clock
          [Ex.task_a; Ex.undated; Ex.due_only] with
  | Chart c =>
      total_tasks c = 3
      /\ llen (df_plot c) + llen (missing_start_df c) = 3
      /\ llen (y_labels c) = 3
  | _ => False
  end.
Proof.
  destruct (generate_gantt_chart Iso.iso_basic Ex.clock
              [Ex.task_a; Ex.undated; Ex.due_only])
    as [ | | c | e ] eqn:E; try (vm_compute in E; discriminate E).
  exact (chart_counts_every_item Iso.iso_basic Ex.clock _ c E).
Defined.

Lemma y_axis_is_reversed_order_witness :
  match generate_gantt_chart Iso.iso_basic Ex.clock
          [Ex.undated; Ex.half_done; Ex.task_a] with
  | Chart c =>
      exists frame,
        _extract_work_package_data Iso.iso_basic Ex.clock
          [Ex.undated; Ex.half_done; Ex.task_a] = Ok frame
        /\ y_labels c = rev (map Task (stable_sort frame))
        /\ Permutation (map base (df_plot c ++ missing_start_df c)) frame
  | _ => False
  end.
Proof.
  destruct (generate_gantt_chart Iso.iso_basic Ex.clock
              [Ex.undated; Ex.half_done; Ex.task_a])
    as [ | | c | e ] eqn:E; try (vm_compute in E; discriminate E).
  exact (y_axis_is_reversed_order Iso.iso_basic Ex.clock _ c E).
Defined.

Lemma week_axis_bounds_witness :
  match generate_gantt_chart Iso.iso_basic Ex.clock
          [Ex.half_done; Ex.task_a; Ex.due_only] with
  | Chart c =>
      min_start_week c = Some 1
      /\ max_finish_week c = Some (max_week c)
      /\ 2 <= max_week c
      /\ forall r, In r (df_plot c) ->
           exists sw fw,
             StartWeek r = Some sw /\ FinishWeek r = Some fw
             /\ 1 <= sw
             /\ 1 <= fw <= max_week c
             /\ In fw (week_ticks c)
             /\ (sw < fw -> In sw (week_ticks c))
  | _ => False
  end.
Proof.
  destruct (generate_gantt_chart Iso.iso_basic Ex.clock
              [Ex.half_done; Ex.task_a; Ex.due_only])
    as [ | | c | e ] eqn:E; try (vm_compute in E; discriminate E).
  exact (week_axis_bounds Iso.iso_basic Ex.clock _ c E).
Defined.

Lemma no_scheduled_tasks_iff_witness :
  generate_gantt_chart Iso.iso_basic Ex.clock [Ex.undated; Ex.overbooked]
  = NoScheduledTasks.
Proof.
  apply (proj2 (no_scheduled_tasks_iff Iso.iso_basic Ex.clock
                  [Ex.undated; Ex.overbooked])).
  split; [ discriminate | split ].
  - destruct (_extract_work_package_data Iso.iso_basic Ex.clock
                [Ex.undated; Ex.overbooked]) as [ frame | e ] eqn:E;
      [ now exists frame | vm_compute in E; discriminate E ].
  - repeat constructor.
Defined.

Lemma wrap_name_two_lines_witness :
  100 < len Ex.two_words
  /\ first_line 100 (py_split Ex.two_words) "" = (Ex.a60, [Ex.b60])
  /\ wrap_name Ex.two_words 100 2 = Ex.a60 ++ "<br>" ++ Ex.b60 ++ "...".
Proof.
  assert (H1 : 100 < len Ex.two_words) by (vm_compute; reflexivity).
  assert (H2 : first_line 100 (py_split Ex.two_words) "" = (Ex.a60, [Ex.b60]))
    by (vm_compute; reflexivity).
  split; [ exact H1 | split; [ exact H2 | ] ].
  exact (proj2 (proj2 (wrap_name_two_lines Ex.two_words 100 Ex.a60 [Ex.b60] H1 H2))).
Defined.


Lemma gantt_chart_outcomes_witness :
  gantt_chart Demo.small_server Iso.iso_basic Demo.client Ex.clock 8
  = Some (Shown (generate_gantt_chart Iso.iso_basic Ex.clock
                   [Ex.task_a; Ex.half_done]))
  /\ gantt_chart Demo.small_server Iso.iso_basic Demo.client Ex.clock 9
     = Some (FetchError RequestException).
Proof.
  split.
  - destruct (gantt_chart_outcomes Demo.small_server Iso.iso_basic Demo.client
                Ex.clock 8 RequestException [("name", VStr "Small")]
                [("_embedded", VDict [("elements", VList [Ex.task_a; Ex.half_done])]);
                 ("total", VInt 2)]
                [Ex.task_a; Ex.half_done] 2) as (_ & _ & _ & H).
    apply H; [ reflexivity | reflexivity | reflexivity | reflexivity | cbn; lia ].
  - destruct (gantt_chart_outcomes Demo.small_server Iso.iso_basic Demo.client
                Ex.clock 9 RequestException [] [] [] 0) as (_ & H & _).
    apply H. reflexivity.
Defined.
